(** * Ordered collections, folder cap and upload wizard of the comic-sharing dashboard

    A shallow embedding of the business logic of
    [src/app/dashboard/bookmarks/page.tsx] (the bookmark-folder page and the
    comic-upload wizard) and of the SQL of [extended-schema.md]
    (the folder-limit trigger, the page reorder procedure, the unique slug).

    - React state and refs are a record; every handler is a function on it.
    - Calls to the data-access and storage layers are returned as the list of
      calls issued, in order; how each awaited call ends (fulfilled, fulfilled
      with an [error] field, rejected) is supplied by the environment.
    - The one asynchronous continuation of the wizard, the [.then] that
      stores the page previews, is an event of its own, so that other events
      can come between a file selection and the arrival of its previews.
    - Tables are lists of rows; a statement either gives the new table or
      raises and leaves the table as it was. *)

From Stdlib Require Import String DecimalString.
From Stdlib Require Import List Arith PeanoNat ZArith NArith Lia Bool Permutation.
Import ListNotations.

(* ===================================================================== *)
(** ** JavaScript arrays, as far as the handlers use them *)
(* ===================================================================== *)

Module JSArray.
Section Ops.
Context {A : Type}.

(** [arr[i]]: the element, or [undefined] past the end. *)
Definition get (undefined : A) (arr : list A) (i : nat) : A := nth i arr undefined.

(** [arr.splice(start, 1)]: drops the element at [start]; past the end the
    start is clamped to the length and nothing is removed. *)
Definition splice_remove (start : nat) (arr : list A) : list A :=
  firstn start arr ++ skipn (S start) arr.

(** [arr.splice(start, 0, x)]: inserts [x] before index [start]; past the
    end the start is clamped to the length, so [x] is appended. *)
Definition splice_insert (start : nat) (x : A) (arr : list A) : list A :=
  firstn start arr ++ x :: skipn start arr.

(** The three statements shared by both drag handlers:
    [const dragged = copy[from]; copy.splice(from, 1); copy.splice(to, 0, dragged)]. *)
Definition move (undefined : A) (from to : nat) (arr : list A) : list A :=
  splice_insert to (get undefined arr from) (splice_remove from arr).

(** [arr.map((x, index) => f x index)], with the running index explicit. *)
Fixpoint mapi_from {B : Type} (f : A -> nat -> B) (k : nat) (arr : list A) : list B :=
  match arr with
  | [] => []
  | x :: rest => f x k :: mapi_from f (S k) rest
  end.

Definition mapi {B : Type} (f : A -> nat -> B) (arr : list A) : list B :=
  mapi_from f 0 arr.
End Ops.

End JSArray.

(* ===================================================================== *)
(** ** The relational store: tables, constraints, trigger and procedure
       of [extended-schema.md] *)
(* ===================================================================== *)

Module Schema.

(** Identifiers are opaque UUIDs; the model keeps them as numbers. *)
Definition UUID := N.

Inductive pg_error :=
| folder_limit_reached      (* RAISE EXCEPTION 'Maximum folder limit reached' *)
| unique_violation
| check_violation.

Inductive result (A : Type) :=
| Done (a : A)
| Raised (e : pg_error).
Arguments Done {A} a.
Arguments Raised {A} e.

(** *** profiles and bookmark_folders *)

(** [profiles]: only the key and the column added by
    [ALTER TABLE profiles ADD COLUMN max_bookmark_folders INTEGER DEFAULT 100]
    (nullable, hence [option]). *)
Record profile := mkProfile {
  profile_id : UUID;
  max_bookmark_folders : option Z }.

Record bookmark_folder := mkBookmarkFolder {
  folder_id : UUID;
  user_id : UUID;
  name : string;
  is_default : bool;
  display_order : Z }.

Record folder_db := mkFolderDb {
  profiles : list profile;
  bookmark_folders : list bookmark_folder }.

(** [SELECT COUNT( * ) FROM bookmark_folders WHERE user_id = u] *)
Definition count_folders (db : folder_db) (u : UUID) : Z :=
  Z.of_nat (length (filter (fun r => N.eqb (user_id r) u) (bookmark_folders db))).

(** [SELECT max_bookmark_folders FROM profiles WHERE id = u]; NULL when the
    profile is missing or the column is NULL. *)
Definition select_max_bookmark_folders (db : folder_db) (u : UUID) : option Z :=
  match find (fun p => N.eqb (profile_id p) u) (profiles db) with
  | Some p => max_bookmark_folders p
  | None => None
  end.

(** The trigger function.  It runs BEFORE INSERT, so the count is taken on
    the table without the NEW row.  A comparison with NULL is not true, so
    the IF branch is skipped then. *)
Definition check_folder_limit (db : folder_db) (NEW : bookmark_folder)
  : result bookmark_folder :=
  match select_max_bookmark_folders db (user_id NEW) with
  | Some max =>
      if (count_folders db (user_id NEW) >? max)%Z
      then Raised folder_limit_reached
      else Done NEW
  | None => Done NEW
  end.

(** PRIMARY KEY (id) and UNIQUE (user_id, name) of [bookmark_folders]. *)
Definition folder_conflict (NEW r : bookmark_folder) : bool :=
  N.eqb (folder_id r) (folder_id NEW)
  || (N.eqb (user_id r) (user_id NEW) && String.eqb (name r) (name NEW)).

(** [INSERT INTO bookmark_folders]: trigger [enforce_folder_limit]
    (BEFORE INSERT FOR EACH ROW), then the constraints, then the row is
    stored.  An error leaves the database as it was. *)
Definition insert_bookmark_folder (db : folder_db) (row : bookmark_folder)
  : result folder_db :=
  match check_folder_limit db row with
  | Raised e => Raised e
  | Done NEW =>
      if existsb (folder_conflict NEW) (bookmark_folders db)
      then Raised unique_violation
      else Done (mkFolderDb (profiles db) (bookmark_folders db ++ [NEW]))
  end.

(** *** user_comics *)

Record user_comic := mkUserComic {
  comic_id : UUID;
  comic_user_id : UUID;
  title : string;
  slug : string;
  artist : string;
  cover_image_url : string;
  status : string;
  language : string;
  page_count : Z }.

Definition one_of (allowed : list string) (s : string) : bool :=
  existsb (String.eqb s) allowed.

(** The two CHECK constraints of the table. *)
Definition user_comic_checks (r : user_comic) : bool :=
  one_of ["draft"; "published"; "archived"]%string (status r)
  && one_of ["English"; "Chinese"; "Japanese"; "Other"]%string (language r).

(** PRIMARY KEY (id) and [slug TEXT UNIQUE NOT NULL]. *)
Definition user_comic_conflict (NEW r : user_comic) : bool :=
  N.eqb (comic_id r) (comic_id NEW) || String.eqb (slug r) (slug NEW).

Definition insert_user_comic (t : list user_comic) (NEW : user_comic)
  : result (list user_comic) :=
  if negb (user_comic_checks NEW) then Raised check_violation
  else if existsb (user_comic_conflict NEW) t then Raised unique_violation
  else Done (t ++ [NEW]).

(** [UPDATE user_comics SET slug = s WHERE id = i]: the unique index is
    checked against the other rows. *)
Definition set_slug (i : UUID) (s : string) (r : user_comic) : user_comic :=
  if N.eqb (comic_id r) i
  then mkUserComic (comic_id r) (comic_user_id r) (title r) s (artist r)
                   (cover_image_url r) (status r) (language r) (page_count r)
  else r.

Definition update_user_comic_slug (t : list user_comic) (i : UUID) (s : string)
  : result (list user_comic) :=
  if existsb (fun r => negb (N.eqb (comic_id r) i) && String.eqb (slug r) s) t
     && existsb (fun r => N.eqb (comic_id r) i) t
  then Raised unique_violation
  else Done (map (set_slug i s) t).

(** [DELETE FROM user_comics WHERE id = i] *)
Definition delete_user_comic (t : list user_comic) (i : UUID) : list user_comic :=
  filter (fun r => negb (N.eqb (comic_id r) i)) t.

Inductive comic_stmt :=
| InsertComic (NEW : user_comic)
| UpdateSlug (i : UUID) (s : string)
| DeleteComic (i : UUID).

Definition exec_comic_stmt (t : list user_comic) (s : comic_stmt)
  : result (list user_comic) :=
  match s with
  | InsertComic NEW => insert_user_comic t NEW
  | UpdateSlug i s => update_user_comic_slug t i s
  | DeleteComic i => Done (delete_user_comic t i)
  end.

(** The tables that can arise from the empty table; a statement that raises
    leaves the table as it was. *)
Inductive stored_comics : list user_comic -> Prop :=
| stored_empty : stored_comics []
| stored_step t s t' :
    stored_comics t -> exec_comic_stmt t s = Done t' -> stored_comics t'.

(** *** comic_pages and reorder_comic_pages *)

Record comic_page := mkComicPage {
  page_id : UUID;
  page_comic_id : UUID;
  page_number : Z;
  image_url : string }.

(** One statement of the procedure's loop:
    [UPDATE comic_pages SET page_number = n WHERE id = p AND comic_id = c]. *)
Record page_update := mkPageUpdate {
  upd_page : UUID;
  upd_comic : UUID;
  upd_number : Z }.

Definition page_matches (u : page_update) (r : comic_page) : bool :=
  N.eqb (page_id r) (upd_page u) && N.eqb (page_comic_id r) (upd_comic u).

Definition apply_page_update (u : page_update) (r : comic_page) : comic_page :=
  if page_matches u r
  then mkComicPage (page_id r) (page_comic_id r) (upd_number u) (image_url r)
  else r.

(** [UNIQUE (comic_id, page_number)], as a check on a whole table. *)
Fixpoint page_numbers_unique (t : list comic_page) : bool :=
  match t with
  | [] => true
  | r :: rest =>
      negb (existsb (fun r' => N.eqb (page_comic_id r') (page_comic_id r)
                               && Z.eqb (page_number r') (page_number r)) rest)
      && page_numbers_unique rest
  end.

Definition update_page_number (t : list comic_page) (u : page_update)
  : result (list comic_page) :=
  let t' := map (apply_page_update u) t in
  if page_numbers_unique t' then Done t' else Raised unique_violation.

(** The loop [FOR i IN 0..json_array_length(page_order) - 1]: each entry
    gets [new_order := i + 1] and one UPDATE.  The function returns the
    statements it ran together with the outcome; an exception aborts the
    loop. *)
Fixpoint reorder_loop (comic_uuid : UUID) (i : nat) (page_order : list UUID)
    (t : list comic_page) : list page_update * result (list comic_page) :=
  match page_order with
  | [] => ([], Done t)
  | page_id :: rest =>
      let new_order := (Z.of_nat i + 1)%Z in
      let u := mkPageUpdate page_id comic_uuid new_order in
      match update_page_number t u with
      | Raised e => ([u], Raised e)
      | Done t' =>
          let '(ran, r) := reorder_loop comic_uuid (S i) rest t' in
          (u :: ran, r)
      end
  end.

Definition reorder_comic_pages (comic_uuid : UUID) (page_order : list UUID)
    (t : list comic_page) : list page_update * result (list comic_page) :=
  reorder_loop comic_uuid 0 page_order t.

End Schema.

(* ===================================================================== *)
(** ** The bookmark-folder page ([BookmarksPage]) *)
(* ===================================================================== *)

Module Bookmarks.
Import JSArray.

Definition UUID := Schema.UUID.

(** A folder object as the page holds it (the state is typed [any[]]).
    [id] is [None] when reading [.id] gives [undefined]. *)
Record Folder := mkFolder {
  id : option UUID;
  name : string;
  is_default : bool;
  display_order : Z }.

(** What [{...undefined, display_order: index}] starts from: an object
    without own fields, so [.id] is undefined and [.is_default] is falsy. *)
Definition undefined_folder : Folder := mkFolder None EmptyString false 0.

Definition with_display_order (folder : Folder) (index : nat) : Folder :=
  mkFolder (id folder) (name folder) (is_default folder) (Z.of_nat index).

(** A folder without its position: what stays of an item across a reorder. *)
Definition item (folder : Folder) : option UUID * string * bool :=
  (id folder, name folder, is_default folder).

Definition folder_of_row (r : Schema.bookmark_folder) : Folder :=
  mkFolder (Some (Schema.folder_id r)) (Schema.name r)
           (Schema.is_default r) (Schema.display_order r).

Record BookmarkStats := mkStats {
  total_folders : Z;
  total_bookmarks : Z;
  folders_remaining : Z }.

(** The React state and refs of the component that the handlers touch. *)
Record Page := mkPage {
  user : option UUID;
  folders : list Folder;
  activeFolder : option UUID;
  bookmarkStats : BookmarkStats;
  error : option string;
  success : option string;
  dragItem : option nat;
  dragOverItem : option nat }.

Definition initial_stats : BookmarkStats := mkStats 0 0 100.

Definition setError (msg : string) (p : Page) : Page :=
  mkPage (user p) (folders p) (activeFolder p) (bookmarkStats p)
         (Some msg) (success p) (dragItem p) (dragOverItem p).

Definition setSuccess (msg : string) (p : Page) : Page :=
  mkPage (user p) (folders p) (activeFolder p) (bookmarkStats p)
         (error p) (Some msg) (dragItem p) (dragOverItem p).

Definition setFolders (fs : list Folder) (p : Page) : Page :=
  mkPage (user p) fs (activeFolder p) (bookmarkStats p)
         (error p) (success p) (dragItem p) (dragOverItem p).

Definition setActiveFolder (a : option UUID) (p : Page) : Page :=
  mkPage (user p) (folders p) a (bookmarkStats p)
         (error p) (success p) (dragItem p) (dragOverItem p).

Definition setBookmarkStats (s : BookmarkStats) (p : Page) : Page :=
  mkPage (user p) (folders p) (activeFolder p) s
         (error p) (success p) (dragItem p) (dragOverItem p).

Definition set_drag_refs (from to : option nat) (p : Page) : Page :=
  mkPage (user p) (folders p) (activeFolder p) (bookmarkStats p)
         (error p) (success p) from to.

(** Calls that leave the component, in the order they are issued. *)
Inductive call :=
| createBookmarkFolder (user_id : UUID) (name : string) (display_order : Z)
| updateBookmarkFolder (folderId : option UUID) (display_order : Z)
| deleteBookmarkFolder (folderId : UUID)
| fetchBookmarkData
| fetchBookmarksForFolder (folderId : option UUID)
| routerPush (folderId : option UUID).

(** How an awaited data-access call ends.  The helpers of this code base
    resolve to an object with an [error] field ([FulfilledWithError]); a
    promise that rejects makes the [await] throw ([Rejected]). *)
Inductive outcome :=
| Fulfilled
| FulfilledWithError
| Rejected.

Definition id_is (folderId : UUID) (f : Folder) : bool :=
  match id f with
  | Some i => N.eqb i folderId
  | None => false
  end.

Definition same_id (a : option UUID) (folderId : UUID) : bool :=
  match a with
  | Some i => N.eqb i folderId
  | None => false
  end.

(** *** handleDragStart / handleDragEnter *)

Definition handleDragStart (index : nat) (p : Page) : Page :=
  set_drag_refs (Some index) (dragOverItem p) p.

Definition handleDragEnter (index : nat) (p : Page) : Page :=
  set_drag_refs (dragItem p) (Some index) p.

(** *** handleDragEnd *)

(** [foldersCopy] after the two splices, then the [map] that sets
    [display_order: index]. *)
Definition reorder_folders (from to : nat) (fs : list Folder) : list Folder :=
  mapi with_display_order (move undefined_folder from to fs).

(** The loop
    [for (const folder of updatedFolders) { await updateBookmarkFolder(...) }]
    inside the [try].  [env k] is how the call of loop index [k] ends.  The
    value the call resolves to is dropped, so an [error] field in it is never
    looked at; only a rejection leaves the loop.  The result is the calls
    issued and whether the loop threw. *)
Fixpoint persist_loop (env : nat -> outcome) (k : nat) (updatedFolders : list Folder)
  : list call * bool :=
  match updatedFolders with
  | [] => ([], false)
  | folder :: rest =>
      let c := updateBookmarkFolder (id folder) (display_order folder) in
      match env k with
      | Rejected => ([c], true)
      | Fulfilled | FulfilledWithError =>
          let '(cs, thrown) := persist_loop env (S k) rest in
          (c :: cs, thrown)
      end
  end.

Definition handleDragEnd (env : nat -> outcome) (p : Page) : Page * list call :=
  match dragItem p, dragOverItem p with
  | Some from, Some to =>
      let updatedFolders := reorder_folders from to (folders p) in
      let p1 := set_drag_refs None None (setFolders updatedFolders p) in
      let '(calls, thrown) := persist_loop env 0 updatedFolders in
      if thrown
      then (setError "Failed to update folder order. Please try again." p1,
            calls ++ [fetchBookmarkData])
      else (p1, calls)
  | _, _ => (p, [])
  end.

(** *** The store behind the update calls *)

(** Modelled from the spec: [updateBookmarkFolder] is imported from the
    data-access layer but is not defined under src/.  The spec says the
    reorder persists the new position value of each item, so a fulfilled call
    sets [display_order] of the row with that id; the rows of other ids, and
    every row when the id is undefined, stay as they are. *)
Definition persist_display_order (folderId : option UUID) (order : Z)
    (db : Schema.folder_db) : Schema.folder_db :=
  match folderId with
  | None => db
  | Some i =>
      Schema.mkFolderDb (Schema.profiles db)
        (map (fun r =>
                if N.eqb (Schema.folder_id r) i
                then Schema.mkBookmarkFolder (Schema.folder_id r) (Schema.user_id r)
                       (Schema.name r) (Schema.is_default r) order
                else r)
             (Schema.bookmark_folders db))
  end.

(** Modelled from the spec: the store after the update calls of one run of
    the loop, call [k] ending as [env k]; only a fulfilled call without error
    has written its position. *)
Fixpoint store_after (env : nat -> outcome) (k : nat) (calls : list call)
    (db : Schema.folder_db) : Schema.folder_db :=
  match calls with
  | [] => db
  | updateBookmarkFolder folderId order :: rest =>
      match env k with
      | Fulfilled => store_after env (S k) rest (persist_display_order folderId order db)
      | FulfilledWithError | Rejected => store_after env (S k) rest db
      end
  | _ :: rest => store_after env k rest db
  end.

(** *** handleDeleteFolder *)

Definition handleDeleteFolder (result : outcome) (folderId : UUID) (p : Page)
  : Page * list call :=
  match user p with
  | None => (p, [])
  | Some _ =>
      let folder := find (id_is folderId) (folders p) in
      if match folder with Some f => is_default f | None => false end
      then (setError "Cannot delete default folders." p, [])
      else
        match result with
        | Fulfilled =>
            let remainingFolders := filter (fun f => negb (id_is folderId f)) (folders p) in
            let stats := bookmarkStats p in
            let p1 :=
              setSuccess "Folder deleted successfully."
                (setBookmarkStats
                   (mkStats (total_folders stats - 1) (total_bookmarks stats)
                            (folders_remaining stats + 1))
                   (setFolders remainingFolders p)) in
            if same_id (activeFolder p) folderId && (0 <? length (folders p))
            then
              match remainingFolders with
              | first :: _ =>
                  (setActiveFolder (id first) p1,
                   [deleteBookmarkFolder folderId;
                    fetchBookmarksForFolder (id first);
                    routerPush (id first)])
              | [] => (p1, [deleteBookmarkFolder folderId])
              end
            else (p1, [deleteBookmarkFolder folderId])
        | FulfilledWithError | Rejected =>
            (setError "Failed to delete folder. Please try again." p,
             [deleteBookmarkFolder folderId])
        end
  end.

(** *** handleCreateFolder, against the store *)

Definition double_quote : string := String (Ascii.ascii_of_nat 34) EmptyString.

(** The template literal of the success message, the folder name between
    double quotes. *)
Definition created_message (folder_name : string) : string :=
  ("Folder " ++ double_quote ++ folder_name ++ double_quote ++ " created successfully.")%string.

(** The row the insert builds from the client's object; the store supplies
    the id ([DEFAULT uuid_generate_v4()]). *)
Definition new_folder_row (fresh : UUID) (user_id : UUID) (folder_name : string)
    (order : Z) : Schema.bookmark_folder :=
  Schema.mkBookmarkFolder fresh user_id folder_name false order.

Definition handleCreateFolder (fresh : UUID) (folder_name : string) (p : Page)
    (db : Schema.folder_db) : Page * list call * Schema.folder_db :=
  match user p with
  | None => (p, [], db)
  | Some uid =>
      if (folders_remaining (bookmarkStats p) <=? 0)%Z
      then (setError "You have reached the maximum number of folders (100)." p, [], db)
      else
        let order := Z.of_nat (length (folders p)) in
        let c := createBookmarkFolder uid folder_name order in
        match Schema.insert_bookmark_folder db (new_folder_row fresh uid folder_name order) with
        | Schema.Raised _ =>
            (setError "Failed to create folder. Please try again." p, [c], db)
        | Schema.Done db' =>
            let folder := mkFolder (Some fresh) folder_name false order in
            let stats := bookmarkStats p in
            let p1 :=
              setActiveFolder (Some fresh)
                (setSuccess (created_message folder_name)
                   (setBookmarkStats
                      (mkStats (total_folders stats + 1) (total_bookmarks stats)
                               (folders_remaining stats - 1))
                      (setFolders (folders p ++ [folder]) p))) in
            (p1, [c; fetchBookmarksForFolder (Some fresh); routerPush (Some fresh)], db')
        end
  end.

End Bookmarks.

(* ===================================================================== *)
(** ** The comic-upload wizard ([ComicUploadPage]) *)
(* ===================================================================== *)

Module Upload.
Import JSArray.

Definition UUID := Schema.UUID.

(** *** Text typed by the user: UTF-16 code units *)

Definition jsstring := list N.

(** WhiteSpace and LineTerminator of ECMAScript, the code units that
    [String.prototype.trim] strips. *)
Definition is_trimmed_unit (c : N) : bool :=
  existsb (N.eqb c)
    [9; 10; 11; 12; 13; 32; 160; 5760; 8232; 8233; 8239; 8287; 12288; 65279]%N
  || ((8192 <=? c) && (c <=? 8202))%N.

Fixpoint trimStart (s : jsstring) : jsstring :=
  match s with
  | c :: rest => if is_trimmed_unit c then trimStart rest else s
  | [] => []
  end.

Definition trimEnd (s : jsstring) : jsstring := rev (trimStart (rev s)).

Definition trim (s : jsstring) : jsstring := trimEnd (trimStart s).

(** Truthiness of a string: the empty string is the only falsy one. *)
Definition truthy (s : jsstring) : bool :=
  match s with
  | [] => false
  | _ :: _ => true
  end.

(** *** Files and previews *)

Record File := mkFile {
  name : string;
  type : string;      (* MIME type *)
  size : N;           (* bytes *)
  content : N }.      (* stands for the bytes *)

(** What [FileReader.readAsDataURL] hands to [onloadend] for a file that
    reads without error: the MIME type and the encoded bytes. *)
Inductive DataURL := dataURL (mime : string) (payload : N).

Definition readAsDataURL (file : File) : DataURL := dataURL (type file) (content file).

Definition is_image (file : File) : bool := String.prefix "image/" (type file).

(** A [.then] continuation of [Promise.all(newPreviews)] that has not run
    yet: the [pagePreviewUrls] of the render in which the files were
    selected, which the continuation closed over, and the previews it will
    append. *)
Record PendingPreviews := mkPending {
  captured : list (option DataURL);
  loaded : list DataURL }.

(** *** Component state *)

(** The React state and refs of the component.  Array cells are [option]:
    [None] is an [undefined] cell.  [pending] and [reading] are not React
    state: [pending] is the list of preview continuations still waiting in
    the event loop, [reading] the cover files whose [FileReader] has not
    called [onloadend] yet. *)
Record Wizard := mkWizard {
  user : option UUID;
  comicId : UUID;
  currentStep : Z;
  isSubmitting : bool;
  error : option string;
  success : option string;
  coverImage : option File;
  comicPages : list (option File);
  pagePreviewUrls : list (option DataURL);
  title : jsstring;
  artist : jsstring;
  dragItem : option nat;
  dragOverItem : option nat;
  pending : list PendingPreviews;
  coverPreview : option DataURL;
  reading : list File }.

Definition initial (u : option UUID) (cid : UUID) : Wizard :=
  mkWizard u cid 1 false None None None [] [] [] [] None None [] None [].

Definition setError (e : option string) (w : Wizard) : Wizard :=
  mkWizard (user w) (comicId w) (currentStep w) (isSubmitting w) e (success w)
           (coverImage w) (comicPages w) (pagePreviewUrls w) (title w) (artist w)
           (dragItem w) (dragOverItem w) (pending w) (coverPreview w) (reading w).

Definition setSuccess (s : option string) (w : Wizard) : Wizard :=
  mkWizard (user w) (comicId w) (currentStep w) (isSubmitting w) (error w) s
           (coverImage w) (comicPages w) (pagePreviewUrls w) (title w) (artist w)
           (dragItem w) (dragOverItem w) (pending w) (coverPreview w) (reading w).

Definition setCurrentStep (n : Z) (w : Wizard) : Wizard :=
  mkWizard (user w) (comicId w) n (isSubmitting w) (error w) (success w)
           (coverImage w) (comicPages w) (pagePreviewUrls w) (title w) (artist w)
           (dragItem w) (dragOverItem w) (pending w) (coverPreview w) (reading w).

Definition setIsSubmitting (b : bool) (w : Wizard) : Wizard :=
  mkWizard (user w) (comicId w) (currentStep w) b (error w) (success w)
           (coverImage w) (comicPages w) (pagePreviewUrls w) (title w) (artist w)
           (dragItem w) (dragOverItem w) (pending w) (coverPreview w) (reading w).

Definition setCoverImage (f : option File) (w : Wizard) : Wizard :=
  mkWizard (user w) (comicId w) (currentStep w) (isSubmitting w) (error w) (success w)
           f (comicPages w) (pagePreviewUrls w) (title w) (artist w)
           (dragItem w) (dragOverItem w) (pending w) (coverPreview w) (reading w).

Definition setComicPages (ps : list (option File)) (w : Wizard) : Wizard :=
  mkWizard (user w) (comicId w) (currentStep w) (isSubmitting w) (error w) (success w)
           (coverImage w) ps (pagePreviewUrls w) (title w) (artist w)
           (dragItem w) (dragOverItem w) (pending w) (coverPreview w) (reading w).

Definition setPagePreviewUrls (us : list (option DataURL)) (w : Wizard) : Wizard :=
  mkWizard (user w) (comicId w) (currentStep w) (isSubmitting w) (error w) (success w)
           (coverImage w) (comicPages w) us (title w) (artist w)
           (dragItem w) (dragOverItem w) (pending w) (coverPreview w) (reading w).

Definition setTitle (s : jsstring) (w : Wizard) : Wizard :=
  mkWizard (user w) (comicId w) (currentStep w) (isSubmitting w) (error w) (success w)
           (coverImage w) (comicPages w) (pagePreviewUrls w) s (artist w)
           (dragItem w) (dragOverItem w) (pending w) (coverPreview w) (reading w).

Definition setArtist (s : jsstring) (w : Wizard) : Wizard :=
  mkWizard (user w) (comicId w) (currentStep w) (isSubmitting w) (error w) (success w)
           (coverImage w) (comicPages w) (pagePreviewUrls w) (title w) s
           (dragItem w) (dragOverItem w) (pending w) (coverPreview w) (reading w).

Definition set_drag_refs (from to : option nat) (w : Wizard) : Wizard :=
  mkWizard (user w) (comicId w) (currentStep w) (isSubmitting w) (error w) (success w)
           (coverImage w) (comicPages w) (pagePreviewUrls w) (title w) (artist w)
           from to (pending w) (coverPreview w) (reading w).

Definition set_pending (ps : list PendingPreviews) (w : Wizard) : Wizard :=
  mkWizard (user w) (comicId w) (currentStep w) (isSubmitting w) (error w) (success w)
           (coverImage w) (comicPages w) (pagePreviewUrls w) (title w) (artist w)
           (dragItem w) (dragOverItem w) ps (coverPreview w) (reading w).

Definition setCoverPreview (u : option DataURL) (w : Wizard) : Wizard :=
  mkWizard (user w) (comicId w) (currentStep w) (isSubmitting w) (error w) (success w)
           (coverImage w) (comicPages w) (pagePreviewUrls w) (title w) (artist w)
           (dragItem w) (dragOverItem w) (pending w) u (reading w).

Definition set_reading (fs : list File) (w : Wizard) : Wizard :=
  mkWizard (user w) (comicId w) (currentStep w) (isSubmitting w) (error w) (success w)
           (coverImage w) (comicPages w) (pagePreviewUrls w) (title w) (artist w)
           (dragItem w) (dragOverItem w) (pending w) (coverPreview w) fs.

Definition decimal (n : nat) : string :=
  DecimalString.NilEmpty.string_of_uint (Nat.to_uint n).

(** *** handleCoverUpload ([e.target.files?.[0]] may be absent) *)

(** The synchronous part of the handler.  The file goes to [coverImage] at
    once; its preview is set when the [FileReader] started here calls
    [onloadend], see [coverLoaded]. *)
Definition handleCoverUpload (file : option File) (w : Wizard) : Wizard :=
  match file with
  | None => w
  | Some f =>
      if negb (is_image f)
      then setError (Some "Please upload an image file for the cover"%string) w
      else if (2 * 1024 * 1024 <? size f)%N
      then setError (Some "Cover image must be less than 2MB"%string) w
      else setError None (set_reading (reading w ++ [f]) (setCoverImage (Some f) w))
  end.

(** [reader.onloadend = () => setCoverPreview(reader.result)] of the [k]-th
    reader still at work; [reader.result] is null when the read has failed
    ([read_ok = false]). *)
Definition coverLoaded (k : nat) (read_ok : bool) (w : Wizard) : Wizard :=
  match nth_error (reading w) k with
  | None => w
  | Some f =>
      set_reading (splice_remove k (reading w))
        (setCoverPreview (if read_ok then Some (readAsDataURL f) else None) w)
  end.

(** The button shown over the cover preview:
    [onClick={() => { setCoverImage(null); setCoverPreview(null); }}]. *)
Definition handleRemoveCover (w : Wizard) : Wizard :=
  setCoverPreview None (setCoverImage None w).

(** *** handlePagesUpload *)

Definition too_many_pages_message (adding existing : nat) : string :=
  ("You can only upload up to 100 pages. You're trying to add " ++ decimal adding
   ++ " more pages to your existing " ++ decimal existing ++ " pages.")%string.

(** The synchronous part of the handler.  The files go to [comicPages] at
    once; the previews are left to a continuation that runs when every
    [FileReader] has finished, see [previewsLoaded]. *)
Definition handlePagesUpload (files : list File) (w : Wizard) : Wizard :=
  match files with
  | [] => w
  | _ :: _ =>
      if 100 <? length (comicPages w) + length files
      then setError (Some (too_many_pages_message (length files) (length (comicPages w)))) w
      else if negb (forallb is_image files)
      then setError (Some "All files must be images"%string) w
      else if existsb (fun file => (5 * 1024 * 1024 <? size file)%N) files
      then setError (Some "All images must be less than 5MB"%string) w
      else
        setError None
          (set_pending (pending w ++ [mkPending (pagePreviewUrls w) (map readAsDataURL files)])
             (setComicPages (comicPages w ++ map Some files) w))
  end.

(** [Promise.all(newPreviews).then(previews =>
      setPagePreviewUrls([...pagePreviewUrls, ...previews]))]
    for the [k]-th waiting continuation: the new value is built from the
    captured array, not from the current one. *)
Definition previewsLoaded (k : nat) (w : Wizard) : Wizard :=
  match nth_error (pending w) k with
  | None => w
  | Some p =>
      set_pending (splice_remove k (pending w))
        (setPagePreviewUrls (captured p ++ map Some (loaded p)) w)
  end.

(** *** Drag and drop, page removal *)

Definition handleDragStart (index : nat) (w : Wizard) : Wizard :=
  set_drag_refs (Some index) (dragOverItem w) w.

Definition handleDragEnter (index : nat) (w : Wizard) : Wizard :=
  set_drag_refs (dragItem w) (Some index) w.

Definition handleDragEnd (w : Wizard) : Wizard :=
  match dragItem w, dragOverItem w with
  | Some from, Some to =>
      let pagesCopy := move None from to (comicPages w) in
      let previewsCopy := move None from to (pagePreviewUrls w) in
      set_drag_refs None None (setPagePreviewUrls previewsCopy (setComicPages pagesCopy w))
  | _, _ => w
  end.

Definition handleRemovePage (index : nat) (w : Wizard) : Wizard :=
  let newPages := splice_remove index (comicPages w) in
  let newPreviews := splice_remove index (pagePreviewUrls w) in
  setPagePreviewUrls newPreviews (setComicPages newPages w).

(** *** Step navigation *)

Definition goToNextStep (w : Wizard) : Wizard :=
  if (currentStep w =? 1)%Z && negb (match coverImage w with Some _ => true | None => false end)
  then setError (Some "Please upload a cover image"%string) w
  else if (currentStep w =? 2)%Z && (length (comicPages w) =? 0)
  then setError (Some "Please upload at least one comic page"%string) w
  else if (currentStep w =? 3)%Z && negb (truthy (trim (title w)))
  then setError (Some "Please enter a title"%string) w
  else if (currentStep w =? 3)%Z && negb (truthy (trim (artist w)))
  then setError (Some "Please enter an artist name"%string) w
  else setError None (setCurrentStep (currentStep w + 1) w).

Definition goToPreviousStep (w : Wizard) : Wizard :=
  setError None (setCurrentStep (currentStep w - 1) w).

(** *** handleSubmit *)

(** Calls to the storage and data-access layers, with the arguments the
    properties below speak about (the record also carries the slug made from
    the title and the clock, the description, the language and the status).
    [deleteUserComic] is the storage layer's clean-up call; it is listed
    because it is the only way an earlier write could be taken back. *)
Inductive effect :=
| uploadComicCover (userId comicId : UUID) (file : File)
| createUserComic (user_id : UUID) (title artist : jsstring)
                  (cover_image_url : string) (page_count : nat)
| uploadComicPage (userId comicId : UUID) (pageNumber : nat) (file : option File)
| addComicPage (comic_id : UUID) (page_number : nat) (image_url : string)
| deleteUserComic (userId comicId : UUID).

(** How an awaited storage upload ends: [{ url, error: null }],
    [{ url: null, error }], or a rejected promise (with the message of the
    thrown value when it is an [Error]). *)
Inductive upload_result :=
| Uploaded (url : string)
| UploadFailed
| UploadThrew (message : option string).

(** How an awaited insert ends: [{ data, error: null }], [{ data: null,
    error }], or a rejected promise. *)
Inductive insert_result :=
| Inserted
| InsertFailed
| InsertThrew (message : option string).

(** The environment of one submission: the outcome of every call, pages by
    page number. *)
Record Env := mkEnv {
  cover_result : upload_result;
  comic_result : insert_result;
  page_result : nat -> upload_result;
  row_result : nat -> insert_result;
  type_error_message : string }.

(** [err instanceof Error ? err.message : 'Failed to upload comic'] *)
Definition message_of (m : option string) : string :=
  match m with
  | Some msg => msg
  | None => "Failed to upload comic"%string
  end.

(** [uploadComicPage] starts with [file.name.split('.')]: on an undefined
    cell that throws a TypeError before anything is sent. *)
Definition page_outcome (env : Env) (pageNumber : nat) (file : option File)
  : upload_result :=
  match file with
  | None => UploadThrew (Some (type_error_message env))
  | Some _ => page_result env pageNumber
  end.

(** Step 3 of the handler, [for (let i = 0; i < comicPages.length; i++)].
    The result: the calls issued, the writes that took hold, and the message
    of the exception that left the loop, if any.  The value of
    [await addComicPage(...)] is dropped, so a failed insert goes unnoticed
    unless the promise rejects. *)
Fixpoint upload_pages (env : Env) (userId cid : UUID) (i : nat)
    (pages : list (option File)) : list effect * list effect * option string :=
  match pages with
  | [] => ([], [], None)
  | file :: rest =>
      let up := uploadComicPage userId cid (i + 1) file in
      match page_outcome env (i + 1) file with
      | UploadFailed => ([up], [], Some ("Failed to upload page " ++ decimal (i + 1))%string)
      | UploadThrew m => ([up], [], Some (message_of m))
      | Uploaded pageUrl =>
          let add := addComicPage cid (i + 1) pageUrl in
          match row_result env (i + 1) with
          | InsertThrew m => ([up; add], [up], Some (message_of m))
          | InsertFailed =>
              let '(issued, held, thrown) := upload_pages env userId cid (S i) rest in
              (up :: add :: issued, up :: held, thrown)
          | Inserted =>
              let '(issued, held, thrown) := upload_pages env userId cid (S i) rest in
              (up :: add :: issued, up :: add :: held, thrown)
          end
      end
  end.

(** The pairing the loop works through: [comicPages[i]] goes out as page
    number [i + 1]. *)
Definition numbered_pages (pages : list (option File)) : list (nat * option File) :=
  mapi (fun file i => (i + 1, file)) pages.

(** The [try] block: cover, record, pages.  Same three results. *)
Definition submit_effects (env : Env) (userId : UUID) (cover : File) (w : Wizard)
  : list effect * list effect * option string :=
  let c := uploadComicCover userId (comicId w) cover in
  match cover_result env with
  | UploadFailed => ([c], [], Some "Failed to upload cover image"%string)
  | UploadThrew m => ([c], [], Some (message_of m))
  | Uploaded coverUrl =>
      let r := createUserComic userId (title w) (artist w) coverUrl (length (comicPages w)) in
      match comic_result env with
      | InsertFailed => ([c; r], [c], Some "Failed to create comic"%string)
      | InsertThrew m => ([c; r], [c], Some (message_of m))
      | Inserted =>
          let '(issued, held, thrown) :=
            upload_pages env userId (comicId w) 0 (comicPages w) in
          (c :: r :: issued, c :: r :: held, thrown)
      end
  end.

(** [handleSubmit]: the new state, the calls issued in order, and the store
    (the list of writes that took hold) afterwards.  The [catch] block only
    logs and sets the error message.  Step 4 of the handler only logs the
    selected tags, and the redirect after two seconds leaves the component;
    neither is part of the state kept here. *)
Definition handleSubmit (env : Env) (w : Wizard) (store : list effect)
  : Wizard * list effect * list effect :=
  match user w with
  | None => (w, [], store)
  | Some userId =>
      match coverImage w with
      | Some cover =>
          if negb (truthy (trim (title w))) || negb (truthy (trim (artist w)))
             || (length (comicPages w) =? 0)
          then (setError (Some "Please fill in all required fields"%string) w, [], store)
          else
            let w1 := setError None (setIsSubmitting true w) in
            let '(issued, held, thrown) := submit_effects env userId cover w in
            let w2 :=
              match thrown with
              | None => setSuccess (Some "Comic uploaded successfully!"%string) w1
              | Some msg => setError (Some msg) w1
              end in
            (setIsSubmitting false w2, issued, store ++ held)
      | None => (setError (Some "Please fill in all required fields"%string) w, [], store)
      end
  end.

(** *** The wizard as a transition system *)

(** What can happen to the component: the user's actions, a waiting
    preview continuation being run by the event loop, and a [FileReader] of
    the cover coming to its end. *)
Inductive event :=
| SelectCover (file : option File)
| SelectPages (files : list File)
| PreviewsLoaded (k : nat)
| DragStart (index : nat)
| DragEnter (index : nat)
| DragEnd
| RemovePage (index : nat)
| EditTitle (s : jsstring)
| EditArtist (s : jsstring)
| Next
| Previous
| Submit (env : Env)
| CoverLoaded (k : nat) (read_ok : bool)
| RemoveCover.

(** The page tiles are rendered from [pagePreviewUrls], inside a block that
    is shown when [comicPages.length > 0]. *)
Definition tile_shown (index : nat) (w : Wizard) : bool :=
  (currentStep w =? 2)%Z && (0 <? length (comicPages w))
  && (index <? length (pagePreviewUrls w)).

Definition preview_shown (w : Wizard) : bool :=
  match coverPreview w with
  | Some _ => true
  | None => false
  end.

(** Which control is on screen in which state.  On the cover step the file
    input is rendered while there is no cover preview, and the button that
    removes the cover in its place once there is one. *)
Definition enabled (e : event) (w : Wizard) : bool :=
  match e with
  | SelectCover _ => (currentStep w =? 1)%Z && negb (preview_shown w)
  | SelectPages _ => (currentStep w =? 2)%Z
  | PreviewsLoaded k => k <? length (pending w)
  | DragStart index | DragEnter index | RemovePage index => tile_shown index w
  | DragEnd => (currentStep w =? 2)%Z
  | EditTitle _ | EditArtist _ => (currentStep w =? 3)%Z
  | Next => (currentStep w <? 4)%Z
  | Previous => (1 <? currentStep w)%Z && negb (isSubmitting w)
  | Submit _ => negb (currentStep w <? 4)%Z && negb (isSubmitting w)
  | CoverLoaded k _ => k <? length (reading w)
  | RemoveCover => (currentStep w =? 1)%Z && preview_shown w
  end.

Definition fire (e : event) (w : Wizard) : Wizard :=
  match e with
  | SelectCover file => handleCoverUpload file w
  | SelectPages files => handlePagesUpload files w
  | PreviewsLoaded k => previewsLoaded k w
  | DragStart index => handleDragStart index w
  | DragEnter index => handleDragEnter index w
  | DragEnd => handleDragEnd w
  | RemovePage index => handleRemovePage index w
  | EditTitle s => setTitle s w
  | EditArtist s => setArtist s w
  | Next => goToNextStep w
  | Previous => goToPreviousStep w
  | Submit env => fst (fst (handleSubmit env w []))
  | CoverLoaded k read_ok => coverLoaded k read_ok w
  | RemoveCover => handleRemoveCover w
  end.

(** Runs a list of events; [None] when one of them is not on offer. *)
Fixpoint run (events : list event) (w : Wizard) : option Wizard :=
  match events with
  | [] => Some w
  | e :: rest => if enabled e w then run rest (fire e w) else None
  end.

Inductive reachable (u : option UUID) (cid : UUID) : Wizard -> Prop :=
| reach_initial : reachable u cid (initial u cid)
| reach_step w e : reachable u cid w -> enabled e w = true -> reachable u cid (fire e w).

End Upload.

(* ===================================================================== *)
(** ** Notions used to state the properties, and sample data *)
(* ===================================================================== *)

(** The call the persistence loop makes for one folder. *)
Definition update_call (folder : Bookmarks.Folder) : Bookmarks.call :=
  Bookmarks.updateBookmarkFolder (Bookmarks.id folder) (Bookmarks.display_order folder).

(** The store after the first [n] folders of a list had their position
    written. *)
Definition persisted (n : nat) (fs : list Bookmarks.Folder) (db : Schema.folder_db)
  : Schema.folder_db :=
  fold_left
    (fun d folder =>
       Bookmarks.persist_display_order (Bookmarks.id folder)
         (Bookmarks.display_order folder) d)
    (firstn n fs) db.

(** The UPDATE that [reorder_comic_pages] runs for entry [i] of the order. *)
Definition page_statement (comic_uuid page_id : Schema.UUID) (i : nat) : Schema.page_update :=
  Schema.mkPageUpdate page_id comic_uuid (Z.of_nat i + 1).

(** What the primary key and the unique index keep true of [user_comics]. *)
Definition keys_unique (t : list Schema.user_comic) : Prop :=
  NoDup (map Schema.comic_id t) /\ NoDup (map Schema.slug t).

Definition cover_selected (w : Upload.Wizard) : bool :=
  match Upload.coverImage w with
  | Some _ => true
  | None => false
  end.

(** The guard of each forward transition in the words of the specification:
    a cover on the cover step; at least one page and at most 100 on the pages
    step; title and artist non-empty after trimming on the details step. *)
Definition guard_as_specified (w : Upload.Wizard) : bool :=
  if (Upload.currentStep w =? 1)%Z then cover_selected w
  else if (Upload.currentStep w =? 2)%Z
  then (1 <=? length (Upload.comicPages w)) && (length (Upload.comicPages w) <=? 100)
  else if (Upload.currentStep w =? 3)%Z
  then Upload.truthy (Upload.trim (Upload.title w))
       && Upload.truthy (Upload.trim (Upload.artist w))
  else true.

(** The same with the pages step asking for at least one page only. *)
Definition guard_without_bound (w : Upload.Wizard) : bool :=
  if (Upload.currentStep w =? 1)%Z then cover_selected w
  else if (Upload.currentStep w =? 2)%Z
  then 1 <=? length (Upload.comicPages w)
  else if (Upload.currentStep w =? 3)%Z
  then Upload.truthy (Upload.trim (Upload.title w))
       && Upload.truthy (Upload.trim (Upload.artist w))
  else true.

(** The preview that belongs to a cell of [comicPages]. *)
Definition preview_of (cell : option Upload.File) : option Upload.DataURL :=
  option_map Upload.readAsDataURL cell.

(** [pagePreviewUrls] holds, index by index, the previews of [comicPages]. *)
Definition aligned (w : Upload.Wizard) : Prop :=
  Upload.pagePreviewUrls w = map preview_of (Upload.comicPages w).

(** The URL a storage upload hands back; empty when there is none
    ([url || '']). *)
Definition url_of (r : Upload.upload_result) : string :=
  match r with
  | Upload.Uploaded url => url
  | _ => EmptyString
  end.

(** The two calls for the page in cell [n]: upload as page [n + 1], then
    insert the row with that page number. *)
Definition page_calls (env : Upload.Env) (userId cid : Upload.UUID)
    (file : option Upload.File) (n : nat) : list Upload.effect :=
  [Upload.uploadComicPage userId cid (n + 1) file;
   Upload.addComicPage cid (n + 1) (url_of (Upload.page_outcome env (n + 1) file))].

(** The whole sequence of a submission: cover, record, then the pages in
    page-number order. *)
Definition expected_effects (env : Upload.Env) (userId : Upload.UUID) (cover : Upload.File)
    (w : Upload.Wizard) : list Upload.effect :=
  Upload.uploadComicCover userId (Upload.comicId w) cover
  :: Upload.createUserComic userId (Upload.title w) (Upload.artist w)
       (url_of (Upload.cover_result env)) (length (Upload.comicPages w))
  :: concat (JSArray.mapi (page_calls env userId (Upload.comicId w)) (Upload.comicPages w)).

(** Whether a call, once issued, has written to the store. *)
Definition took_hold (env : Upload.Env) (e : Upload.effect) : bool :=
  match e with
  | Upload.uploadComicCover _ _ _ =>
      match Upload.cover_result env with Upload.Uploaded _ => true | _ => false end
  | Upload.createUserComic _ _ _ _ _ =>
      match Upload.comic_result env with Upload.Inserted => true | _ => false end
  | Upload.uploadComicPage _ _ k file =>
      match Upload.page_outcome env k file with Upload.Uploaded _ => true | _ => false end
  | Upload.addComicPage _ k _ =>
      match Upload.row_result env k with Upload.Inserted => true | _ => false end
  | Upload.deleteUserComic _ _ => false
  end.

(** Whether a call, once issued, ends the submission: a cover or page
    upload that does not return a URL, a record insert that does not succeed,
    and a page-row insert whose promise rejects (an error it returns is not
    looked at). *)
Definition stops (env : Upload.Env) (e : Upload.effect) : bool :=
  match e with
  | Upload.uploadComicCover _ _ _ =>
      match Upload.cover_result env with Upload.Uploaded _ => false | _ => true end
  | Upload.createUserComic _ _ _ _ _ =>
      match Upload.comic_result env with Upload.Inserted => false | _ => true end
  | Upload.uploadComicPage _ _ k file =>
      match Upload.page_outcome env k file with Upload.Uploaded _ => false | _ => true end
  | Upload.addComicPage _ k _ =>
      match Upload.row_result env k with Upload.InsertThrew _ => true | _ => false end
  | Upload.deleteUserComic _ _ => false
  end.

(** A sequence of calls up to and including the first that ends the
    submission; the whole sequence when none does. *)
Fixpoint through_first_stop (env : Upload.Env) (calls : list Upload.effect)
  : list Upload.effect :=
  match calls with
  | [] => []
  | e :: rest => if stops env e then [e] else e :: through_first_stop env rest
  end.

(** What the final validation of a submission asks of the form, beyond the
    cover. *)
Definition submission_valid (w : Upload.Wizard) : bool :=
  Upload.truthy (Upload.trim (Upload.title w))
  && Upload.truthy (Upload.trim (Upload.artist w))
  && negb (length (Upload.comicPages w) =? 0).

Module Samples.

Definition reader : Schema.UUID := 7%N.

(** Three folders in display order; the first is a default folder. *)
Definition favorites := Bookmarks.mkFolder (Some 1%N) "Favorites" true 0.
Definition read_later := Bookmarks.mkFolder (Some 2%N) "Read later" false 1.
Definition finished := Bookmarks.mkFolder (Some 3%N) "Finished" false 2.

(** The page in the middle of a drag from tile [from] over tile [to]. *)
Definition dragging (from to : nat) : Bookmarks.Page :=
  Bookmarks.mkPage (Some reader) [favorites; read_later; finished] (Some 1%N)
    (Bookmarks.mkStats 3 0 97) None None (Some from) (Some to).

Definition folder_rows : Schema.folder_db :=
  Schema.mkFolderDb [Schema.mkProfile reader (Some 100%Z)]
    [Schema.mkBookmarkFolder 1%N reader "Favorites" true 0;
     Schema.mkBookmarkFolder 2%N reader "Read later" false 1;
     Schema.mkBookmarkFolder 3%N reader "Finished" false 2].

Definition all_fulfilled : nat -> Bookmarks.outcome := fun _ => Bookmarks.Fulfilled.

(** The second update call (loop index 1) resolves to [{ error }]. *)
Definition second_returns_error : nat -> Bookmarks.outcome :=
  fun k => if k =? 1 then Bookmarks.FulfilledWithError else Bookmarks.Fulfilled.

(** The second update call (loop index 1) rejects. *)
Definition second_rejects : nat -> Bookmarks.outcome :=
  fun k => if k =? 1 then Bookmarks.Rejected else Bookmarks.Fulfilled.

(** A user at the cap: profile with [max_bookmark_folders = 100] and one
    hundred folders named Folder 1 .. Folder 100. *)
Definition numbered_folder (n : nat) : Schema.bookmark_folder :=
  Schema.mkBookmarkFolder (N.of_nat n) reader
    ("Folder " ++ NilEmpty.string_of_uint (Nat.to_uint n))%string false (Z.of_nat n).

Definition at_the_cap : Schema.folder_db :=
  Schema.mkFolderDb [Schema.mkProfile reader (Some 100%Z)]
    (map numbered_folder (seq 1 100)).

Definition one_more : Schema.bookmark_folder := numbered_folder 101.

(** The folder page of that user, loaded when there were 99 folders: the
    statistics still say one folder is left. *)
Definition loaded_at_99 : Bookmarks.Page :=
  Bookmarks.mkPage (Some reader)
    (map (fun n => Bookmarks.folder_of_row (numbered_folder n)) (seq 1 99))
    (Some 1%N) (Bookmarks.mkStats 99 0 1) None None None None.

(** Two pages of one comic, and a table holding them. *)
Definition two_pages : list Schema.comic_page :=
  [Schema.mkComicPage 11%N 5%N 1 "a.jpg"; Schema.mkComicPage 12%N 5%N 2 "b.jpg"].

Definition first_comic : Schema.user_comic :=
  Schema.mkUserComic 5%N reader "Night Owl" "night-owl-123456" "Ana" "c.jpg"
    "published" "English" 2.

(** Another row with the same slug. *)
Definition same_slug : Schema.user_comic :=
  Schema.mkUserComic 6%N reader "Night Owl!" "night-owl-123456" "Ben" "d.jpg"
    "published" "English" 1.

(** A cover, page files, and the wizard on the pages step in the middle of
    a drag from tile [from] over tile [to], all previews loaded. *)
Definition cover : Upload.File := Upload.mkFile "cover.png" "image/png" 1000 1.

Definition page_file (n : nat) : Upload.File :=
  Upload.mkFile ("page" ++ NilEmpty.string_of_uint (Nat.to_uint n) ++ ".png")%string
    "image/png" 2000 (N.of_nat (S n)).

Definition three_files : list Upload.File := map page_file (seq 1 3).

Definition arranging (from to : nat) : Upload.Wizard :=
  Upload.mkWizard (Some reader) 5%N 2 false None None (Some cover)
    (map Some three_files) (map (fun f => Some (Upload.readAsDataURL f)) three_files)
    [] [] (Some from) (Some to) [] (Some (Upload.readAsDataURL cover)) [].

(** The wizard as the page opens. *)
Definition fresh : Upload.Wizard := Upload.initial (Some reader) 5%N.

(** A cover is chosen, the pages step is entered and one page is selected;
    its preview is still being read. *)
Definition preview_outstanding : list Upload.event :=
  [Upload.SelectCover (Some cover); Upload.Next; Upload.SelectPages [page_file 0]].

(** A page is removed while the previews of a selection are still being
    read, which leaves one preview more than there are pages; after one more
    selection the 101st tile is dragged to the front, and the wizard moves on
    to the details step. *)
Definition overflow : list Upload.event :=
  [Upload.SelectCover (Some cover); Upload.Next;
   Upload.SelectPages [page_file 0]; Upload.PreviewsLoaded 0;
   Upload.SelectPages (map page_file (seq 1 99));
   Upload.RemovePage 0;
   Upload.PreviewsLoaded 0;
   Upload.SelectPages [page_file 100]; Upload.PreviewsLoaded 0;
   Upload.DragStart 100; Upload.DragEnter 0; Upload.DragEnd;
   Upload.Next].

(** The same up to the drop, before the wizard moves on: the pages step
    with 101 cells in [comicPages]. *)
Definition crowded : list Upload.event := removelast overflow.

(** The stale previews of a selection bring back the tile of a removed page;
    that tile is dragged to the front and the one page file is removed: the
    pages step with an undefined cell as the only cell of [comicPages]. *)
Definition hollow : list Upload.event :=
  [Upload.SelectCover (Some cover); Upload.Next;
   Upload.SelectPages [page_file 0]; Upload.PreviewsLoaded 0;
   Upload.SelectPages [page_file 1];
   Upload.RemovePage 0;
   Upload.PreviewsLoaded 0;
   Upload.DragStart 1; Upload.DragEnter 0; Upload.DragEnd;
   Upload.RemovePage 1].

(** The review step of a wizard with three pages, title and artist. *)
Definition ready : Upload.Wizard :=
  Upload.mkWizard (Some reader) 5%N 4 false None None (Some cover)
    (map Some three_files) (map (fun f => Some (Upload.readAsDataURL f)) three_files)
    [78; 105; 103; 104; 116]%N [65; 110; 97]%N None None []
    (Some (Upload.readAsDataURL cover)) [].

(** Every call succeeds. *)
Definition all_fine : Upload.Env :=
  Upload.mkEnv (Upload.Uploaded "cover-url") Upload.Inserted
    (fun _ => Upload.Uploaded "page-url") (fun _ => Upload.Inserted)
    "undefined has no properties".

(** The upload of page 2 comes back with an error. *)
Definition second_page_fails : Upload.Env :=
  Upload.mkEnv (Upload.Uploaded "cover-url") Upload.Inserted
    (fun k => if k =? 2 then Upload.UploadFailed else Upload.Uploaded "page-url")
    (fun _ => Upload.Inserted)
    "undefined has no properties".

End Samples.

From Stdlib Require Import Sorted.
From Stdlib Require DecimalNat.

(* ===================================================================== *)
(** ** The rest of the bookmark-folder page *)
(* ===================================================================== *)

(** [arr.sort((a, b) => key(a) - key(b))] on integer keys.
    [Array.prototype.sort] is stable, so its result is the one list that is
    ordered by the key and keeps equal keys in their old order; the stable
    insertion sort computes it. *)
Module JSSort.
Section Sort.
Context {A : Type}.
Variable key : A -> Z.

Fixpoint insert (x : A) (sorted : list A) : list A :=
  match sorted with
  | [] => [x]
  | y :: rest => if (key x <=? key y)%Z then x :: y :: rest else y :: insert x rest
  end.

Definition sort (arr : list A) : list A := fold_right insert [] arr.
End Sort.
End JSSort.

Module BookmarksView.
Import Bookmarks.

(** A comic as the grid shows it, and a bookmark row with its comic. *)
Record Comic := mkComic {
  comic : UUID;
  comic_title : string }.

Record Bookmark := mkBookmark {
  bookmark_order : Z;
  comics : Comic }.

(** The state of the component beyond [Bookmarks.Page]. *)
Record View := mkView {
  page : Page;
  loading : bool;
  folderLoading : bool;
  bookmarkedComics : list Comic;
  showEditFolderModal : bool;
  editingFolder : option Folder }.

Definition with_page (p : Page) (v : View) : View :=
  mkView p (loading v) (folderLoading v) (bookmarkedComics v)
         (showEditFolderModal v) (editingFolder v).

Definition setLoading (b : bool) (v : View) : View :=
  mkView (page v) b (folderLoading v) (bookmarkedComics v)
         (showEditFolderModal v) (editingFolder v).

Definition setFolderLoading (b : bool) (v : View) : View :=
  mkView (page v) (loading v) b (bookmarkedComics v)
         (showEditFolderModal v) (editingFolder v).

Definition setBookmarkedComics (cs : list Comic) (v : View) : View :=
  mkView (page v) (loading v) (folderLoading v) cs
         (showEditFolderModal v) (editingFolder v).

Definition set_edit (shown : bool) (f : option Folder) (v : View) : View :=
  mkView (page v) (loading v) (folderLoading v) (bookmarkedComics v) shown f.

(** How an awaited helper ends: it resolves to an object with a data field
    (possibly null) and an error field (possibly set), or it rejects. *)
Inductive reply (A : Type) :=
| Resolved (data : option A) (error : bool)
| Thrown.
Arguments Resolved {A} data error.
Arguments Thrown {A}.

(** *** fetchBookmarkData *)

(** The folders are sorted by [display_order] before they are stored; the
    [error] fields of both replies are not looked at. *)
Definition fetchBookmarkData (folders_reply : reply (list Folder))
    (stats_reply : reply BookmarkStats) (v : View) : View :=
  match user (page v) with
  | None => v
  | Some _ =>
      let v1 := setLoading true v in
      match folders_reply with
      | Thrown =>
          setLoading false
            (with_page (setError "Failed to load bookmarks. Please try again." (page v1)) v1)
      | Resolved folderData _ =>
          let v2 :=
            match folderData with
            | Some fs => with_page (setFolders (JSSort.sort display_order fs) (page v1)) v1
            | None => v1
            end in
          match stats_reply with
          | Thrown =>
              setLoading false
                (with_page (setError "Failed to load bookmarks. Please try again." (page v2)) v2)
          | Resolved stats _ =>
              setLoading false
                match stats with
                | Some s => with_page (setBookmarkStats s (page v2)) v2
                | None => v2
                end
          end
      end
  end.

(** *** fetchBookmarksForFolder *)

Definition fetchBookmarksForFolder (bookmarks_reply : reply (list Bookmark)) (v : View)
  : View :=
  match user (page v) with
  | None => v
  | Some _ =>
      let v1 := setFolderLoading true v in
      match bookmarks_reply with
      | Thrown => setFolderLoading false v1
      | Resolved (Some bookmarks) _ =>
          setFolderLoading false
            (setBookmarkedComics (map comics (JSSort.sort bookmark_order bookmarks)) v1)
      | Resolved None _ => setFolderLoading false (setBookmarkedComics [] v1)
      end
  end.

(** *** The effect on [folders, folderId] that picks the active folder *)

(** [folderId] is the query parameter ([None] when absent or empty).  The
    result is the state and the calls made ([fetchBookmarksForFolder] is only
    recorded here). *)
Definition selectFolder (folderId : option UUID) (p : Page) : Page * list call :=
  match folderId, folders p with
  | Some wanted, first :: _ =>
      if existsb (id_is wanted) (folders p)
      then (setActiveFolder (Some wanted) p, [Bookmarks.fetchBookmarksForFolder (Some wanted)])
      else (setActiveFolder (id first) p,
            [Bookmarks.fetchBookmarksForFolder (id first); routerPush (id first)])
  | _, first :: _ =>
      match activeFolder p with
      | None =>
          (setActiveFolder (id first) p,
           [Bookmarks.fetchBookmarksForFolder (id first); routerPush (id first)])
      | Some _ => (p, [])
      end
  | _, [] => (p, [])
  end.

(** *** handleEditFolder, handleUpdateFolder *)

Definition handleEditFolder (folder : Folder) (v : View) : View :=
  set_edit true (Some folder) v.

Definition same_folder_id (a b : Folder) : bool :=
  match id a, id b with
  | Some x, Some y => N.eqb x y
  | None, None => true
  | _, _ => false
  end.

Definition updated_message (folder_name : string) : string :=
  ("Folder " ++ double_quote ++ folder_name ++ double_quote ++ " updated successfully.")%string.

(** [result] is how [updateBookmarkFolder(editingFolder.id, { name, color,
    icon })] ends; its data is the folder as stored.  The [finally] block
    closes the dialogue in every case in which the handler got past its first
    line. *)
Definition handleUpdateFolder (result : reply Folder) (folder_name : string) (v : View)
  : View :=
  match user (page v), editingFolder v with
  | Some _, Some _ =>
      let v1 :=
        match result with
        | Resolved _ true | Thrown =>
            with_page (setError "Failed to update folder. Please try again." (page v)) v
        | Resolved (Some folder) false =>
            with_page
              (setSuccess (updated_message folder_name)
                 (setFolders
                    (map (fun f => if same_folder_id f folder then folder else f)
                         (folders (page v)))
                    (page v)))
              v
        | Resolved None false => v
        end in
      set_edit false None v1
  | _, _ => v
  end.

End BookmarksView.

(* ===================================================================== *)
(** ** The folder dialogue ([FolderModal]) *)
(* ===================================================================== *)

Module FolderModal.

Record Form := mkForm {
  folderName : Upload.jsstring;
  folderColor : string;
  folderIcon : string;
  error : option string }.

Record FolderData := mkFolderData {
  name : Upload.jsstring;
  color : string;
  icon : string }.

(** The form after a submit, what was handed to [onSubmit] (if anything),
    and whether [onClose] was called. *)
Definition handleSubmit (f : Form) : Form * option FolderData * bool :=
  if negb (Upload.truthy (Upload.trim (folderName f)))
  then (mkForm (folderName f) (folderColor f) (folderIcon f)
               (Some "Folder name is required"%string),
        None, false)
  else (mkForm [] "#3498db" "folder" None,
        Some (mkFolderData (folderName f) (folderColor f) (folderIcon f)),
        true).

End FolderModal.

(* ===================================================================== *)
(** ** Tags of the upload wizard *)
(* ===================================================================== *)

Module Tags.

(** [handleTagToggle], on the [selectedTags] state it reads and writes. *)
Definition handleTagToggle (tagId : string) (selectedTags : list string) : list string :=
  if existsb (String.eqb tagId) selectedTags
  then filter (fun id => negb (String.eqb id tagId)) selectedTags
  else selectedTags ++ [tagId].

End Tags.

(* ===================================================================== *)
(** ** Storage helpers and statistics of [extended-schema.md] *)
(* ===================================================================== *)

Module Storage.

Definition UUID := Schema.UUID.

Definition dot : Ascii.ascii := Ascii.ascii_of_nat 46.
Definition zero_digit : Ascii.ascii := Ascii.ascii_of_nat 48.

(** [s.split('.')]: the pieces between the dots; a string without a dot is
    its only piece. *)
Fixpoint split_dots (s : string) : list string :=
  match s with
  | EmptyString => [EmptyString]
  | String c rest =>
      if Ascii.eqb c dot
      then EmptyString :: split_dots rest
      else
        match split_dots rest with
        | piece :: pieces => String c piece :: pieces
        | [] => [String c EmptyString]
        end
  end.

(** [file.name.split('.').pop()] *)
Definition fileExt (file : Upload.File) : string :=
  last (split_dots (Upload.name file)) EmptyString.

Fixpoint zeros (n : nat) : string :=
  match n with
  | 0 => EmptyString
  | S m => String zero_digit (zeros m)
  end.

(** [s.padStart(3, '0')] *)
Definition padStart3 (s : string) : string :=
  (zeros (3 - String.length s) ++ s)%string.

Section Paths.
(** The text of an identifier, as it appears in a path. *)
Variable text : UUID -> string.

(** [filePath] of [uploadComicCover]. *)
Definition cover_path (userId comicId : UUID) (file : Upload.File) : string :=
  ("user-comics/" ++ text userId ++ "/covers/" ++ text comicId ++ "." ++ fileExt file)%string.

(** [filePath] of [uploadComicPage]. *)
Definition page_path (userId comicId : UUID) (pageNumber : nat) (file : Upload.File)
  : string :=
  ("user-comics/" ++ text userId ++ "/pages/" ++ text comicId ++ "/"
   ++ padStart3 (Upload.decimal pageNumber) ++ "." ++ fileExt file)%string.

(** The bucket: the objects by path. *)
Definition bucket := list (string * Upload.File).

(** [upload(filePath, file, { upsert: true })] that succeeds: the object at
    that path is the file, whatever was there before. *)
Definition upload (path : string) (file : Upload.File) (b : bucket) : bucket :=
  (path, file) :: filter (fun o => negb (String.eqb (fst o) path)) b.

(** [remove(paths)] *)
Definition remove (paths : list string) (b : bucket) : bucket :=
  filter (fun o => negb (existsb (String.eqb (fst o)) paths)) b.

(** The path [deleteUserComic] removes as the cover. *)
Definition deleted_cover_path (userId comicId : UUID) : string :=
  ("user-comics/" ++ text userId ++ "/covers/" ++ text comicId ++ ".jpg")%string.

Definition pages_folder (userId comicId : UUID) : string :=
  ("user-comics/" ++ text userId ++ "/pages/" ++ text comicId)%string.

(** [deleteUserComic], when each of its calls succeeds.  [listing] is the
    [data] that [list(pages folder)] resolves to: the names found, or null.
    The delete of the comic row takes the rows of [comic_pages] with it
    ([ON DELETE CASCADE]). *)
Definition deleteUserComic (userId comicId : UUID) (listing : option (list string))
    (b : bucket) (comics : list Schema.user_comic) (pages : list Schema.comic_page)
  : bucket * list Schema.user_comic * list Schema.comic_page :=
  let b1 := remove [deleted_cover_path userId comicId] b in
  let b2 :=
    match listing with
    | Some (name :: names) =>
        remove (map (fun n => (pages_folder userId comicId ++ "/" ++ n)%string)
                    (name :: names)) b1
    | _ => b1
    end in
  (b2,
   Schema.delete_user_comic comics comicId,
   filter (fun r => negb (N.eqb (Schema.page_comic_id r) comicId)) pages).
End Paths.

End Storage.

Module Stats.

Definition UUID := Schema.UUID.

(** A row of [bookmarks], with the columns the statistics read. *)
Record bookmark := mkBookmark {
  bookmark_id : UUID;
  bookmark_comic_id : UUID }.

(** [FROM user_comics uc LEFT JOIN bookmarks b ON uc.id = b.comic_id
     WHERE uc.user_id = user_uuid]: a comic without bookmark gives one row
    with a null bookmark, a comic with bookmarks one row for each. *)
Definition joined (comics : list Schema.user_comic) (bookmarks : list bookmark)
    (user_uuid : UUID) : list (Schema.user_comic * option bookmark) :=
  flat_map
    (fun uc =>
       match filter (fun b => N.eqb (bookmark_comic_id b) (Schema.comic_id uc)) bookmarks with
       | [] => [(uc, None)]
       | b :: bs => map (fun x => (uc, Some x)) (b :: bs)
       end)
    (filter (fun uc => N.eqb (Schema.comic_user_id uc) user_uuid) comics).

(** [COUNT(DISTINCT x)] over the non-null values. *)
Definition count_distinct (values : list UUID) : Z :=
  Z.of_nat (length (nodup N.eq_dec values)).

Definition sum (values : list Z) : Z := fold_right Z.add 0%Z values.

Record comic_stats := mkComicStats {
  total_comics : Z;
  total_pages : Z;
  total_views : Z;
  total_bookmarks : Z }.

(** [x::INTEGER]: a value outside the 32-bit range makes the cast raise
    "integer out of range". *)
Definition in_integer_range (z : Z) : bool :=
  (-2147483648 <=? z)%Z && (z <=? 2147483647)%Z.

(** What a call of the function ends with: the one row it returns, or the
    error of a cast. *)
Inductive stats_result :=
| Returned (stats : comic_stats)
| integer_out_of_range.

(** [get_user_comic_stats]; [view_count] is the column of that name, which
    the row record does not carry.  COUNT and SUM give BIGINT values, added
    up here in [Z]; a SUM over no row or over NULLs only is NULL and
    COALESCE makes it 0, which is what the sum of no value is here, and a
    NULL [page_count] or [view_count] adds nothing to a SUM, as the value 0
    does.  Each of the four values is then cast to INTEGER. *)
Definition get_user_comic_stats (view_count : Schema.user_comic -> Z)
    (comics : list Schema.user_comic) (bookmarks : list bookmark) (user_uuid : UUID)
  : stats_result :=
  let rows := joined comics bookmarks user_uuid in
  let n_comics := count_distinct (map (fun row => Schema.comic_id (fst row)) rows) in
  let n_pages := sum (map (fun row => Schema.page_count (fst row)) rows) in
  let n_views := sum (map (fun row => view_count (fst row)) rows) in
  let n_bookmarks :=
    count_distinct
      (flat_map (fun row => match snd row with
                            | Some b => [bookmark_id b]
                            | None => []
                            end) rows) in
  if in_integer_range n_comics && in_integer_range n_pages
     && in_integer_range n_views && in_integer_range n_bookmarks
  then Returned (mkComicStats n_comics n_pages n_views n_bookmarks)
  else integer_out_of_range.

End Stats.

(* ===================================================================== *)
(** ** Further notions used to state properties *)
(* ===================================================================== *)

(** A code unit that [trim] does not strip. *)
Definition visible (c : N) : bool := negb (Upload.is_trimmed_unit c).

(** What [handleCoverUpload] and [handlePagesUpload] let through. *)
Definition acceptable_cover (file : Upload.File) : Prop :=
  Upload.is_image file = true /\ (Upload.size file <= 2 * 1024 * 1024)%N.

Definition acceptable_page (cell : option Upload.File) : Prop :=
  forall file, cell = Some file ->
               Upload.is_image file = true /\ (Upload.size file <= 5 * 1024 * 1024)%N.

Definition files_acceptable (w : Upload.Wizard) : Prop :=
  (forall file, Upload.coverImage w = Some file -> acceptable_cover file)
  /\ Forall acceptable_page (Upload.comicPages w).

(** What each step of the wizard has behind it. *)
Definition step_prerequisites (w : Upload.Wizard) : Prop :=
  (1 <= Upload.currentStep w <= 4)%Z
  /\ ((2 <= Upload.currentStep w)%Z -> cover_selected w = true)
  /\ ((3 <= Upload.currentStep w)%Z -> Upload.comicPages w <> [])
  /\ ((4 <= Upload.currentStep w)%Z ->
      Upload.truthy (Upload.trim (Upload.title w)) = true
      /\ Upload.truthy (Upload.trim (Upload.artist w)) = true).

(** The folders carry the positions 0, 1, 2, ... in list order. *)
Definition positions_in_order (fs : list Bookmarks.Folder) : Prop :=
  map Bookmarks.display_order fs = map Z.of_nat (seq 0 (length fs)).

(** A decimal digit, and a text made of digits. *)
Definition is_digit (c : Ascii.ascii) : bool :=
  (48 <=? Ascii.nat_of_ascii c) && (Ascii.nat_of_ascii c <=? 57).

Fixpoint all_digits (s : string) : bool :=
  match s with
  | EmptyString => true
  | String c rest => is_digit c && all_digits rest
  end.

(** The number a text of digits stands for. *)
Definition read_number (s : string) : option nat :=
  option_map Nat.of_uint (NilEmpty.uint_of_string s).

(** How many bookmarks point at a comic. *)
Definition bookmarks_on (bookmarks : list Stats.bookmark) (uc : Schema.user_comic) : Z :=
  Z.of_nat (length (filter (fun b => N.eqb (Stats.bookmark_comic_id b) (Schema.comic_id uc))
                      bookmarks)).

(** The comics of one user, as the statistics select them. *)
Definition comics_of (comics : list Schema.user_comic) (user_uuid : Schema.UUID)
  : list Schema.user_comic :=
  filter (fun uc => N.eqb (Schema.comic_user_id uc) user_uuid) comics.

(** The bookmarks that point at a comic of one user. *)
Definition bookmarks_of (comics : list Schema.user_comic) (bookmarks : list Stats.bookmark)
    (user_uuid : Schema.UUID) : list Stats.bookmark :=
  filter
    (fun b => existsb (fun uc => N.eqb (Stats.bookmark_comic_id b) (Schema.comic_id uc))
                (comics_of comics user_uuid))
    bookmarks.

(* ===================================================================== *)
(** ** Further sample data *)
(* ===================================================================== *)

Module MoreSamples.

(** The folder page with the edit dialogue open on the second folder. *)
Definition editing : BookmarksView.View :=
  BookmarksView.mkView (Samples.dragging 2 0) false false [] true (Some Samples.read_later).

(** The three folders as a store might return them, not in display order. *)
Definition shuffled : list Bookmarks.Folder :=
  [Samples.finished; Samples.favorites; Samples.read_later].

(** The folder dialogue with two spaces typed as the name. *)
Definition blank_form : FolderModal.Form :=
  FolderModal.mkForm [32; 32]%N "#3498db" "folder" None.

(** From the opening of the wizard to its review step; the cover is
    removed once and chosen again on the way. *)
Definition to_review : list Upload.event :=
  [Upload.SelectCover (Some Samples.cover); Upload.CoverLoaded 0 true; Upload.RemoveCover;
   Upload.SelectCover (Some Samples.cover); Upload.Next;
   Upload.SelectPages [Samples.page_file 0]; Upload.PreviewsLoaded 0; Upload.Next;
   Upload.EditTitle [78; 105; 103; 104; 116]%N; Upload.EditArtist [65; 110; 97]%N;
   Upload.Next].

(** A page is selected, then the wizard goes back to the cover step and
    the cover is removed: the cover step without cover, with a page. *)
Definition cover_removed : list Upload.event :=
  [Upload.SelectCover (Some Samples.cover); Upload.CoverLoaded 0 true; Upload.Next;
   Upload.SelectPages [Samples.page_file 0]; Upload.Previous; Upload.RemoveCover].

(** The folder rows of the sample user without the second folder. *)
Definition rows_after_delete : Schema.folder_db :=
  Schema.mkFolderDb [Schema.mkProfile Samples.reader (Some 100%Z)]
    [Schema.mkBookmarkFolder 1%N Samples.reader "Favorites" true 0;
     Schema.mkBookmarkFolder 3%N Samples.reader "Finished" false 2].

(** Identifiers printed as a fixed text, and a bucket holding one cover. *)
Definition text : Storage.UUID -> string := fun _ => "id"%string.

Definition one_cover : Storage.bucket :=
  [(Storage.cover_path text Samples.reader 5%N Samples.cover, Samples.cover)].

(** Two pages of comic 5 left with the numbers 2 and 3. *)
Definition gapped_pages : list Schema.comic_page :=
  [Schema.mkComicPage 12%N 5%N 2 "b.jpg"; Schema.mkComicPage 13%N 5%N 3 "c.jpg"].

(** The same table after page 13 was asked for first and page 12 second. *)
Definition renumbered_pages : list Schema.comic_page :=
  [Schema.mkComicPage 12%N 5%N 2 "b.jpg"; Schema.mkComicPage 13%N 5%N 1 "c.jpg"].

End MoreSamples.

(* ===================================================================== *)
(** * Properties *)
(* ===================================================================== *)

(** ** Array operations *)

Module JSArrayFacts.
Import JSArray.
Section Facts.
Context {A : Type}.
Implicit Types (arr : list A) (i j : nat).

Lemma splice_remove_length arr i :
  i < length arr -> length (splice_remove i arr) = length arr - 1.
Proof.
  intros Hi. unfold splice_remove.
  rewrite length_app, length_firstn, length_skipn. lia.
Qed.

Lemma splice_remove_out_of_range arr i :
  length arr <= i -> splice_remove i arr = arr.
Proof.
  intros Hi. unfold splice_remove.
  rewrite firstn_all2 by lia. rewrite skipn_all2 by lia. apply app_nil_r.
Qed.

Lemma splice_insert_length arr j (x : A) :
  length (splice_insert j x arr) = S (length arr).
Proof.
  unfold splice_insert.
  rewrite length_app. cbn [length]. rewrite length_firstn, length_skipn. lia.
Qed.

Lemma splice_remove_insert arr j (x : A) :
  j <= length arr -> splice_remove j (splice_insert j x arr) = arr.
Proof.
  intros Hj. unfold splice_remove, splice_insert.
  assert (Hlen : length (firstn j arr) = j) by (rewrite length_firstn; lia).
  rewrite firstn_app, Hlen, Nat.sub_diag. cbn [firstn]. rewrite app_nil_r.
  rewrite firstn_all2 by lia.
  replace (S j) with (length (firstn j arr) + 1) by lia.
  rewrite skipn_app, Hlen.
  rewrite (skipn_all2 (firstn j arr)) by lia.
  replace (j + 1 - j) with 1 by lia. cbn [skipn app].
  apply firstn_skipn.
Qed.

Lemma splice_insert_nth_error arr j (x : A) :
  j <= length arr -> nth_error (splice_insert j x arr) j = Some x.
Proof.
  intros Hj. unfold splice_insert.
  assert (Hlen : length (firstn j arr) = j) by (rewrite length_firstn; lia).
  rewrite nth_error_app2 by lia. rewrite Hlen, Nat.sub_diag. reflexivity.
Qed.

Lemma skipn_cons_nth undefined arr i :
  i < length arr -> skipn i arr = nth i arr undefined :: skipn (S i) arr.
Proof.
  revert i. induction arr as [|a arr IH]; intros [|i] Hi; cbn in *; try lia.
  - reflexivity.
  - apply IH. lia.
Qed.

Lemma splice_remove_perm undefined arr i :
  i < length arr ->
  Permutation (get undefined arr i :: splice_remove i arr) arr.
Proof.
  intros Hi. unfold splice_remove, get.
  apply Permutation_trans with (firstn i arr ++ nth i arr undefined :: skipn (S i) arr).
  - apply Permutation_middle.
  - rewrite <- (skipn_cons_nth undefined) by assumption.
    now rewrite firstn_skipn.
Qed.

Lemma splice_insert_perm arr j (x : A) :
  Permutation (splice_insert j x arr) (x :: arr).
Proof.
  unfold splice_insert. symmetry.
  apply Permutation_trans with (x :: firstn j arr ++ skipn j arr).
  - now rewrite firstn_skipn.
  - apply Permutation_middle.
Qed.

Lemma move_length undefined arr i j :
  i < length arr -> length (move undefined i j arr) = length arr.
Proof.
  intros Hi. unfold move.
  rewrite splice_insert_length, splice_remove_length by assumption. lia.
Qed.

Lemma move_perm undefined arr i j :
  i < length arr -> Permutation (move undefined i j arr) arr.
Proof.
  intros Hi. unfold move.
  etransitivity; [apply splice_insert_perm|].
  now apply splice_remove_perm.
Qed.

Lemma mapi_from_length {B} (f : A -> nat -> B) arr k :
  length (mapi_from f k arr) = length arr.
Proof. revert k. induction arr; intros k; cbn; [reflexivity | now rewrite IHarr]. Qed.

Lemma mapi_from_map {B C} (f : A -> nat -> B) (g : B -> C) arr k :
  map g (mapi_from f k arr) = mapi_from (fun x n => g (f x n)) k arr.
Proof. revert k. induction arr; intros k; cbn; [reflexivity | now rewrite IHarr]. Qed.

Lemma mapi_from_index {B} (h : nat -> B) arr k :
  mapi_from (fun _ n => h n) k arr = map h (seq k (length arr)).
Proof. revert k. induction arr; intros k; cbn; [reflexivity | now rewrite IHarr]. Qed.

Lemma mapi_from_elem {B} (f : A -> B) arr k :
  mapi_from (fun x _ => f x) k arr = map f arr.
Proof. revert k. induction arr; intros k; cbn; [reflexivity | now rewrite IHarr]. Qed.

Lemma move_nth_error undefined arr i j :
  i < length arr -> j < length arr ->
  nth_error (move undefined i j arr) j = nth_error arr i.
Proof.
  intros Hi Hj. unfold move.
  rewrite splice_insert_nth_error.
  - unfold get. symmetry. now apply nth_error_nth'.
  - rewrite splice_remove_length by assumption. lia.
Qed.

Lemma move_others undefined arr i j :
  i < length arr -> j < length arr ->
  splice_remove j (move undefined i j arr) = splice_remove i arr.
Proof.
  intros Hi Hj. unfold move. apply splice_remove_insert.
  rewrite splice_remove_length by assumption. lia.
Qed.

Lemma splice_remove_map {B} (f : A -> B) arr i :
  map f (splice_remove i arr) = splice_remove i (map f arr).
Proof.
  unfold splice_remove. now rewrite map_app, firstn_map, skipn_map.
Qed.

Lemma splice_insert_map {B} (f : A -> B) arr j (x : A) :
  map f (splice_insert j x arr) = splice_insert j (f x) (map f arr).
Proof.
  unfold splice_insert. rewrite map_app. cbn [map].
  now rewrite firstn_map, skipn_map.
Qed.

Lemma move_map {B} (f : A -> B) undefined arr i j :
  map f (move undefined i j arr) = move (f undefined) i j (map f arr).
Proof.
  unfold move, get.
  now rewrite splice_insert_map, splice_remove_map, map_nth.
Qed.

Lemma mapi_positions {B} (f : A -> nat -> B) (pos : B -> nat) arr :
  (forall x n, pos (f x n) = n) ->
  map pos (mapi f arr) = seq 0 (length arr).
Proof.
  intros Hpos. unfold mapi. rewrite mapi_from_map.
  rewrite <- (map_id (seq 0 (length arr))).
  rewrite <- (mapi_from_index (fun n => n) arr 0).
  generalize 0. induction arr as [|a arr IH]; intros k; cbn; [reflexivity|].
  now rewrite Hpos, IH.
Qed.

Lemma mapi_items {B C} (f : A -> nat -> B) (item : B -> C) (item0 : A -> C) arr :
  (forall x n, item (f x n) = item0 x) ->
  map item (mapi f arr) = map item0 arr.
Proof.
  intros Hitem. unfold mapi. rewrite mapi_from_map.
  generalize 0. induction arr as [|a arr IH]; intros k; cbn; [reflexivity|].
  now rewrite Hitem, IH.
Qed.
End Facts.
End JSArrayFacts.

(** ** Reordering by drag and drop *)

Section ReorderFolders.
Import JSArray JSArrayFacts.
Variables (env : nat -> Bookmarks.outcome) (p : Bookmarks.Page).
Variables (i j : nat).
Hypothesis from_set : Bookmarks.dragItem p = Some i.
Hypothesis to_set : Bookmarks.dragOverItem p = Some j.

Lemma handleDragEnd_folders :
  Bookmarks.folders (fst (Bookmarks.handleDragEnd env p))
  = Bookmarks.reorder_folders i j (Bookmarks.folders p).
Proof.
  unfold Bookmarks.handleDragEnd. rewrite from_set, to_set.
  destruct (Bookmarks.persist_loop env 0 _) as [calls thrown].
  destruct thrown; reflexivity.
Qed.

Lemma reorder_folders_orders fs :
  map Bookmarks.display_order (Bookmarks.reorder_folders i j fs)
  = map Z.of_nat (seq 0 (length (move Bookmarks.undefined_folder i j fs))).
Proof.
  unfold Bookmarks.reorder_folders, mapi.
  rewrite mapi_from_map. cbn [Bookmarks.with_display_order Bookmarks.display_order].
  apply (mapi_from_index Z.of_nat).
Qed.

Lemma reorder_folders_items fs :
  map Bookmarks.item (Bookmarks.reorder_folders i j fs)
  = move (Bookmarks.item Bookmarks.undefined_folder) i j (map Bookmarks.item fs).
Proof.
  unfold Bookmarks.reorder_folders.
  rewrite (mapi_items _ Bookmarks.item Bookmarks.item) by reflexivity.
  apply move_map.
Qed.
End ReorderFolders.

Section ReorderPages.
Import JSArray JSArrayFacts.

Lemma handleDragEnd_pages w i j :
  Upload.dragItem w = Some i -> Upload.dragOverItem w = Some j ->
  Upload.comicPages (Upload.handleDragEnd w) = move None i j (Upload.comicPages w)
  /\ Upload.pagePreviewUrls (Upload.handleDragEnd w)
     = move None i j (Upload.pagePreviewUrls w).
Proof.
  intros Hi Hj. unfold Upload.handleDragEnd. rewrite Hi, Hj. split; reflexivity.
Qed.

Lemma numbered_pages_numbers pages :
  map fst (Upload.numbered_pages pages) = seq 1 (length pages).
Proof.
  unfold Upload.numbered_pages, mapi. rewrite mapi_from_map. cbn [fst].
  rewrite (mapi_from_index (fun n => n + 1)).
  rewrite <- seq_shift. apply map_ext. intros n. lia.
Qed.

Lemma numbered_from_nth (pages : list (option Upload.File)) base k :
  nth_error (mapi_from (fun file n => (n + 1, file)) base pages) k
  = option_map (fun file => (base + k + 1, file)) (nth_error pages k).
Proof.
  revert k base.
  induction pages as [|a pages IH]; intros [|k] base; cbn [mapi_from nth_error option_map];
    try reflexivity.
  - now rewrite Nat.add_0_r.
  - rewrite IH. now replace (S base + k + 1) with (base + S k + 1) by lia.
Qed.

Lemma numbered_pages_nth pages k :
  nth_error (Upload.numbered_pages pages) k
  = option_map (fun file => (k + 1, file)) (nth_error pages k).
Proof. unfold Upload.numbered_pages, mapi. now rewrite numbered_from_nth. Qed.
End ReorderPages.

(** C1. Moving the item at index [i] to index [j] (both in range; no bound on
    the length is needed) and numbering the result gives: positions
    [0..N-1] for the folders' [display_order], page numbers [1..N] for the
    pages; the same items as before; the moved item at [j] (page number
    [j + 1]); and the other items in their old order. *)
Theorem reorder_assigns_positions :
  forall (env : nat -> Bookmarks.outcome) (p : Bookmarks.Page)
         (w : Upload.Wizard) (i j : nat),
    (Bookmarks.dragItem p = Some i -> Bookmarks.dragOverItem p = Some j ->
     i < length (Bookmarks.folders p) -> j < length (Bookmarks.folders p) ->
     let fs := Bookmarks.folders p in
     let fs' := Bookmarks.folders (fst (Bookmarks.handleDragEnd env p)) in
     map Bookmarks.display_order fs' = map Z.of_nat (seq 0 (length fs))
     /\ Permutation (map Bookmarks.item fs') (map Bookmarks.item fs)
     /\ nth_error (map Bookmarks.item fs') j = nth_error (map Bookmarks.item fs) i
     /\ JSArray.splice_remove j (map Bookmarks.item fs')
        = JSArray.splice_remove i (map Bookmarks.item fs))
    /\
    (Upload.dragItem w = Some i -> Upload.dragOverItem w = Some j ->
     i < length (Upload.comicPages w) -> j < length (Upload.comicPages w) ->
     let ps := Upload.comicPages w in
     let ps' := Upload.comicPages (Upload.handleDragEnd w) in
     map fst (Upload.numbered_pages ps') = seq 1 (length ps)
     /\ Permutation ps' ps
     /\ nth_error (Upload.numbered_pages ps') j
        = option_map (fun file => (j + 1, file)) (nth_error ps i)
     /\ JSArray.splice_remove j ps' = JSArray.splice_remove i ps).
Proof.
  intros env p w i j. split.
  - intros Hfrom Hto Hi Hj fs fs'. subst fs fs'.
    rewrite (handleDragEnd_folders env p i j Hfrom Hto).
    rewrite reorder_folders_orders, reorder_folders_items.
    rewrite JSArrayFacts.move_length by assumption.
    assert (Hi' : i < length (map Bookmarks.item (Bookmarks.folders p)))
      by now rewrite length_map.
    assert (Hj' : j < length (map Bookmarks.item (Bookmarks.folders p)))
      by now rewrite length_map.
    repeat split.
    + now apply JSArrayFacts.move_perm.
    + now apply JSArrayFacts.move_nth_error.
    + now apply JSArrayFacts.move_others.
  - intros Hfrom Hto Hi Hj ps ps'. subst ps ps'.
    destruct (handleDragEnd_pages w i j Hfrom Hto) as [-> _].
    rewrite numbered_pages_numbers, numbered_pages_nth.
    rewrite JSArrayFacts.move_length by assumption.
    repeat split.
    + now apply JSArrayFacts.move_perm.
    + now rewrite JSArrayFacts.move_nth_error.
    + now apply JSArrayFacts.move_others.
Qed.

Lemma reorder_assigns_positions_witness :
  (Bookmarks.dragItem (Samples.dragging 2 0) = Some 2
   /\ Bookmarks.dragOverItem (Samples.dragging 2 0) = Some 0
   /\ 2 < length (Bookmarks.folders (Samples.dragging 2 0)))
  /\ map Bookmarks.display_order
       (Bookmarks.folders
          (fst (Bookmarks.handleDragEnd Samples.all_fulfilled (Samples.dragging 2 0))))
     = [0; 1; 2]%Z
  /\ map fst (Upload.numbered_pages (Upload.comicPages (Upload.handleDragEnd (Samples.arranging 2 0))))
     = [1; 2; 3].
Proof.
  destruct (reorder_assigns_positions Samples.all_fulfilled (Samples.dragging 2 0)
              (Samples.arranging 2 0) 2 0) as [HF HP].
  split; [repeat split; simpl; lia|]. split.
  - exact (proj1 (HF eq_refl eq_refl ltac:(simpl; lia) ltac:(simpl; lia))).
  - exact (proj1 (HP eq_refl eq_refl ltac:(simpl; lia) ltac:(simpl; lia))).
Defined.

(** ** Persisting a folder reorder *)

Section PersistLoop.
Variable env : nat -> Bookmarks.outcome.

(** Without a rejected promise the loop runs to the end, whatever the
    calls resolve to. *)
Lemma persist_loop_runs_through fs :
  forall k,
    (forall n, env n <> Bookmarks.Rejected) ->
    Bookmarks.persist_loop env k fs = (map update_call fs, false).
Proof.
  induction fs as [|folder rest IH]; intros k Hok; cbn [Bookmarks.persist_loop map].
  - reflexivity.
  - rewrite (IH (S k) Hok). fold (update_call folder).
    destruct (env k) eqn:Hk; try reflexivity. now destruct (Hok k).
Qed.

(** When the call of loop index [base + k] is the first that rejects, the
    calls up to and including it are issued and the loop has thrown. *)
Lemma persist_loop_rejected fs :
  forall base k,
    k < length fs ->
    (forall n, n < k -> env (base + n) <> Bookmarks.Rejected) ->
    env (base + k) = Bookmarks.Rejected ->
    Bookmarks.persist_loop env base fs = (map update_call (firstn (S k) fs), true).
Proof.
  induction fs as [|folder rest IH]; intros base k Hk Hbefore Hrej; cbn in Hk; [lia|].
  destruct k as [|k].
  - cbn [Bookmarks.persist_loop]. rewrite Nat.add_0_r in Hrej. rewrite Hrej.
    reflexivity.
  - cbn [Bookmarks.persist_loop].
    assert (H0 : env base <> Bookmarks.Rejected).
    { rewrite <- (Nat.add_0_r base). apply Hbefore. lia. }
    rewrite (IH (S base) k).
    + destruct (env base); try reflexivity. now destruct H0.
    + lia.
    + intros n Hn. replace (S base + n) with (base + S n) by lia. apply Hbefore. lia.
    + now replace (S base + k) with (base + S k) by lia.
Qed.

(** The store after the first [k + 1] update calls, all fulfilled but the
    last, holds the first [k] positions. *)
Lemma store_after_first_failure fs :
  forall base k db,
    k < length fs ->
    (forall n, n < k -> env (base + n) = Bookmarks.Fulfilled) ->
    env (base + k) <> Bookmarks.Fulfilled ->
    Bookmarks.store_after env base (map update_call (firstn (S k) fs)) db
    = persisted k fs db.
Proof.
  induction fs as [|folder rest IH]; intros base k db Hk Hbefore Hfail; cbn in Hk; [lia|].
  destruct k as [|k].
  - cbn. rewrite Nat.add_0_r in Hfail.
    destruct (env base); try reflexivity. now destruct Hfail.
  - cbn [firstn map update_call Bookmarks.store_after].
    assert (H0 : env base = Bookmarks.Fulfilled).
    { rewrite <- (Nat.add_0_r base). apply Hbefore. lia. }
    rewrite H0. fold (update_call).
    unfold persisted. cbn [firstn fold_left].
    apply (IH (S base) k).
    + lia.
    + intros n Hn. replace (S base + n) with (base + S n) by lia. apply Hbefore. lia.
    + now replace (S base + k) with (base + S k) by lia.
Qed.
End PersistLoop.

Section ReorderProcedure.
Import JSArray.
Variable comic_uuid : Schema.UUID.

Lemma reorder_loop_complete page_order :
  forall i t t',
    snd (Schema.reorder_loop comic_uuid i page_order t) = Schema.Done t' ->
    fst (Schema.reorder_loop comic_uuid i page_order t)
    = mapi_from (page_statement comic_uuid) i page_order
    /\ t' = fold_left (fun tbl u => map (Schema.apply_page_update u) tbl)
              (mapi_from (page_statement comic_uuid) i page_order) t.
Proof.
  induction page_order as [|page_id rest IH]; intros i t t' Hdone;
    cbn [Schema.reorder_loop mapi_from fold_left] in *.
  - cbn in Hdone. injection Hdone as <-. split; reflexivity.
  - unfold Schema.update_page_number in *.
    fold (page_statement comic_uuid page_id i) in *.
    destruct (Schema.page_numbers_unique
                (map (Schema.apply_page_update (page_statement comic_uuid page_id i)) t)).
    + specialize (IH (S i) (map (Schema.apply_page_update (page_statement comic_uuid page_id i)) t) t').
      destruct (Schema.reorder_loop comic_uuid (S i) rest _) as [ran r].
      cbn [fst snd] in *. destruct (IH Hdone) as [-> ->]. split; reflexivity.
    + cbn in Hdone. discriminate.
Qed.
End ReorderProcedure.

(** When the update call of loop index [k] is the first whose promise
    rejects, the handler has issued the calls up to index [k] and then a
    refetch, and the error message is set; when the calls before it were all
    fulfilled, the store holds the first [k] positions and nothing else. *)
Lemma reorder_stops_at_rejection :
  forall (env : nat -> Bookmarks.outcome) (p : Bookmarks.Page) (db : Schema.folder_db)
         (i j k : nat),
    Bookmarks.dragItem p = Some i -> Bookmarks.dragOverItem p = Some j ->
    k < length (Bookmarks.reorder_folders i j (Bookmarks.folders p)) ->
    (forall n, n < k -> env n = Bookmarks.Fulfilled) ->
    env k = Bookmarks.Rejected ->
    let updatedFolders := Bookmarks.reorder_folders i j (Bookmarks.folders p) in
    let p' := fst (Bookmarks.handleDragEnd env p) in
    let calls := snd (Bookmarks.handleDragEnd env p) in
    calls = map update_call (firstn (S k) updatedFolders) ++ [Bookmarks.fetchBookmarkData]
    /\ Bookmarks.store_after env 0 calls db = persisted k updatedFolders db
    /\ Bookmarks.error p' = Some "Failed to update folder order. Please try again."%string.
Proof.
  intros env p db i j k Hfrom Hto Hk Hbefore Hrej updatedFolders p' calls.
  subst p' calls. unfold Bookmarks.handleDragEnd. rewrite Hfrom, Hto.
  fold updatedFolders.
  rewrite (persist_loop_rejected env updatedFolders 0 k Hk).
  - cbn [fst snd]. repeat split.
    assert (Hstore : forall cs base d,
               Bookmarks.store_after env base (cs ++ [Bookmarks.fetchBookmarkData]) d
               = Bookmarks.store_after env base cs d).
    { induction cs as [|c cs IH]; intros base d; [reflexivity|].
      cbn [app Bookmarks.store_after].
      destruct c; try apply IH. destruct (env base); apply IH. }
    rewrite Hstore. apply store_after_first_failure; try assumption.
    cbn. rewrite Hrej. discriminate.
  - intros n Hn. cbn. rewrite (Hbefore n Hn). discriminate.
  - exact Hrej.
Qed.

(** C7. Folders Favorites, Read later, Finished; Finished is dragged to the
    front; the update call of loop index 1 resolves to an object with an
    [error].  The loop goes on: the update of loop index 2 is issued as well,
    no error message is set and nothing is refetched. *)
Theorem reorder_goes_on_after_returned_error :
  let p' := fst (Bookmarks.handleDragEnd Samples.second_returns_error (Samples.dragging 2 0)) in
  let calls := snd (Bookmarks.handleDragEnd Samples.second_returns_error (Samples.dragging 2 0)) in
  Samples.second_returns_error 1 = Bookmarks.FulfilledWithError
  /\ calls = [Bookmarks.updateBookmarkFolder (Some 3%N) 0;
              Bookmarks.updateBookmarkFolder (Some 1%N) 1;
              Bookmarks.updateBookmarkFolder (Some 2%N) 2]
  /\ Bookmarks.error p' = None.
Proof. vm_compute. repeat split. Qed.

(** The store after that run: the positions of Finished and Read later are
    written, Favorites keeps position 0. *)
Lemma store_after_returned_error :
  map (fun r => (Schema.folder_id r, Schema.display_order r))
    (Schema.bookmark_folders
       (Bookmarks.store_after Samples.second_returns_error 0
          (snd (Bookmarks.handleDragEnd Samples.second_returns_error (Samples.dragging 2 0)))
          Samples.folder_rows))
  = [(1%N, 0%Z); (2%N, 2%Z); (3%N, 0%Z)].
Proof. reflexivity. Qed.

(** The UPDATEs run one at a time under UNIQUE (comic_id, page_number):
    asking for the two pages of [Samples.two_pages] in swapped order raises
    at the first statement, and the run ends there. *)
Lemma reorder_comic_pages_swap_raises :
  Schema.reorder_comic_pages 5%N [12; 11]%N Samples.two_pages
  = ([Schema.mkPageUpdate 12%N 5%N 1], Schema.Raised Schema.unique_violation).
Proof. reflexivity. Qed.

(** ** Deleting folders *)

Lemma find_by_unique_id (folderId : Bookmarks.UUID) (fs : list Bookmarks.Folder)
    (f : Bookmarks.Folder) :
  NoDup (map Bookmarks.id fs) -> In f fs -> Bookmarks.id f = Some folderId ->
  find (Bookmarks.id_is folderId) fs = Some f.
Proof.
  intros Hnd Hin Hid. induction fs as [|a rest IH]; [contradiction|].
  cbn [find]. inversion Hnd as [|x l Hnotin Hnd']; subst.
  destruct (Bookmarks.id_is folderId a) eqn:Ha.
  - destruct Hin as [->|Hin]; [reflexivity|]. exfalso. apply Hnotin.
    unfold Bookmarks.id_is in Ha. destruct (Bookmarks.id a) as [ia|] eqn:Hida; [|discriminate].
    apply N.eqb_eq in Ha. subst ia. rewrite <- Hid. now apply in_map.
  - destruct Hin as [->|Hin].
    + unfold Bookmarks.id_is in Ha. rewrite Hid in Ha. now rewrite N.eqb_refl in Ha.
    + now apply IH.
Qed.

(** C10. Folder ids being unique, the delete handler called with the id of
    a folder whose [is_default] is set issues no call at all, keeps the
    folder list, the active folder, the statistics and the success message,
    and, for a signed-in user, sets the error message.  Hence a delete call
    is only ever issued for a folder that is not a default folder. *)
Theorem default_folder_is_kept :
  forall (result : Bookmarks.outcome) (folderId : Bookmarks.UUID) (p : Bookmarks.Page)
         (f : Bookmarks.Folder),
    NoDup (map Bookmarks.id (Bookmarks.folders p)) ->
    In f (Bookmarks.folders p) ->
    Bookmarks.id f = Some folderId ->
    Bookmarks.is_default f = true ->
    let p' := fst (Bookmarks.handleDeleteFolder result folderId p) in
    snd (Bookmarks.handleDeleteFolder result folderId p) = []
    /\ Bookmarks.folders p' = Bookmarks.folders p
    /\ Bookmarks.activeFolder p' = Bookmarks.activeFolder p
    /\ Bookmarks.bookmarkStats p' = Bookmarks.bookmarkStats p
    /\ Bookmarks.success p' = Bookmarks.success p
    /\ (Bookmarks.user p <> None ->
        p' = Bookmarks.setError "Cannot delete default folders." p).
Proof.
  intros result folderId p f Hnd Hin Hid Hdef p'. subst p'.
  unfold Bookmarks.handleDeleteFolder.
  rewrite (find_by_unique_id folderId (Bookmarks.folders p) f Hnd Hin Hid), Hdef.
  destruct (Bookmarks.user p) as [u|]; cbn.
  - repeat split.
  - repeat split. intros H. now destruct H.
Qed.

Lemma default_folder_is_kept_witness :
  (NoDup (map Bookmarks.id (Bookmarks.folders (Samples.dragging 0 2)))
   /\ In Samples.favorites (Bookmarks.folders (Samples.dragging 0 2))
   /\ Bookmarks.is_default Samples.favorites = true)
  /\ snd (Bookmarks.handleDeleteFolder Bookmarks.Fulfilled 1%N (Samples.dragging 0 2)) = []
  /\ Bookmarks.error (fst (Bookmarks.handleDeleteFolder Bookmarks.Fulfilled 1%N (Samples.dragging 0 2)))
     = Some "Cannot delete default folders."%string.
Proof.
  assert (Hnd : NoDup (map Bookmarks.id (Bookmarks.folders (Samples.dragging 0 2)))).
  { cbn. repeat constructor; cbn; intuition discriminate. }
  assert (Hin : In Samples.favorites (Bookmarks.folders (Samples.dragging 0 2)))
    by (left; reflexivity).
  pose proof (default_folder_is_kept Bookmarks.Fulfilled 1%N (Samples.dragging 0 2)
                Samples.favorites Hnd Hin eq_refl eq_refl) as H.
  split; [repeat split; assumption|]. split.
  - exact (proj1 H).
  - destruct H as (_ & _ & _ & _ & _ & Herr). rewrite Herr; [reflexivity | discriminate].
Defined.

(** ** The folder cap *)

(** The trigger lets the insert through whenever the count taken before the
    insert does not exceed the maximum, so also when it equals it. *)
Lemma check_folder_limit_at_maximum (db : Schema.folder_db) (NEW : Schema.bookmark_folder)
    (max : Z) :
  Schema.select_max_bookmark_folders db (Schema.user_id NEW) = Some max ->
  (Schema.count_folders db (Schema.user_id NEW) <= max)%Z ->
  Schema.check_folder_limit db NEW = Schema.Done NEW.
Proof.
  intros Hmax Hcount. unfold Schema.check_folder_limit. rewrite Hmax.
  destruct (Z.gtb_spec (Schema.count_folders db (Schema.user_id NEW)) max); [lia | reflexivity].
Qed.

Lemma check_folder_limit_above_maximum (db : Schema.folder_db) (NEW : Schema.bookmark_folder)
    (max : Z) :
  Schema.select_max_bookmark_folders db (Schema.user_id NEW) = Some max ->
  (max < Schema.count_folders db (Schema.user_id NEW))%Z ->
  Schema.check_folder_limit db NEW = Schema.Raised Schema.folder_limit_reached.
Proof.
  intros Hmax Hcount. unfold Schema.check_folder_limit. rewrite Hmax.
  destruct (Z.gtb_spec (Schema.count_folders db (Schema.user_id NEW)) max); [reflexivity | lia].
Qed.

(** C2. A user whose maximum is 100 and who owns exactly 100 folders: the
    insert of one more folder passes the trigger and is stored, the count
    becomes 101; it is the insert after that one which raises. *)
Theorem folder_cap_admits_one_more :
  Schema.select_max_bookmark_folders Samples.at_the_cap Samples.reader = Some 100%Z
  /\ Schema.count_folders Samples.at_the_cap Samples.reader = 100%Z
  /\ exists db',
       Schema.insert_bookmark_folder Samples.at_the_cap Samples.one_more = Schema.Done db'
       /\ Schema.count_folders db' Samples.reader = 101%Z
       /\ Schema.insert_bookmark_folder db' (Samples.numbered_folder 102)
          = Schema.Raised Schema.folder_limit_reached.
Proof.
  split; [reflexivity|]. split; [reflexivity|].
  eexists. split; [vm_compute; reflexivity|]. split; vm_compute; reflexivity.
Qed.

(** The check in the page is made on the statistics the page has loaded:
    when they say no folder is left, no insert is sent. *)
Lemma handleCreateFolder_precheck (fresh : Bookmarks.UUID) (folder_name : string)
    (p : Bookmarks.Page) (db : Schema.folder_db) :
  Bookmarks.user p <> None ->
  (Bookmarks.folders_remaining (Bookmarks.bookmarkStats p) <= 0)%Z ->
  Bookmarks.handleCreateFolder fresh folder_name p db
  = (Bookmarks.setError "You have reached the maximum number of folders (100)." p, [], db).
Proof.
  intros Huser Hleft. unfold Bookmarks.handleCreateFolder.
  destruct (Bookmarks.user p); [|contradiction].
  destruct (Z.leb_spec (Bookmarks.folders_remaining (Bookmarks.bookmarkStats p)) 0);
    [reflexivity | lia].
Qed.

(** With statistics that are one folder behind, the page sends the insert
    and the store, already holding 100 folders, takes it. *)
Lemma handleCreateFolder_past_the_cap :
  let '(p', calls, db') :=
    Bookmarks.handleCreateFolder 101%N "Folder 101" Samples.loaded_at_99 Samples.at_the_cap in
  calls <> []
  /\ Bookmarks.error p' = None
  /\ length (Bookmarks.folders p') = 100
  /\ Schema.count_folders db' Samples.reader = 101%Z.
Proof. vm_compute. repeat split. discriminate. Qed.

(** ** Unique slugs *)

Section UniqueSlug.
Implicit Types (t : list Schema.user_comic) (r NEW : Schema.user_comic).

Lemma no_conflict_fresh t NEW :
  existsb (Schema.user_comic_conflict NEW) t = false ->
  ~ In (Schema.comic_id NEW) (map Schema.comic_id t)
  /\ ~ In (Schema.slug NEW) (map Schema.slug t).
Proof.
  intros Hno. split; intros Hin; apply in_map_iff in Hin as (r & Heq & Hr).
  - assert (Hex : existsb (Schema.user_comic_conflict NEW) t = true).
    { apply existsb_exists. exists r. split; [assumption|].
      unfold Schema.user_comic_conflict. rewrite Heq, N.eqb_refl. reflexivity. }
    congruence.
  - assert (Hex : existsb (Schema.user_comic_conflict NEW) t = true).
    { apply existsb_exists. exists r. split; [assumption|].
      unfold Schema.user_comic_conflict. rewrite Heq, String.eqb_refl.
      apply orb_true_r. }
    congruence.
Qed.

Lemma NoDup_snoc {A} (l : list A) (x : A) :
  NoDup l -> ~ In x l -> NoDup (l ++ [x]).
Proof.
  intros Hl Hx. apply NoDup_app.
  - assumption.
  - repeat constructor. intros [].
  - intros a Ha [<-|[]]. contradiction.
Qed.

Lemma insert_keeps_keys_unique t NEW t' :
  keys_unique t -> Schema.insert_user_comic t NEW = Schema.Done t' -> keys_unique t'.
Proof.
  intros [Hid Hslug]. unfold Schema.insert_user_comic.
  destruct (negb (Schema.user_comic_checks NEW)); [discriminate|].
  destruct (existsb (Schema.user_comic_conflict NEW) t) eqn:Hc; [discriminate|].
  intros [= <-]. destruct (no_conflict_fresh t NEW Hc) as [Hi Hs].
  split; rewrite map_app; cbn [map]; now apply NoDup_snoc.
Qed.

Lemma set_slug_id i s r : Schema.comic_id (Schema.set_slug i s r) = Schema.comic_id r.
Proof. unfold Schema.set_slug. now destruct (N.eqb (Schema.comic_id r) i). Qed.

Lemma set_slug_absent i s t :
  ~ In i (map Schema.comic_id t) -> map (Schema.set_slug i s) t = t.
Proof.
  induction t as [|r t IH]; intros Hnot; [reflexivity|]. cbn [map] in *.
  rewrite IH by (intros H; apply Hnot; now right).
  unfold Schema.set_slug. destruct (N.eqb_spec (Schema.comic_id r) i) as [Heq|]; [|reflexivity].
  exfalso. apply Hnot. now left.
Qed.

Lemma set_slug_slugs i s t :
  NoDup (map Schema.comic_id t) -> NoDup (map Schema.slug t) ->
  (forall r, In r t -> Schema.comic_id r <> i -> Schema.slug r <> s) ->
  NoDup (map Schema.slug (map (Schema.set_slug i s) t)).
Proof.
  induction t as [|r t IH]; intros Hid Hslug Hother; [constructor|].
  cbn [map] in *. inversion Hid as [|? ? Hid1 Hid2]; subst.
  inversion Hslug as [|? ? Hs1 Hs2]; subst.
  destruct (N.eqb_spec (Schema.comic_id r) i) as [Heq|Hneq].
  - subst i. rewrite (set_slug_absent (Schema.comic_id r) s t Hid1).
    unfold Schema.set_slug. rewrite N.eqb_refl. cbn [Schema.slug].
    constructor; [|assumption].
    intros Hin. apply in_map_iff in Hin as (r' & Hr' & Hin').
    apply (Hother r'); [now right | | assumption].
    intros Hsame. apply Hid1. rewrite <- Hsame. now apply in_map.
  - assert (Hr : Schema.set_slug i s r = r).
    { unfold Schema.set_slug. destruct (N.eqb_spec (Schema.comic_id r) i); congruence. }
    rewrite Hr. constructor.
    + intros Hin. apply in_map_iff in Hin as (r2 & Hr2 & Hin2).
      apply in_map_iff in Hin2 as (r1 & Hr1 & Hin1). subst r2.
      unfold Schema.set_slug in Hr2.
      destruct (N.eqb_spec (Schema.comic_id r1) i).
      * cbn [Schema.slug] in Hr2. apply (Hother r); [now left | assumption | congruence].
      * apply Hs1. rewrite <- Hr2. now apply in_map.
    + apply IH; try assumption. intros r' Hin'. apply Hother. now right.
Qed.

Lemma update_keeps_keys_unique t i s t' :
  keys_unique t -> Schema.update_user_comic_slug t i s = Schema.Done t' -> keys_unique t'.
Proof.
  intros [Hid Hslug]. unfold Schema.update_user_comic_slug.
  destruct (existsb (fun r => negb (N.eqb (Schema.comic_id r) i)
                              && String.eqb (Schema.slug r) s) t) eqn:Hother;
    destruct (existsb (fun r => N.eqb (Schema.comic_id r) i) t) eqn:Hrow;
    cbn [andb]; try discriminate; intros [= <-].
  - (* no row has this id: nothing changes *)
    assert (Habsent : ~ In i (map Schema.comic_id t)).
    { intros Hin. apply in_map_iff in Hin as (r & Hr & Hin).
      assert (existsb (fun r => N.eqb (Schema.comic_id r) i) t = true).
      { apply existsb_exists. exists r. split; [assumption|]. now apply N.eqb_eq. }
      congruence. }
    rewrite set_slug_absent by assumption. now split.
  - split.
    + rewrite map_map. erewrite map_ext; [exact Hid|]. intros r. apply set_slug_id.
    + apply set_slug_slugs; try assumption. intros r Hin Hne Hs.
      assert (existsb (fun r => negb (N.eqb (Schema.comic_id r) i)
                                && String.eqb (Schema.slug r) s) t = true).
      { apply existsb_exists. exists r. split; [assumption|].
        apply andb_true_iff. split.
        - apply negb_true_iff. now apply N.eqb_neq.
        - now apply String.eqb_eq. }
      congruence.
  - split.
    + rewrite map_map. erewrite map_ext; [exact Hid|]. intros r. apply set_slug_id.
    + apply set_slug_slugs; try assumption. intros r Hin Hne Hs.
      assert (existsb (fun r => negb (N.eqb (Schema.comic_id r) i)
                                && String.eqb (Schema.slug r) s) t = true).
      { apply existsb_exists. exists r. split; [assumption|].
        apply andb_true_iff. split.
        - apply negb_true_iff. now apply N.eqb_neq.
        - now apply String.eqb_eq. }
      congruence.
Qed.

Lemma NoDup_map_filter {A B} (f : A -> B) (keep : A -> bool) (l : list A) :
  NoDup (map f l) -> NoDup (map f (filter keep l)).
Proof.
  induction l as [|a l IH]; intros Hnd; [constructor|].
  cbn [map filter] in *. inversion Hnd as [|? ? Hnot Hrest]; subst.
  destruct (keep a); [|now apply IH].
  cbn [map]. constructor; [|now apply IH].
  intros Hin. apply Hnot. apply in_map_iff in Hin as (x & Hx & Hin).
  apply filter_In in Hin as [Hin _]. rewrite <- Hx. now apply in_map.
Qed.

Lemma stored_comics_keys_unique t : Schema.stored_comics t -> keys_unique t.
Proof.
  induction 1 as [|t s t' Hstored IH Hexec].
  - split; constructor.
  - destruct s as [NEW|i s|i]; cbn [Schema.exec_comic_stmt] in Hexec.
    + eapply insert_keeps_keys_unique; eassumption.
    + eapply update_keeps_keys_unique; eassumption.
    + injection Hexec as <-. destruct IH as [Hid Hslug].
      split; now apply NoDup_map_filter.
Qed.
End UniqueSlug.

(** C8. An insert whose slug equals the slug of a stored comic raises and
    stores nothing; when the new row passes the CHECK constraints and its id
    is new, the error is the unique violation.  In every table that inserts,
    slug updates and deletes can produce from the empty table, the slugs are
    pairwise different. *)
Theorem slug_collision_is_rejected :
  (forall (t : list Schema.user_comic) (old NEW : Schema.user_comic),
      In old t -> Schema.slug old = Schema.slug NEW ->
      (exists e, Schema.insert_user_comic t NEW = Schema.Raised e)
      /\ (Schema.user_comic_checks NEW = true ->
          Schema.insert_user_comic t NEW = Schema.Raised Schema.unique_violation))
  /\ (forall t : list Schema.user_comic,
        Schema.stored_comics t -> NoDup (map Schema.slug t)).
Proof.
  split.
  - intros t old NEW Hin Hslug.
    assert (Hc : existsb (Schema.user_comic_conflict NEW) t = true).
    { apply existsb_exists. exists old. split; [assumption|].
      unfold Schema.user_comic_conflict. rewrite Hslug, String.eqb_refl. apply orb_true_r. }
    unfold Schema.insert_user_comic. rewrite Hc.
    destruct (Schema.user_comic_checks NEW); cbn [negb].
    + split; [now eexists | reflexivity].
    + split; [now eexists | discriminate].
  - intros t Hstored. exact (proj2 (stored_comics_keys_unique t Hstored)).
Qed.

Lemma slug_collision_is_rejected_witness :
  (Schema.stored_comics [Samples.first_comic]
   /\ In Samples.first_comic [Samples.first_comic]
   /\ Schema.slug Samples.first_comic = Schema.slug Samples.same_slug)
  /\ Schema.insert_user_comic [Samples.first_comic] Samples.same_slug
     = Schema.Raised Schema.unique_violation
  /\ NoDup (map Schema.slug [Samples.first_comic]).
Proof.
  destruct slug_collision_is_rejected as [Hreject Hinv].
  assert (Hstored : Schema.stored_comics [Samples.first_comic]).
  { apply (Schema.stored_step [] (Schema.InsertComic Samples.first_comic));
      [constructor | reflexivity]. }
  assert (Hin : In Samples.first_comic [Samples.first_comic]) by (left; reflexivity).
  split; [repeat split; assumption|]. split.
  - exact (proj2 (Hreject [Samples.first_comic] Samples.first_comic Samples.same_slug
                    Hin eq_refl) eq_refl).
  - exact (Hinv [Samples.first_comic] Hstored).
Defined.

(** ** Forward transitions of the wizard *)

Lemma goToNextStep_cases (w : Upload.Wizard) :
  (guard_without_bound w = true
   /\ Upload.goToNextStep w
      = Upload.setError None (Upload.setCurrentStep (Upload.currentStep w + 1) w))
  \/ (guard_without_bound w = false
      /\ exists msg, Upload.goToNextStep w = Upload.setError (Some msg) w).
Proof.
  unfold guard_without_bound, Upload.goToNextStep, cover_selected.
  destruct (Upload.currentStep w =? 1)%Z eqn:H1.
  - apply Z.eqb_eq in H1. rewrite H1. cbn [Z.eqb Pos.eqb andb].
    destruct (Upload.coverImage w); cbn [negb andb]; [left | right]; eauto.
  - destruct (Upload.currentStep w =? 2)%Z eqn:H2.
    + apply Z.eqb_eq in H2. rewrite H2. cbn [Z.eqb Pos.eqb andb].
      destruct (length (Upload.comicPages w)) as [|n]; cbn; [right | left]; eauto.
    + destruct (Upload.currentStep w =? 3)%Z eqn:H3; cbn [andb].
      * destruct (Upload.truthy (Upload.trim (Upload.title w))); cbn [negb andb].
        -- destruct (Upload.truthy (Upload.trim (Upload.artist w))); cbn [negb];
             [left | right]; eauto.
        -- right. eauto.
      * left. eauto.
Qed.

(** In every wizard state the forward transition goes through exactly when
    the guard the handler tests holds, where on the pages step that guard
    asks for a non-empty [comicPages] and nothing more; when it goes through,
    the step grows by one and the error is cleared; when it does not, the
    state is the old one with an error message set.  On the states with at
    most 100 cells in [comicPages] this guard and the specified one are the
    same. *)
Lemma forward_transition_guard :
  forall w : Upload.Wizard,
    (Upload.currentStep (Upload.goToNextStep w) = (Upload.currentStep w + 1)%Z
     <-> guard_without_bound w = true)
    /\ (guard_without_bound w = true ->
        Upload.goToNextStep w
        = Upload.setError None (Upload.setCurrentStep (Upload.currentStep w + 1) w))
    /\ (guard_without_bound w = false ->
        exists msg, Upload.goToNextStep w = Upload.setError (Some msg) w)
    /\ (length (Upload.comicPages w) <= 100 ->
        guard_as_specified w = guard_without_bound w).
Proof.
  intros w.
  destruct (goToNextStep_cases w) as [[Hg Hgo]|[Hg [msg Hstay]]].
  - repeat split.
    + intros _. exact Hg.
    + intros _. rewrite Hgo. reflexivity.
    + intros _. exact Hgo.
    + congruence.
    + intros Hlen. unfold guard_as_specified, guard_without_bound.
      destruct (Nat.leb_spec (length (Upload.comicPages w)) 100); [|lia].
      now rewrite andb_true_r.
  - repeat split.
    + intros Hstep. rewrite Hstay in Hstep. cbn in Hstep. lia.
    + congruence.
    + congruence.
    + intros _. now exists msg.
    + intros Hlen. unfold guard_as_specified, guard_without_bound.
      destruct (Nat.leb_spec (length (Upload.comicPages w)) 100); [|lia].
      now rewrite andb_true_r.
Qed.

(** ** Pages and their previews *)

Lemma run_reachable (u : option Upload.UUID) (cid : Upload.UUID) (events : list Upload.event) :
  forall w w', Upload.reachable u cid w -> Upload.run events w = Some w' ->
               Upload.reachable u cid w'.
Proof.
  induction events as [|e rest IH]; intros w w' Hw Hrun; cbn [Upload.run] in Hrun.
  - now injection Hrun as <-.
  - destruct (Upload.enabled e w) eqn:He; [|discriminate].
    apply (IH (Upload.fire e w)); [|assumption]. now constructor.
Qed.

Lemma aligned_lengths (w : Upload.Wizard) :
  aligned w -> length (Upload.pagePreviewUrls w) = length (Upload.comicPages w).
Proof. unfold aligned. intros ->. apply length_map. Qed.

Lemma handleRemovePage_aligned (w : Upload.Wizard) (index : nat) :
  aligned w -> aligned (Upload.handleRemovePage index w).
Proof.
  unfold aligned, Upload.handleRemovePage. cbn. intros ->.
  symmetry. apply JSArrayFacts.splice_remove_map.
Qed.

Lemma handleDragEnd_aligned (w : Upload.Wizard) :
  aligned w -> aligned (Upload.handleDragEnd w).
Proof.
  unfold aligned, Upload.handleDragEnd. intros Hal.
  destruct (Upload.dragItem w) as [from|]; [|assumption].
  destruct (Upload.dragOverItem w) as [to|]; [|assumption].
  cbn. rewrite Hal. symmetry.
  apply (JSArrayFacts.move_map preview_of None).
Qed.

(** A selection whose previews are loaded before anything else happens. *)
Lemma handlePagesUpload_then_loaded_aligned (w : Upload.Wizard) (files : list Upload.File) :
  aligned w ->
  aligned (Upload.previewsLoaded (length (Upload.pending w)) (Upload.handlePagesUpload files w)).
Proof.
  unfold aligned. intros Hal.
  assert (Hnone : nth_error (Upload.pending w) (length (Upload.pending w)) = None)
    by (apply nth_error_None; lia).
  assert (Hrejected : forall msg,
             Upload.pagePreviewUrls
               (Upload.previewsLoaded (length (Upload.pending w)) (Upload.setError msg w))
             = map preview_of
                 (Upload.comicPages
                    (Upload.previewsLoaded (length (Upload.pending w)) (Upload.setError msg w)))).
  { intros msg. unfold Upload.previewsLoaded. cbn. rewrite Hnone. exact Hal. }
  unfold Upload.handlePagesUpload.
  destruct files as [|file files].
  - unfold Upload.previewsLoaded. rewrite Hnone. exact Hal.
  - remember (file :: files) as selected eqn:Hsel.
    destruct (100 <? _); [apply Hrejected|].
    destruct (negb (forallb Upload.is_image selected)); [apply Hrejected|].
    destruct (existsb _ selected); [apply Hrejected|].
    unfold Upload.previewsLoaded.
    cbn [Upload.pending Upload.setError Upload.set_pending].
    rewrite nth_error_app2 by lia. rewrite Nat.sub_diag.
    cbn [nth_error Upload.captured Upload.loaded Upload.pagePreviewUrls Upload.comicPages
         Upload.set_pending Upload.setPagePreviewUrls Upload.setComicPages Upload.setError].
    rewrite Hal, map_app, !map_map. reflexivity.
Qed.

(** C9, as the code has it.  From a state in which the previews are aligned
    with the page files: removing the page at an index and reordering by drag
    and drop give aligned states again, because they apply the same splices to
    both arrays; and so does a selection of files once its previews are
    loaded, when nothing else happens in between.  Aligned arrays have equal
    length. *)
Theorem aligned_is_kept :
  forall w : Upload.Wizard,
    aligned w ->
    length (Upload.pagePreviewUrls w) = length (Upload.comicPages w)
    /\ (forall index, aligned (Upload.handleRemovePage index w))
    /\ aligned (Upload.handleDragEnd w)
    /\ (forall files,
           aligned (Upload.previewsLoaded (length (Upload.pending w))
                      (Upload.handlePagesUpload files w))).
Proof.
  intros w Hal. split; [now apply aligned_lengths|]. split; [|split].
  - intros index. now apply handleRemovePage_aligned.
  - now apply handleDragEnd_aligned.
  - intros files. now apply handlePagesUpload_then_loaded_aligned.
Qed.

Lemma aligned_is_kept_witness :
  aligned (Samples.arranging 0 2)
  /\ Upload.pagePreviewUrls (Upload.handleDragEnd (Samples.arranging 0 2))
     = map preview_of (Upload.comicPages (Upload.handleDragEnd (Samples.arranging 0 2)))
  /\ length (Upload.pagePreviewUrls (Samples.arranging 0 2)) = 3.
Proof.
  assert (Hal : aligned (Samples.arranging 0 2)) by reflexivity.
  destruct (aligned_is_kept (Samples.arranging 0 2) Hal) as (Hlen & _ & Hdrag & _).
  split; [exact Hal|]. split; [exact Hdrag | exact Hlen].
Defined.

(** Right after a selection the files are in [comicPages] and their previews
    are not yet in [pagePreviewUrls]. *)
Lemma previews_lag_behind :
  ~ (forall w : Upload.Wizard,
        Upload.reachable (Some Samples.reader) 5%N w ->
        length (Upload.comicPages w) = length (Upload.pagePreviewUrls w)).
Proof.
  intros H.
  destruct (Upload.run Samples.preview_outstanding Samples.fresh) as [w|] eqn:Hrun;
    [|vm_compute in Hrun; discriminate].
  assert (Hreach : Upload.reachable (Some Samples.reader) 5%N w).
  { apply (run_reachable (Some Samples.reader) 5%N Samples.preview_outstanding Samples.fresh);
      [constructor | exact Hrun]. }
  apply H in Hreach. vm_compute in Hrun. injection Hrun as <-.
  cbn in Hreach. discriminate.
Qed.

(** ** The page limit *)

(** A selection that would bring the count above 100 adds none of its
    files: the state is the old one with the error message set. *)
Lemma handlePagesUpload_over_limit (w : Upload.Wizard) (files : list Upload.File) :
  files <> [] ->
  100 < length (Upload.comicPages w) + length files ->
  Upload.handlePagesUpload files w
  = Upload.setError
      (Some (Upload.too_many_pages_message (length files) (length (Upload.comicPages w)))) w.
Proof.
  intros Hsome Hover. unfold Upload.handlePagesUpload.
  destruct files as [|file files]; [contradiction|].
  destruct (Nat.ltb_spec 100 (length (Upload.comicPages w) + length (file :: files)));
    [reflexivity | lia].
Qed.

(** A selection that is taken brings the count to at most 100. *)
Lemma handlePagesUpload_within_limit (w : Upload.Wizard) (files : list Upload.File) :
  length (Upload.comicPages w) <= 100 ->
  length (Upload.comicPages (Upload.handlePagesUpload files w)) <= 100.
Proof.
  intros Hlen. unfold Upload.handlePagesUpload.
  destruct files as [|file files]; [assumption|].
  remember (file :: files) as selected.
  destruct (Nat.ltb_spec 100 (length (Upload.comicPages w) + length selected)); [assumption|].
  destruct (negb (forallb Upload.is_image selected)); [assumption|].
  destruct (existsb _ selected); [assumption|].
  cbn. rewrite length_app, length_map. lia.
Qed.

(** With no page the pages step cannot be left forwards. *)
Lemma no_page_blocks_details (w : Upload.Wizard) :
  Upload.currentStep w = 2%Z -> Upload.comicPages w = [] ->
  Upload.goToNextStep w
  = Upload.setError (Some "Please upload at least one comic page"%string) w.
Proof.
  intros Hstep Hpages. unfold Upload.goToNextStep. rewrite Hstep, Hpages. reflexivity.
Qed.

Lemma handleSubmit_pages (env : Upload.Env) (w : Upload.Wizard) (store : list Upload.effect) :
  Upload.comicPages (fst (fst (Upload.handleSubmit env w store))) = Upload.comicPages w.
Proof.
  unfold Upload.handleSubmit.
  destruct (Upload.user w); [|reflexivity].
  destruct (Upload.coverImage w); [|reflexivity].
  destruct (_ || _); [reflexivity|].
  destruct (Upload.submit_effects env _ _ w) as [[issued held] [msg|]]; reflexivity.
Qed.

(** The count stays within the limit under every event except a drop whose
    source index lies outside [comicPages]. *)
Lemma page_limit_kept_without_stray_drag (e : Upload.event) (w : Upload.Wizard) :
  length (Upload.comicPages w) <= 100 ->
  (forall from, e = Upload.DragEnd -> Upload.dragItem w = Some from ->
                from < length (Upload.comicPages w)) ->
  length (Upload.comicPages (Upload.fire e w)) <= 100.
Proof.
  intros Hlen Hdrag. destruct e; cbn [Upload.fire]; try assumption.
  - unfold Upload.handleCoverUpload. destruct file as [f|]; [|assumption].
    destruct (negb (Upload.is_image f)); [assumption|].
    destruct (_ <? _)%N; assumption.
  - now apply handlePagesUpload_within_limit.
  - unfold Upload.previewsLoaded. destruct (nth_error _ k); assumption.
  - unfold Upload.handleDragEnd.
    destruct (Upload.dragItem w) as [from|] eqn:Hfrom; [|assumption].
    destruct (Upload.dragOverItem w) as [to|]; [|assumption].
    cbn. rewrite JSArrayFacts.move_length; [assumption|]. now apply Hdrag.
  - unfold Upload.handleRemovePage. cbn. unfold JSArray.splice_remove.
    rewrite length_app, length_firstn, length_skipn. lia.
  - unfold Upload.goToNextStep.
    repeat match goal with |- context [if ?c then _ else _] => destruct c end; assumption.
  - now rewrite handleSubmit_pages.
  - unfold Upload.coverLoaded. destruct (nth_error _ k); assumption.
Qed.

(** C4. The run [Samples.overflow] uses only controls that are on screen.
    It ends on the details step with 101 cells in [comicPages]: one hundred
    files and one undefined cell.  The state before the last event is on the
    pages step with the same 101 cells, so the transition from pages to
    details has been taken with more than 100 pages. *)
Theorem page_count_can_exceed_limit :
  exists w before : Upload.Wizard,
    Upload.run (removelast Samples.overflow) Samples.fresh = Some before
    /\ Upload.run Samples.overflow Samples.fresh = Some w
    /\ Upload.reachable (Some Samples.reader) 5%N w
    /\ Upload.currentStep before = 2%Z
    /\ w = Upload.goToNextStep before
    /\ Upload.currentStep w = 3%Z
    /\ length (Upload.comicPages w) = 101
    /\ length (filter (fun cell => match cell with Some _ => true | None => false end)
                 (Upload.comicPages w)) = 100.
Proof.
  destruct (Upload.run (removelast Samples.overflow) Samples.fresh) as [before|] eqn:Hb;
    [|vm_compute in Hb; discriminate].
  destruct (Upload.run Samples.overflow Samples.fresh) as [w|] eqn:Hrun;
    [|vm_compute in Hrun; discriminate].
  exists w, before.
  assert (Hreach : Upload.reachable (Some Samples.reader) 5%N w).
  { apply (run_reachable (Some Samples.reader) 5%N Samples.overflow Samples.fresh);
      [constructor | exact Hrun]. }
  split; [reflexivity|]. split; [reflexivity|]. split; [exact Hreach|].
  vm_compute in Hb. injection Hb as <-.
  vm_compute in Hrun. injection Hrun as <-.
  repeat split.
Qed.

(** ** The forward transition on states the page reaches *)

(** C3. Two runs that use only controls on screen end on the pages step
    in a state where the specified guard of the transition to the details
    step does not hold, and the transition is taken all the same, with the
    error cleared.  After [Samples.crowded] there are 101 cells in
    [comicPages], more than the 100 the guard allows; after [Samples.hollow]
    the only cell of [comicPages] is undefined, so no page file is present.
    Both states come from the previews being written from a stale array, the
    defect behind C4. *)
Theorem forward_transition_taken_against_the_guard :
  (exists w : Upload.Wizard,
      Upload.run Samples.crowded Samples.fresh = Some w
      /\ Upload.reachable (Some Samples.reader) 5%N w
      /\ Upload.currentStep w = 2%Z
      /\ length (Upload.comicPages w) = 101
      /\ guard_as_specified w = false
      /\ Upload.currentStep (Upload.goToNextStep w) = 3%Z
      /\ Upload.error (Upload.goToNextStep w) = None)
  /\ (exists w : Upload.Wizard,
         Upload.run Samples.hollow Samples.fresh = Some w
         /\ Upload.reachable (Some Samples.reader) 5%N w
         /\ Upload.currentStep w = 2%Z
         /\ Upload.comicPages w = [None]
         /\ Upload.currentStep (Upload.goToNextStep w) = 3%Z
         /\ Upload.error (Upload.goToNextStep w) = None).
Proof.
  split.
  - destruct (Upload.run Samples.crowded Samples.fresh) as [w|] eqn:Hrun;
      [|vm_compute in Hrun; discriminate].
    exists w.
    assert (Hreach : Upload.reachable (Some Samples.reader) 5%N w).
    { apply (run_reachable (Some Samples.reader) 5%N Samples.crowded Samples.fresh);
        [constructor | exact Hrun]. }
    split; [reflexivity|]. split; [exact Hreach|].
    vm_compute in Hrun. injection Hrun as <-. repeat split.
  - destruct (Upload.run Samples.hollow Samples.fresh) as [w|] eqn:Hrun;
      [|vm_compute in Hrun; discriminate].
    exists w.
    assert (Hreach : Upload.reachable (Some Samples.reader) 5%N w).
    { apply (run_reachable (Some Samples.reader) 5%N Samples.hollow Samples.fresh);
        [constructor | exact Hrun]. }
    split; [reflexivity|]. split; [exact Hreach|].
    vm_compute in Hrun. injection Hrun as <-. repeat split.
Qed.

(** ** Submitting the wizard *)

Section Submission.
Variables (env : Upload.Env) (userId cid : Upload.UUID).

Lemma upload_pages_spec (pages : list (option Upload.File)) :
  forall i,
    let '(issued, held, thrown) := Upload.upload_pages env userId cid i pages in
    (exists rest,
        concat (JSArray.mapi_from (page_calls env userId cid) i pages) = issued ++ rest)
    /\ held = filter (took_hold env) issued
    /\ (thrown = None ->
        issued = concat (JSArray.mapi_from (page_calls env userId cid) i pages)).
Proof.
  induction pages as [|file rest IH]; intros i.
  - cbn. repeat split. now exists [].
  - cbn [Upload.upload_pages JSArray.mapi_from concat].
    unfold page_calls at 1 3. cbn [app].
    destruct (Upload.page_outcome env (i + 1) file) as [pageUrl| |m] eqn:Hup.
    + cbn [url_of].
      specialize (IH (S i)).
      destruct (Upload.row_result env (i + 1)) eqn:Hrow.
      * destruct (Upload.upload_pages env userId cid (S i) rest) as [[issued held] thrown].
        destruct IH as ((more & Hmore) & Hheld & Hall).
        cbn [filter took_hold]. rewrite Hup, Hrow. repeat split.
        -- exists more. cbn [app]. now rewrite Hmore.
        -- now rewrite Hheld.
        -- intros Hnone. now rewrite (Hall Hnone).
      * destruct (Upload.upload_pages env userId cid (S i) rest) as [[issued held] thrown].
        destruct IH as ((more & Hmore) & Hheld & Hall).
        cbn [filter took_hold]. rewrite Hup, Hrow. repeat split.
        -- exists more. cbn [app]. now rewrite Hmore.
        -- now rewrite Hheld.
        -- intros Hnone. now rewrite (Hall Hnone).
      * cbn [filter took_hold]. rewrite Hup, Hrow. repeat split.
        -- eexists. cbn [app]. reflexivity.
        -- discriminate.
    + cbn [filter took_hold]. rewrite Hup. repeat split.
      * eexists. cbn [app]. reflexivity.
      * discriminate.
    + cbn [filter took_hold]. rewrite Hup. repeat split.
      * eexists. cbn [app]. reflexivity.
      * discriminate.
Qed.
End Submission.

Lemma submit_effects_spec (env : Upload.Env) (userId : Upload.UUID) (cover : Upload.File)
    (w : Upload.Wizard) :
  let '(issued, held, thrown) := Upload.submit_effects env userId cover w in
  (exists rest, expected_effects env userId cover w = issued ++ rest)
  /\ held = filter (took_hold env) issued
  /\ (thrown = None -> issued = expected_effects env userId cover w).
Proof.
  unfold Upload.submit_effects, expected_effects, JSArray.mapi.
  destruct (Upload.cover_result env) as [coverUrl| |m] eqn:Hcover; cbn [url_of].
  - destruct (Upload.comic_result env) eqn:Hcomic.
    + pose proof (upload_pages_spec env userId (Upload.comicId w) (Upload.comicPages w) 0) as H.
      destruct (Upload.upload_pages env userId (Upload.comicId w) 0 (Upload.comicPages w))
        as [[issued held] thrown].
      destruct H as ((more & Hmore) & Hheld & Hall).
      cbn [filter took_hold]. rewrite Hcover, Hcomic. repeat split.
      * exists more. cbn [app]. now rewrite Hmore.
      * now rewrite Hheld.
      * intros Hnone. now rewrite (Hall Hnone).
    + cbn [filter took_hold]. rewrite Hcover, Hcomic. repeat split.
      * eexists. cbn [app]. reflexivity.
      * discriminate.
    + cbn [filter took_hold]. rewrite Hcover, Hcomic. repeat split.
      * eexists. cbn [app]. reflexivity.
      * discriminate.
  - cbn [filter took_hold]. rewrite Hcover. repeat split.
    + eexists. cbn [app]. reflexivity.
    + discriminate.
  - cbn [filter took_hold]. rewrite Hcover. repeat split.
    + eexists. cbn [app]. reflexivity.
    + discriminate.
Qed.

Lemma through_first_stop_all (env : Upload.Env) (calls : list Upload.effect) :
  existsb (stops env) calls = false -> through_first_stop env calls = calls.
Proof.
  induction calls as [|e rest IH]; intros Hno; [reflexivity|].
  cbn [existsb] in Hno. apply orb_false_iff in Hno as [He Hrest].
  cbn [through_first_stop]. rewrite He. now rewrite (IH Hrest).
Qed.

Lemma through_first_stop_split (env : Upload.Env) (calls : list Upload.effect) :
  existsb (stops env) calls = true ->
  exists e before after,
    calls = before ++ e :: after
    /\ stops env e = true
    /\ existsb (stops env) before = false
    /\ through_first_stop env calls = before ++ [e].
Proof.
  induction calls as [|e rest IH]; intros Hsome; [discriminate|].
  cbn [existsb through_first_stop] in *. destruct (stops env e) eqn:He.
  - exists e, [], rest. repeat split. exact He.
  - cbn [orb] in Hsome. destruct (IH Hsome) as (e' & before & after & -> & He' & Hb & Heq).
    exists e', (e :: before), after. cbn [app existsb]. rewrite He, Heq. now repeat split.
Qed.

Lemma through_first_stop_app (env : Upload.Env) (before rest : list Upload.effect) :
  existsb (stops env) before = false ->
  through_first_stop env (before ++ rest) = before ++ through_first_stop env rest.
Proof.
  induction before as [|e before IH]; intros Hno; [reflexivity|].
  cbn [existsb] in Hno. apply orb_false_iff in Hno as [He Hb].
  cbn [app through_first_stop]. rewrite He. now rewrite (IH Hb).
Qed.

Lemma stopping_call_writes_nothing (env : Upload.Env) (e : Upload.effect) :
  stops env e = true -> took_hold env e = false.
Proof.
  destruct e; cbn [stops took_hold]; try discriminate.
  - destruct (Upload.cover_result env); [discriminate | reflexivity | reflexivity].
  - destruct (Upload.comic_result env); [discriminate | reflexivity | reflexivity].
  - destruct (Upload.page_outcome env pageNumber file);
      [discriminate | reflexivity | reflexivity].
  - destruct (Upload.row_result env page_number); [discriminate | discriminate | reflexivity].
Qed.

(** The page loop issues the page calls up to and including the first that
    ends the submission, and throws exactly when there is one. *)
Lemma upload_pages_stop (env : Upload.Env) (userId cid : Upload.UUID)
    (pages : list (option Upload.File)) :
  forall i,
    let calls := concat (JSArray.mapi_from (page_calls env userId cid) i pages) in
    fst (fst (Upload.upload_pages env userId cid i pages)) = through_first_stop env calls
    /\ (snd (Upload.upload_pages env userId cid i pages) = None
        <-> existsb (stops env) calls = false).
Proof.
  induction pages as [|file rest IH]; intros i calls; subst calls.
  - cbn. split; [reflexivity | tauto].
  - cbn [Upload.upload_pages JSArray.mapi_from concat].
    unfold page_calls at 1 3. cbn [app through_first_stop existsb stops].
    specialize (IH (S i)). cbv zeta in IH.
    destruct (Upload.page_outcome env (i + 1) file) as [pageUrl| |m] eqn:Hup;
      cbn [url_of fst snd orb].
    + destruct (Upload.row_result env (i + 1)) eqn:Hrow; cbn [fst snd orb].
      * destruct (Upload.upload_pages env userId cid (S i) rest) as [[issued held] thrown].
        cbn [fst snd] in *. destruct IH as [-> Hthrown]. split; [reflexivity | exact Hthrown].
      * destruct (Upload.upload_pages env userId cid (S i) rest) as [[issued held] thrown].
        cbn [fst snd] in *. destruct IH as [-> Hthrown]. split; [reflexivity | exact Hthrown].
      * split; [reflexivity|]. split; discriminate.
    + split; [reflexivity|]. split; discriminate.
    + split; [reflexivity|]. split; discriminate.
Qed.

Lemma submit_effects_stop (env : Upload.Env) (userId : Upload.UUID) (cover : Upload.File)
    (w : Upload.Wizard) :
  let calls := expected_effects env userId cover w in
  fst (fst (Upload.submit_effects env userId cover w)) = through_first_stop env calls
  /\ (snd (Upload.submit_effects env userId cover w) = None
      <-> existsb (stops env) calls = false).
Proof.
  intros calls. subst calls.
  unfold Upload.submit_effects, expected_effects, JSArray.mapi.
  cbn [through_first_stop existsb stops].
  destruct (Upload.cover_result env) as [coverUrl| |m] eqn:Hcover; cbn [url_of fst snd orb].
  - destruct (Upload.comic_result env) eqn:Hcomic; cbn [fst snd orb].
    + pose proof (upload_pages_stop env userId (Upload.comicId w) (Upload.comicPages w) 0) as H.
      cbv zeta in H.
      destruct (Upload.upload_pages env userId (Upload.comicId w) 0 (Upload.comicPages w))
        as [[issued held] thrown].
      cbn [fst snd] in *. destruct H as [-> Hthrown]. split; [reflexivity | exact Hthrown].
    + split; [reflexivity|]. split; discriminate.
    + split; [reflexivity|]. split; discriminate.
  - split; [reflexivity|]. split; discriminate.
  - split; [reflexivity|]. split; discriminate.
Qed.

(** C5. For a signed-in user with a cover chosen.  When the final
    validation fails nothing is issued.  Otherwise the calls issued are the
    sequence: cover upload, record, then for each page number [k = 1..N] the
    upload of page [k] followed by the insert of its row with
    [page_number = k], cut after the first call that ends the submission; the
    whole sequence, the success message and no error when no call does.  When
    a call ends the submission, every call before it has been issued, the
    store afterwards is the store before followed by each of them that took
    hold, and the error is set.  No clean-up call is ever issued. *)
Theorem submission_order_without_rollback :
  forall (env : Upload.Env) (w : Upload.Wizard) (store : list Upload.effect)
         (userId : Upload.UUID) (cover : Upload.File),
    Upload.user w = Some userId ->
    Upload.coverImage w = Some cover ->
    let w' := fst (fst (Upload.handleSubmit env w store)) in
    let issued := snd (fst (Upload.handleSubmit env w store)) in
    let store' := snd (Upload.handleSubmit env w store) in
    let expected := expected_effects env userId cover w in
    issued = (if submission_valid w then through_first_stop env expected else [])
    /\ store' = store ++ filter (took_hold env) issued
    /\ (forall u c, ~ In (Upload.deleteUserComic u c) issued)
    /\ (submission_valid w = true ->
        (existsb (stops env) expected = false ->
         issued = expected
         /\ Upload.success w' = Some "Comic uploaded successfully!"%string
         /\ Upload.error w' = None)
        /\ (existsb (stops env) expected = true ->
            exists e before after,
              expected = before ++ e :: after
              /\ stops env e = true
              /\ existsb (stops env) before = false
              /\ issued = before ++ [e]
              /\ store' = store ++ filter (took_hold env) before
              /\ Upload.error w' <> None
              /\ Upload.success w' = Upload.success w)).
Proof.
  intros env w store userId cover Huser Hcover w' issued store' expected.
  subst w' issued store' expected. unfold Upload.handleSubmit. rewrite Huser, Hcover.
  assert (Hnodelete : forall l rest u c,
             expected_effects env userId cover w = l ++ rest ->
             ~ In (Upload.deleteUserComic u c) l).
  { intros l rest u c Heq Hin.
    assert (Hin' : In (Upload.deleteUserComic u c) (expected_effects env userId cover w))
      by (rewrite Heq; apply in_or_app; now left).
    unfold expected_effects in Hin'. destruct Hin' as [H|[H|H]]; try discriminate.
    apply in_concat in H as (l' & Hl' & Hin').
    unfold JSArray.mapi in Hl'. revert Hl'. generalize 0.
    induction (Upload.comicPages w) as [|file files IH]; intros n Hl'; [contradiction|].
    cbn [JSArray.mapi_from] in Hl'. destruct Hl' as [<-|Hl'].
    - destruct Hin' as [H|[H|[]]]; discriminate.
    - now apply (IH (S n)). }
  assert (Hvalid : negb (Upload.truthy (Upload.trim (Upload.title w)))
                   || negb (Upload.truthy (Upload.trim (Upload.artist w)))
                   || (length (Upload.comicPages w) =? 0)
                   = negb (submission_valid w)).
  { unfold submission_valid. now rewrite !negb_andb, negb_involutive. }
  rewrite Hvalid. destruct (submission_valid w); cbn [negb].
  - pose proof (submit_effects_spec env userId cover w) as Hspec.
    destruct (submit_effects_stop env userId cover w) as [Hissued Hthrown].
    destruct (Upload.submit_effects env userId cover w) as [[issued held] thrown].
    destruct Hspec as ((more & Hmore) & Hheld & _).
    cbn [fst snd] in *. subst issued.
    split; [reflexivity|]. split; [now rewrite Hheld|].
    split; [intros u c; now apply (Hnodelete _ more)|].
    intros _. split.
    + intros Hnone. rewrite (through_first_stop_all env _ Hnone).
      split; [reflexivity|].
      apply Hthrown in Hnone. subst thrown. split; reflexivity.
    + intros Hsome.
      destruct (through_first_stop_split env _ Hsome)
        as (e & before & after & Hexp & He & Hbefore & Hcut).
      exists e, before, after.
      split; [exact Hexp|]. split; [exact He|]. split; [exact Hbefore|].
      split; [exact Hcut|]. split.
      * rewrite Hheld, Hcut, filter_app. cbn [filter].
        rewrite (stopping_call_writes_nothing env e He). now rewrite app_nil_r.
      * destruct thrown as [msg|]; [split; [discriminate | reflexivity]|].
        assert (Hno : existsb (stops env) (expected_effects env userId cover w) = false)
          by (now apply Hthrown).
        congruence.
  - cbn [fst snd filter]. rewrite app_nil_r.
    split; [reflexivity|]. split; [reflexivity|].
    split; [intros u c []|]. intros H. discriminate.
Qed.

Lemma submission_order_without_rollback_witness :
  (Upload.user Samples.ready = Some Samples.reader
   /\ Upload.coverImage Samples.ready = Some Samples.cover
   /\ submission_valid Samples.ready = true)
  /\ snd (fst (Upload.handleSubmit Samples.all_fine Samples.ready []))
     = expected_effects Samples.all_fine Samples.reader Samples.cover Samples.ready
  /\ snd (fst (Upload.handleSubmit Samples.second_page_fails Samples.ready []))
     = through_first_stop Samples.second_page_fails
         (expected_effects Samples.second_page_fails Samples.reader Samples.cover
            Samples.ready)
  /\ length (snd (fst (Upload.handleSubmit Samples.second_page_fails Samples.ready []))) = 5
  /\ length (snd (Upload.handleSubmit Samples.second_page_fails Samples.ready [])) = 4.
Proof.
  split; [repeat split|]. split; [|split; [|split; reflexivity]].
  - destruct (submission_order_without_rollback Samples.all_fine Samples.ready []
                Samples.reader Samples.cover eq_refl eq_refl) as (_ & _ & _ & Hvalid).
    exact (proj1 (proj1 (Hvalid eq_refl) eq_refl)).
  - exact (proj1 (submission_order_without_rollback Samples.second_page_fails Samples.ready []
                    Samples.reader Samples.cover eq_refl eq_refl)).
Defined.

(** ** Sorting on load *)

Module JSSortFacts.
Import JSSort.
Section Facts.
Context {A : Type}.
Variable key : A -> Z.

Lemma insert_perm (x : A) (l : list A) : Permutation (insert key x l) (x :: l).
Proof.
  induction l as [|y rest IH]; cbn [insert]; [reflexivity|].
  destruct (key x <=? key y)%Z; [reflexivity|].
  rewrite IH. apply perm_swap.
Qed.

Lemma sort_perm (l : list A) : Permutation (sort key l) l.
Proof.
  induction l as [|x rest IH]; cbn; [reflexivity|].
  rewrite insert_perm. now constructor.
Qed.

Lemma insert_sorted (x : A) (l : list A) :
  Sorted Z.le (map key l) -> Sorted Z.le (map key (insert key x l)).
Proof.
  induction l as [|y rest IH]; intros Hs; cbn [insert map].
  - repeat constructor.
  - destruct (Z.leb_spec (key x) (key y)) as [Hle|Hgt]; cbn [map].
    + constructor; [assumption|]. now constructor.
    + inversion Hs as [|? ? Hrest Hhd]; subst. constructor; [now apply IH|].
      destruct rest as [|z rest']; cbn [insert map].
      * constructor. lia.
      * destruct (key x <=? key z)%Z; cbn [map]; constructor; [lia|].
        now inversion Hhd.
Qed.

Lemma sort_sorted (l : list A) : Sorted Z.le (map key (sort key l)).
Proof.
  induction l as [|x rest IH]; cbn; [constructor|]. now apply insert_sorted.
Qed.

Lemma sort_of_sorted (l : list A) : Sorted Z.le (map key l) -> sort key l = l.
Proof.
  induction l as [|x rest IH]; intros Hs; [reflexivity|].
  cbn [sort fold_right]. fold (sort key rest).
  inversion Hs as [|? ? Hrest Hhd]; subst. rewrite (IH Hrest).
  destruct rest as [|y rest']; [reflexivity|]. cbn [insert].
  inversion Hhd; subst. destruct (Z.leb_spec (key x) (key y)); [reflexivity | lia].
Qed.

(** Stability: the elements of one key keep their order. *)
Lemma insert_same_key (k : Z) (x : A) (l : list A) :
  filter (fun y => (key y =? k)%Z) (insert key x l)
  = filter (fun y => (key y =? k)%Z) (x :: l).
Proof.
  induction l as [|y rest IH]; cbn [insert]; [reflexivity|].
  destruct (Z.leb_spec (key x) (key y)) as [Hle|Hgt]; [reflexivity|].
  cbn [filter] in *. rewrite IH.
  destruct (Z.eqb_spec (key x) k), (Z.eqb_spec (key y) k); try reflexivity. lia.
Qed.

Lemma sort_same_key (k : Z) (l : list A) :
  filter (fun y => (key y =? k)%Z) (sort key l) = filter (fun y => (key y =? k)%Z) l.
Proof.
  induction l as [|x rest IH]; [reflexivity|].
  cbn [sort fold_right]. fold (sort key rest). rewrite insert_same_key.
  cbn [filter]. now rewrite IH.
Qed.
End Facts.
End JSSortFacts.

Lemma sorted_positions (n : nat) : forall start, Sorted Z.le (map Z.of_nat (seq start n)).
Proof.
  induction n as [|n IH]; intros start; cbn; [constructor|].
  constructor; [apply IH|]. destruct n; cbn; constructor. lia.
Qed.

(** X1. A load that brings folders stores them in ascending
    [display_order], the same folders, those of equal position in the order
    the store gave them; folders that already come in order are stored as
    they come.  In particular the folders as a drop left them are kept as
    they are. *)
Theorem fetch_orders_folders :
  forall (fs : list Bookmarks.Folder) (err : bool)
         (stats_reply : BookmarksView.reply Bookmarks.BookmarkStats)
         (v : BookmarksView.View),
    Bookmarks.user (BookmarksView.page v) <> None ->
    let fs' := Bookmarks.folders
                 (BookmarksView.page
                    (BookmarksView.fetchBookmarkData
                       (BookmarksView.Resolved (Some fs) err) stats_reply v)) in
    Sorted Z.le (map Bookmarks.display_order fs')
    /\ Permutation fs' fs
    /\ (forall k, filter (fun f => (Bookmarks.display_order f =? k)%Z) fs'
                  = filter (fun f => (Bookmarks.display_order f =? k)%Z) fs)
    /\ (Sorted Z.le (map Bookmarks.display_order fs) -> fs' = fs)
    /\ (forall i j fs0, fs = Bookmarks.reorder_folders i j fs0 -> fs' = fs).
Proof.
  intros fs err stats_reply v Huser fs'.
  assert (Hfs' : fs' = JSSort.sort Bookmarks.display_order fs).
  { subst fs'. unfold BookmarksView.fetchBookmarkData.
    destruct (Bookmarks.user (BookmarksView.page v)); [|contradiction].
    destruct stats_reply as [[s|] e|]; reflexivity. }
  rewrite Hfs'. split; [apply JSSortFacts.sort_sorted|].
  split; [apply JSSortFacts.sort_perm|].
  split; [intros k; apply JSSortFacts.sort_same_key|].
  split; [apply JSSortFacts.sort_of_sorted|].
  intros i j fs0 ->. apply JSSortFacts.sort_of_sorted.
  rewrite reorder_folders_orders. apply sorted_positions.
Qed.

(** ** Picking the active folder *)

Lemma existsb_id_is_first (first : Bookmarks.Folder) (rest : list Bookmarks.Folder)
    (i : Bookmarks.UUID) :
  Bookmarks.id first = Some i -> existsb (Bookmarks.id_is i) (first :: rest) = true.
Proof.
  intros Hid. cbn [existsb]. unfold Bookmarks.id_is at 1. rewrite Hid, N.eqb_refl.
  reflexivity.
Qed.

Lemma existsb_id_is_In (fs : list Bookmarks.Folder) (i : Bookmarks.UUID) :
  existsb (Bookmarks.id_is i) fs = true ->
  exists f, In f fs /\ Bookmarks.id f = Some i.
Proof.
  intros H. apply existsb_exists in H as (f & Hin & Hf). exists f. split; [assumption|].
  unfold Bookmarks.id_is in Hf. destruct (Bookmarks.id f) as [x|]; [|discriminate].
  apply N.eqb_eq in Hf. now subst.
Qed.

(** X2. With a non-empty folder list whose folders all have an id, and a
    folder named in the address or no active folder yet, the effect makes one
    of the listed folders the active one: the named folder when it is listed
    (without changing the address), the first folder otherwise.  Run again
    with the address it has set, the effect keeps the state and pushes no
    further address. *)
Theorem selectFolder_settles :
  forall (folderId : option Bookmarks.UUID) (p : Bookmarks.Page),
    Bookmarks.folders p <> [] ->
    Forall (fun f => Bookmarks.id f <> None) (Bookmarks.folders p) ->
    folderId <> None \/ Bookmarks.activeFolder p = None ->
    let p' := fst (BookmarksView.selectFolder folderId p) in
    let calls := snd (BookmarksView.selectFolder folderId p) in
    (exists f, In f (Bookmarks.folders p) /\ Bookmarks.activeFolder p' = Bookmarks.id f)
    /\ (forall wanted,
           folderId = Some wanted ->
           existsb (Bookmarks.id_is wanted) (Bookmarks.folders p) = true ->
           Bookmarks.activeFolder p' = Some wanted
           /\ calls = [Bookmarks.fetchBookmarksForFolder (Some wanted)])
    /\ BookmarksView.selectFolder (Bookmarks.activeFolder p') p'
       = (p', [Bookmarks.fetchBookmarksForFolder (Bookmarks.activeFolder p')]).
Proof.
  intros folderId p Hne Hids Hwhen p' calls. subst p' calls.
  unfold BookmarksView.selectFolder.
  destruct (Bookmarks.folders p) as [|first rest] eqn:Hfs; [contradiction|].
  inversion Hids as [|? ? Hfirst Hrest]; subst.
  destruct (Bookmarks.id first) as [i0|] eqn:Hid0; [|contradiction].
  destruct folderId as [wanted|].
  - destruct (existsb (Bookmarks.id_is wanted) (first :: rest)) eqn:Hex; cbn [fst snd].
    + destruct (existsb_id_is_In _ _ Hex) as (f & Hin & Hf).
      split; [exists f; split; [assumption | now rewrite Hf]|].
      split; [intros w [= <-] _; split; reflexivity|].
      cbn. rewrite Hfs, Hex. reflexivity.
    + split; [exists first; split; [now left | now rewrite Hid0]|].
      split; [intros w [= <-] Hw; congruence|].
      cbn. rewrite Hfs, (existsb_id_is_first first rest i0 Hid0). reflexivity.
  - destruct Hwhen as [Hwhen|Hnone]; [contradiction|]. rewrite Hnone. cbn [fst snd].
    split; [exists first; split; [now left | now rewrite Hid0]|].
    split; [intros w Hw; discriminate|].
    cbn. rewrite Hfs, (existsb_id_is_first first rest i0 Hid0). reflexivity.
Qed.

(** ** Editing a folder *)

Lemma same_folder_id_eq (a b : Bookmarks.Folder) :
  BookmarksView.same_folder_id a b = true -> Bookmarks.id b = Bookmarks.id a.
Proof.
  unfold BookmarksView.same_folder_id.
  destruct (Bookmarks.id a) as [x|], (Bookmarks.id b) as [y|]; try discriminate.
  - intros H. apply N.eqb_eq in H. now subst.
  - reflexivity.
Qed.

(** X3. An update attempt by a signed-in user with a folder being edited
    ends, however the call ends, with the dialogue closed and no folder being
    edited, and with the same folder ids in the same order as before.
    Without a signed-in user or without a folder being edited nothing
    changes, so the dialogue stays as it is. *)
Theorem handleUpdateFolder_closes_dialogue :
  forall (result : BookmarksView.reply Bookmarks.Folder) (folder_name : string)
         (v : BookmarksView.View),
    let v' := BookmarksView.handleUpdateFolder result folder_name v in
    (Bookmarks.user (BookmarksView.page v) <> None ->
     BookmarksView.editingFolder v <> None ->
     BookmarksView.showEditFolderModal v' = false
     /\ BookmarksView.editingFolder v' = None
     /\ map Bookmarks.id (Bookmarks.folders (BookmarksView.page v'))
        = map Bookmarks.id (Bookmarks.folders (BookmarksView.page v)))
    /\ (Bookmarks.user (BookmarksView.page v) = None \/ BookmarksView.editingFolder v = None ->
        v' = v).
Proof.
  intros result folder_name v v'. subst v'. unfold BookmarksView.handleUpdateFolder.
  split.
  - intros Huser Hedit.
    destruct (Bookmarks.user (BookmarksView.page v)); [|contradiction].
    destruct (BookmarksView.editingFolder v); [|contradiction].
    destruct result as [[folder|] [|]|]; cbn; repeat split.
    rewrite map_map. apply map_ext. intros g.
    destruct (BookmarksView.same_folder_id g folder) eqn:Hsame; [|reflexivity].
    now apply same_folder_id_eq.
  - intros [Hnone|Hnone]; rewrite Hnone.
    + reflexivity.
    + now destruct (Bookmarks.user (BookmarksView.page v)).
Qed.

(** ** The folder dialogue *)

Section Trim.
Lemma trimStart_empty (s : Upload.jsstring) :
  Upload.truthy (Upload.trimStart s) = existsb visible s.
Proof.
  induction s as [|c rest IH]; [reflexivity|].
  cbn [Upload.trimStart existsb]. unfold visible at 1.
  destruct (Upload.is_trimmed_unit c); cbn [negb orb]; [exact IH | reflexivity].
Qed.

Lemma existsb_rev {A} (f : A -> bool) (l : list A) : existsb f (rev l) = existsb f l.
Proof.
  induction l as [|a l IH]; [reflexivity|].
  cbn [rev existsb]. rewrite existsb_app, IH. cbn [existsb].
  rewrite orb_false_r. apply orb_comm.
Qed.

Lemma existsb_trimStart (s : Upload.jsstring) :
  existsb visible (Upload.trimStart s) = existsb visible s.
Proof.
  induction s as [|c rest IH]; [reflexivity|].
  cbn [Upload.trimStart]. destruct (Upload.is_trimmed_unit c) eqn:Hc; [|reflexivity].
  cbn [existsb]. unfold visible at 2. rewrite Hc. exact IH.
Qed.

Lemma truthy_rev {A} (l : list A) :
  match rev l with [] => false | _ :: _ => true end
  = match l with [] => false | _ :: _ => true end.
Proof.
  destruct l as [|a l]; [reflexivity|]. cbn [rev].
  destruct (rev l); reflexivity.
Qed.

(** A text survives trimming exactly when it has a unit that is not white
    space. *)
Lemma truthy_trim (s : Upload.jsstring) :
  Upload.truthy (Upload.trim s) = existsb visible s.
Proof.
  unfold Upload.trim, Upload.trimEnd, Upload.truthy.
  rewrite truthy_rev. fold (Upload.truthy (Upload.trimStart (rev (Upload.trimStart s)))).
  now rewrite trimStart_empty, existsb_rev, existsb_trimStart.
Qed.
End Trim.

(** X4. The dialogue hands a folder to its owner exactly when the name has
    a unit that is not white space.  Then the name handed over is the name as
    typed (not trimmed), the form is reset to its defaults and the dialogue
    is closed.  Otherwise nothing is handed over, the dialogue stays open and
    the form keeps what was typed, with the error message set. *)
Theorem folder_dialogue_refuses_blank_names :
  forall f : FolderModal.Form,
    let form' := fst (fst (FolderModal.handleSubmit f)) in
    let sent := snd (fst (FolderModal.handleSubmit f)) in
    let closed := snd (FolderModal.handleSubmit f) in
    (sent <> None <-> existsb visible (FolderModal.folderName f) = true)
    /\ (forall d, sent = Some d ->
                  FolderModal.name d = FolderModal.folderName f
                  /\ FolderModal.color d = FolderModal.folderColor f
                  /\ FolderModal.icon d = FolderModal.folderIcon f
                  /\ form' = FolderModal.mkForm [] "#3498db" "folder" None
                  /\ closed = true)
    /\ (sent = None ->
        closed = false
        /\ FolderModal.folderName form' = FolderModal.folderName f
        /\ FolderModal.folderColor form' = FolderModal.folderColor f
        /\ FolderModal.folderIcon form' = FolderModal.folderIcon f
        /\ FolderModal.error form' = Some "Folder name is required"%string).
Proof.
  intros f form' sent closed. subst form' sent closed.
  unfold FolderModal.handleSubmit. rewrite truthy_trim.
  destruct (existsb visible (FolderModal.folderName f)); cbn.
  - split; [split; [reflexivity | discriminate]|].
    split; [intros d [= <-]; repeat split | discriminate].
  - split; [split; [intros H; now destruct H | discriminate]|].
    split; [discriminate | intros _; repeat split].
Qed.

(** ** Tags *)

Lemma tag_selected_spec (tagId : string) (tags : list string) :
  existsb (String.eqb tagId) tags = true <-> In tagId tags.
Proof.
  rewrite existsb_exists. split.
  - intros (x & Hin & Hx). apply String.eqb_eq in Hx. now subst.
  - intros Hin. exists tagId. split; [assumption | apply String.eqb_refl].
Qed.

(** X5. A toggle flips whether the tag is selected and nothing else: every
    other tag is selected afterwards exactly when it was before, the other
    tags keep their order, and a selection without repeats stays without
    repeats. *)
Theorem handleTagToggle_flips :
  forall (tagId : string) (selectedTags : list string),
    let tags' := Tags.handleTagToggle tagId selectedTags in
    (In tagId tags' <-> ~ In tagId selectedTags)
    /\ (forall other, other <> tagId -> (In other tags' <-> In other selectedTags))
    /\ filter (fun id => negb (String.eqb id tagId)) tags'
       = filter (fun id => negb (String.eqb id tagId)) selectedTags
    /\ (NoDup selectedTags -> NoDup tags').
Proof.
  intros tagId tags tags'. subst tags'. unfold Tags.handleTagToggle.
  destruct (existsb (String.eqb tagId) tags) eqn:Hsel.
  - apply tag_selected_spec in Hsel. repeat split.
    + intros Hin. apply filter_In in Hin as [_ Hne].
      rewrite String.eqb_refl in Hne. discriminate.
    + intros Hnot. contradiction.
    + intros Hin. now apply filter_In in Hin.
    + intros Hin. apply filter_In. split; [assumption|].
      apply negb_true_iff. now apply String.eqb_neq.
    + induction tags as [|t tags IH]; [reflexivity|]. cbn [filter].
      destruct (negb (String.eqb t tagId)) eqn:Ht; cbn [filter]; rewrite ?Ht.
      * f_equal.
        clear IH Hsel. induction tags as [|a l IHl]; [reflexivity|]. cbn [filter].
        destruct (negb (String.eqb a tagId)) eqn:Ha; cbn [filter]; rewrite ?Ha;
          [now f_equal | assumption].
      * clear IH Hsel. induction tags as [|a l IHl]; [reflexivity|]. cbn [filter].
        destruct (negb (String.eqb a tagId)) eqn:Ha; cbn [filter]; rewrite ?Ha;
          [now f_equal | assumption].
    + intros Hnd. now apply NoDup_filter.
  - assert (Hnot : ~ In tagId tags).
    { intros Hin. apply tag_selected_spec in Hin. congruence. }
    repeat split.
    + intros _. exact Hnot.
    + intros _. apply in_or_app. right. now left.
    + intros Hin. apply in_app_or in Hin as [Hin|[Heq|[]]]; [assumption | congruence].
    + intros Hin. apply in_or_app. now left.
    + rewrite filter_app. cbn [filter]. rewrite String.eqb_refl. cbn [negb].
      apply app_nil_r.
    + intros Hnd. apply NoDup_snoc; assumption.
Qed.

(** X21. A load of the bookmarks of a folder, for a signed-in user, ends
    with the loading flag off and touches nothing of the folder state.  When
    the reply brings bookmarks, the grid shows their comics in ascending
    [display_order] of the bookmarks; when it brings none the grid is
    emptied; when the call rejects the grid keeps the comics it showed, those
    of the folder shown before. *)
Theorem fetchBookmarksForFolder_shows_the_reply :
  forall (bookmarks_reply : BookmarksView.reply (list BookmarksView.Bookmark))
         (v : BookmarksView.View),
    Bookmarks.user (BookmarksView.page v) <> None ->
    let v' := BookmarksView.fetchBookmarksForFolder bookmarks_reply v in
    BookmarksView.folderLoading v' = false
    /\ BookmarksView.page v' = BookmarksView.page v
    /\ (forall bookmarks err,
           bookmarks_reply = BookmarksView.Resolved (Some bookmarks) err ->
           exists sorted,
             Permutation sorted bookmarks
             /\ Sorted Z.le (map BookmarksView.bookmark_order sorted)
             /\ BookmarksView.bookmarkedComics v' = map BookmarksView.comics sorted)
    /\ (forall err, bookmarks_reply = BookmarksView.Resolved None err ->
                    BookmarksView.bookmarkedComics v' = [])
    /\ (bookmarks_reply = BookmarksView.Thrown ->
        BookmarksView.bookmarkedComics v' = BookmarksView.bookmarkedComics v).
Proof.
  intros bookmarks_reply v Huser v'. subst v'.
  unfold BookmarksView.fetchBookmarksForFolder.
  destruct (Bookmarks.user (BookmarksView.page v)); [|contradiction].
  destruct bookmarks_reply as [[bs|] e|]; cbn.
  - split; [reflexivity|]. split; [reflexivity|]. split; [|split; intros; discriminate].
    intros bookmarks err Heq. injection Heq as <- _.
    exists (JSSort.sort BookmarksView.bookmark_order bs).
    split; [apply JSSortFacts.sort_perm|]. split; [apply JSSortFacts.sort_sorted | reflexivity].
  - split; [reflexivity|]. split; [reflexivity|].
    split; [intros; discriminate|]. split; [reflexivity | intros; discriminate].
  - split; [reflexivity|]. split; [reflexivity|].
    split; [intros; discriminate|]. split; [intros; discriminate | reflexivity].
Qed.

Lemma fetchBookmarksForFolder_shows_the_reply_witness :
  Bookmarks.user (BookmarksView.page MoreSamples.editing) <> None
  /\ BookmarksView.folderLoading
       (BookmarksView.fetchBookmarksForFolder BookmarksView.Thrown MoreSamples.editing)
     = false.
Proof.
  assert (Hu : Bookmarks.user (BookmarksView.page MoreSamples.editing) <> None)
    by (cbn; discriminate).
  split; [exact Hu|].
  exact (proj1 (fetchBookmarksForFolder_shows_the_reply BookmarksView.Thrown
                  MoreSamples.editing Hu)).
Defined.

(** ** What the wizard holds in every reachable state *)

Ltac wizard_fields :=
  cbn [Upload.user Upload.comicId Upload.currentStep Upload.isSubmitting Upload.error
       Upload.success Upload.coverImage Upload.comicPages Upload.pagePreviewUrls
       Upload.title Upload.artist Upload.dragItem Upload.dragOverItem Upload.pending
       Upload.coverPreview Upload.reading
       Upload.setError Upload.setSuccess Upload.setCurrentStep Upload.setIsSubmitting
       Upload.setCoverImage Upload.setComicPages Upload.setPagePreviewUrls
       Upload.setTitle Upload.setArtist Upload.set_drag_refs Upload.set_pending
       Upload.setCoverPreview Upload.set_reading] in *.

(** The data a submission leaves alone. *)
Lemma handleSubmit_data (env : Upload.Env) (w : Upload.Wizard) (store : list Upload.effect) :
  let w' := fst (fst (Upload.handleSubmit env w store)) in
  Upload.user w' = Upload.user w
  /\ Upload.comicId w' = Upload.comicId w
  /\ Upload.currentStep w' = Upload.currentStep w
  /\ Upload.coverImage w' = Upload.coverImage w
  /\ Upload.comicPages w' = Upload.comicPages w
  /\ Upload.title w' = Upload.title w
  /\ Upload.artist w' = Upload.artist w.
Proof.
  unfold Upload.handleSubmit.
  destruct (Upload.user w) eqn:Hu; [|cbn; repeat split; congruence].
  destruct (Upload.coverImage w) as [cover|] eqn:Hc; [|cbn; repeat split; congruence].
  destruct (_ || _); [cbn; repeat split; congruence|].
  destruct (Upload.submit_effects env _ cover w) as [[issued held] [msg|]];
    cbn; repeat split; congruence.
Qed.

Lemma handlePagesUpload_data (files : list Upload.File) (w : Upload.Wizard) :
  let w' := Upload.handlePagesUpload files w in
  Upload.user w' = Upload.user w
  /\ Upload.comicId w' = Upload.comicId w
  /\ Upload.currentStep w' = Upload.currentStep w
  /\ Upload.coverImage w' = Upload.coverImage w
  /\ Upload.title w' = Upload.title w
  /\ Upload.artist w' = Upload.artist w
  /\ (Upload.comicPages w' = Upload.comicPages w
      \/ (Upload.comicPages w' = Upload.comicPages w ++ map Some files
          /\ forallb Upload.is_image files = true
          /\ existsb (fun file => (5 * 1024 * 1024 <? Upload.size file)%N) files = false)).
Proof.
  unfold Upload.handlePagesUpload.
  destruct files as [|file files]; [repeat split; now left|].
  remember (file :: files) as selected.
  destruct (100 <? _); [repeat split; now left|].
  destruct (forallb Upload.is_image selected) eqn:Himg; cbn [negb];
    [|repeat split; now left].
  destruct (existsb _ selected) eqn:Hbig; [repeat split; now left|].
  repeat split. right. repeat split.
Qed.

Lemma handleCoverUpload_data (file : option Upload.File) (w : Upload.Wizard) :
  let w' := Upload.handleCoverUpload file w in
  Upload.user w' = Upload.user w
  /\ Upload.comicId w' = Upload.comicId w
  /\ Upload.currentStep w' = Upload.currentStep w
  /\ Upload.comicPages w' = Upload.comicPages w
  /\ Upload.title w' = Upload.title w
  /\ Upload.artist w' = Upload.artist w
  /\ (Upload.coverImage w' = Upload.coverImage w
      \/ exists f, file = Some f /\ Upload.coverImage w' = Some f /\ acceptable_cover f).
Proof.
  unfold Upload.handleCoverUpload.
  destruct file as [f|]; [|repeat split; now left].
  destruct (Upload.is_image f) eqn:Himg; cbn [negb]; [|repeat split; now left].
  destruct (N.ltb_spec (2 * 1024 * 1024) (Upload.size f)); [repeat split; now left|].
  repeat split. right. exists f. repeat split; assumption.
Qed.

Lemma steps_kept (e : Upload.event) (w : Upload.Wizard) :
  step_prerequisites w -> Upload.enabled e w = true -> step_prerequisites (Upload.fire e w).
Proof.
  unfold step_prerequisites, cover_selected.
  intros (Hrange & Hcover & Hpages & Htext) Hen.
  destruct e; cbn [Upload.fire Upload.enabled] in *.
  - apply andb_true_iff in Hen as [Hen _]. apply Z.eqb_eq in Hen.
    destruct (handleCoverUpload_data file w) as (_ & _ & Hs & Hp & Ht & Ha & _).
    rewrite Hs, Hp, Ht, Ha. repeat split; intros; try lia.
  - apply Z.eqb_eq in Hen.
    destruct (handlePagesUpload_data files w) as (_ & _ & Hs & Hc & Ht & Ha & _).
    rewrite Hs, Hc, Ht, Ha. repeat split; intros; try lia; auto.
  - unfold Upload.previewsLoaded. destruct (nth_error _ k); wizard_fields; auto.
  - unfold Upload.handleDragStart. wizard_fields. auto.
  - unfold Upload.handleDragEnter. wizard_fields. auto.
  - apply Z.eqb_eq in Hen. unfold Upload.handleDragEnd.
    destruct (Upload.dragItem w); [|auto]. destruct (Upload.dragOverItem w); [|auto].
    wizard_fields. repeat split; intros; try lia; auto.
  - unfold Upload.tile_shown in Hen. apply andb_true_iff in Hen as [Hen _].
    apply andb_true_iff in Hen as [Hen _]. apply Z.eqb_eq in Hen.
    unfold Upload.handleRemovePage. wizard_fields. repeat split; intros; try lia; auto.
  - apply Z.eqb_eq in Hen. wizard_fields. repeat split; intros; try lia; auto.
  - apply Z.eqb_eq in Hen. wizard_fields. repeat split; intros; try lia; auto.
  - apply Z.ltb_lt in Hen.
    destruct (goToNextStep_cases w) as [[Hg ->]|[Hg [msg ->]]]; wizard_fields; [|auto].
    unfold guard_without_bound, cover_selected in Hg.
    assert (Hstep : Upload.currentStep w = 1%Z \/ Upload.currentStep w = 2%Z
                    \/ Upload.currentStep w = 3%Z) by lia.
    destruct Hstep as [Hs|[Hs|Hs]]; rewrite Hs in *; cbn [Z.eqb Pos.eqb] in Hg.
    + repeat split; intros; try lia. exact Hg.
    + repeat split; intros; try lia;
        solve [ apply Hcover; lia
              | intros Hnil; rewrite Hnil in Hg; discriminate ].
    + apply andb_true_iff in Hg as [Ht Ha].
      repeat split; intros; try lia;
        solve [ apply Hcover; lia | apply Hpages; lia | assumption ].
  - apply andb_true_iff in Hen as [Hen _]. apply Z.ltb_lt in Hen.
    unfold Upload.goToPreviousStep. wizard_fields.
    repeat split; intros; try lia;
      solve [ apply Hcover; lia | apply Hpages; lia | apply Htext; lia ].
  - destruct (handleSubmit_data env w []) as (_ & _ & Hs & Hc & Hp & Ht & Ha).
    rewrite Hs, Hc, Hp, Ht, Ha. auto.
  - unfold Upload.coverLoaded. destruct (nth_error _ k); wizard_fields; auto.
  - apply andb_true_iff in Hen as [Hen _]. apply Z.eqb_eq in Hen.
    unfold Upload.handleRemoveCover. wizard_fields. repeat split; intros; try lia; auto.
Qed.

Lemma identity_kept (e : Upload.event) (w : Upload.Wizard) :
  Upload.user (Upload.fire e w) = Upload.user w
  /\ Upload.comicId (Upload.fire e w) = Upload.comicId w.
Proof.
  destruct e; cbn [Upload.fire].
  - destruct (handleCoverUpload_data file w) as (Hu & Hc & _). now split.
  - destruct (handlePagesUpload_data files w) as (Hu & Hc & _). now split.
  - unfold Upload.previewsLoaded. destruct (nth_error _ k); split; reflexivity.
  - split; reflexivity.
  - split; reflexivity.
  - unfold Upload.handleDragEnd.
    destruct (Upload.dragItem w); [|now split].
    destruct (Upload.dragOverItem w); split; reflexivity.
  - split; reflexivity.
  - split; reflexivity.
  - split; reflexivity.
  - destruct (goToNextStep_cases w) as [[_ ->]|[_ [msg ->]]]; split; reflexivity.
  - split; reflexivity.
  - destruct (handleSubmit_data env w []) as (Hu & Hc & _). now split.
  - unfold Upload.coverLoaded. destruct (nth_error _ k); split; reflexivity.
  - split; reflexivity.
Qed.

(** X6. In every state the wizard can reach, by the controls on screen
    (the button that removes the cover among them) and by the loads of the
    previews coming to their end, the step is between 1 and 4;
    from step 2 on a cover is chosen, from step 3 on there is at least one
    page, on step 4 title and artist are not blank.  So a signed-in user who
    presses Publish never meets the final validation: the submission starts
    with the upload of the cover. *)
Theorem wizard_steps_have_their_prerequisites :
  forall (u : option Upload.UUID) (cid : Upload.UUID) (w : Upload.Wizard),
    Upload.reachable u cid w ->
    Upload.user w = u
    /\ Upload.comicId w = cid
    /\ step_prerequisites w
    /\ (forall (env : Upload.Env) (store : list Upload.effect) (userId : Upload.UUID),
           u = Some userId ->
           Upload.enabled (Upload.Submit env) w = true ->
           exists cover rest,
             Upload.coverImage w = Some cover
             /\ snd (fst (Upload.handleSubmit env w store))
                = Upload.uploadComicCover userId cid cover :: rest).
Proof.
  intros u cid w Hreach.
  assert (Hinv : Upload.user w = u /\ Upload.comicId w = cid /\ step_prerequisites w).
  { induction Hreach as [|w e Hreach IH Hen].
    - unfold step_prerequisites, Upload.initial. wizard_fields.
      repeat split; intros; try reflexivity; lia.
    - destruct IH as (Hu & Hc & Hsteps).
      destruct (identity_kept e w) as [Hu' Hc'].
      split; [congruence|]. split; [congruence|]. now apply steps_kept. }
  destruct Hinv as (Hu & Hc & Hsteps).
  split; [assumption|]. split; [assumption|]. split; [assumption|].
  intros env store userId -> Hen. cbn [Upload.enabled] in Hen.
  apply andb_true_iff in Hen as [Hstep _]. apply negb_true_iff, Z.ltb_ge in Hstep.
  destruct Hsteps as (Hrange & Hcover & Hpages & Htext).
  specialize (Hcover ltac:(lia)). specialize (Hpages ltac:(lia)).
  destruct (Htext ltac:(lia)) as [Ht Ha].
  unfold cover_selected in Hcover.
  destruct (Upload.coverImage w) as [cover|] eqn:Hcov; [|discriminate].
  unfold Upload.handleSubmit. rewrite Hu, Hcov, Ht, Ha. cbn [negb orb].
  destruct (Upload.comicPages w) as [|cell cells] eqn:Hp; [contradiction|].
  cbn [length Nat.eqb].
  unfold Upload.submit_effects. rewrite Hc.
  destruct (Upload.cover_result env).
  + destruct (Upload.comic_result env).
    * destruct (Upload.upload_pages env userId cid 0 _) as [[issued held] thrown].
      cbn. eauto.
    * cbn. eauto.
    * cbn. eauto.
  + cbn. eauto.
  + cbn. eauto.
Qed.

(** ** More on array operations *)

Module JSArrayFacts2.
Import JSArray.
Section Facts.
Context {A : Type}.
Implicit Types (arr : list A) (i j n : nat).

Lemma In_firstn arr n (x : A) : In x (firstn n arr) -> In x arr.
Proof.
  revert n. induction arr as [|a arr IH]; intros [|n] Hin; cbn in *; try contradiction.
  destruct Hin as [->|Hin]; [now left | right; now apply (IH n)].
Qed.

Lemma In_skipn arr n (x : A) : In x (skipn n arr) -> In x arr.
Proof.
  revert n. induction arr as [|a arr IH]; intros [|n] Hin; cbn in *; try contradiction.
  - assumption.
  - right. now apply (IH n).
Qed.

Lemma In_splice_remove arr i (x : A) : In x (splice_remove i arr) -> In x arr.
Proof.
  unfold splice_remove. intros Hin. apply in_app_or in Hin as [Hin|Hin].
  - now apply In_firstn in Hin.
  - now apply In_skipn in Hin.
Qed.

Lemma In_splice_insert arr j (x y : A) :
  In x (splice_insert j y arr) -> x = y \/ In x arr.
Proof.
  unfold splice_insert. intros Hin. apply in_app_or in Hin as [Hin|[<-|Hin]].
  - right. now apply In_firstn in Hin.
  - now left.
  - right. now apply In_skipn in Hin.
Qed.

Lemma splice_insert_has arr j (y : A) : In y (splice_insert j y arr).
Proof. unfold splice_insert. apply in_or_app. right. now left. Qed.

Lemma In_move undefined arr i j (x : A) :
  In x (move undefined i j arr) -> x = undefined \/ In x arr.
Proof.
  unfold move, get. intros Hin. apply In_splice_insert in Hin as [->|Hin].
  - destruct (Nat.lt_ge_cases i (length arr)) as [Hi|Hi].
    + right. now apply nth_In.
    + left. now apply nth_overflow.
  - right. now apply In_splice_remove in Hin.
Qed.

(** A source index past the end: nothing is taken out, and [undefined] is
    put in. *)
Lemma move_past_the_end undefined arr i j :
  length arr <= i -> move undefined i j arr = splice_insert j undefined arr.
Proof.
  intros Hi. unfold move, get.
  rewrite JSArrayFacts.splice_remove_out_of_range by assumption.
  now rewrite nth_overflow.
Qed.

(** What is where after [splice(i, 1)]. *)
Lemma splice_remove_nth_error arr i n :
  nth_error (splice_remove i arr) n
  = if n <? i then nth_error arr n else nth_error arr (S n).
Proof.
  unfold splice_remove. rewrite nth_error_app, length_firstn.
  rewrite nth_error_firstn, nth_error_skipn.
  destruct (Nat.ltb_spec n (Nat.min i (length arr))) as [Hlt|Hge].
  - destruct (Nat.ltb_spec n i); [reflexivity | lia].
  - destruct (Nat.ltb_spec n i) as [Hn|Hn].
    + assert (length arr <= n) by lia.
      transitivity (@None A); [|symmetry]; apply nth_error_None; lia.
    + destruct (Nat.le_gt_cases i (length arr)).
      * f_equal. lia.
      * transitivity (@None A); [|symmetry]; apply nth_error_None; lia.
Qed.

Lemma mapi_from_In {B} (f : A -> nat -> B) arr (x : A) :
  In x arr -> forall k, exists n, In (f x n) (mapi_from f k arr).
Proof.
  induction arr as [|a arr IH]; intros Hin k; [contradiction|].
  cbn [mapi_from]. destruct Hin as [->|Hin].
  - exists k. now left.
  - destruct (IH Hin (S k)) as [n Hn]. exists n. now right.
Qed.

Lemma filter_out_one (p : A -> bool) arr i (x : A) :
  nth_error arr i = Some x -> p x = false ->
  (forall n y, nth_error arr n = Some y -> n <> i -> p y = true) ->
  filter p arr = splice_remove i arr.
Proof.
  revert i. induction arr as [|a arr IH]; intros [|i] Hx Hp Hothers; cbn in Hx; try discriminate.
  - injection Hx as ->. cbn [filter]. rewrite Hp. unfold splice_remove. cbn.
    apply forallb_filter_id. apply forallb_forall. intros y Hy.
    apply In_nth_error in Hy as [n Hn]. apply (Hothers (S n) y); [exact Hn | lia].
  - cbn [filter]. rewrite (Hothers 0 a eq_refl) by lia.
    unfold splice_remove. cbn. f_equal. apply (IH i Hx Hp).
    intros n y Hn Hni. apply (Hothers (S n) y); [exact Hn | lia].
Qed.
End Facts.
End JSArrayFacts2.

(** ** The files the wizard holds *)

Lemma acceptable_undefined : acceptable_page None.
Proof. intros file H. discriminate. Qed.

Lemma selected_pages_acceptable (files : list Upload.File) :
  forallb Upload.is_image files = true ->
  existsb (fun file => (5 * 1024 * 1024 <? Upload.size file)%N) files = false ->
  Forall acceptable_page (map Some files).
Proof.
  intros Himg Hbig. apply Forall_forall. intros cell Hin.
  apply in_map_iff in Hin as (f & <- & Hf). intros file [= <-]. split.
  - rewrite forallb_forall in Himg. now apply Himg.
  - destruct (N.ltb_spec (5 * 1024 * 1024) (Upload.size f)) as [Hlt|Hle]; [|assumption].
    assert (existsb (fun file => (5 * 1024 * 1024 <? Upload.size file)%N) files = true).
    { apply existsb_exists. exists f. split; [assumption|]. now apply N.ltb_lt. }
    congruence.
Qed.

Lemma files_kept (e : Upload.event) (w : Upload.Wizard) :
  files_acceptable w -> files_acceptable (Upload.fire e w).
Proof.
  unfold files_acceptable. intros [Hcover Hpages].
  destruct e; cbn [Upload.fire]; try (split; assumption).
  - destruct (handleCoverUpload_data file w) as (_ & _ & _ & Hp & _ & _ & Hc).
    rewrite Hp. split; [|assumption].
    destruct Hc as [->|(f & _ & -> & Hok)]; [assumption|].
    now intros file' [= <-].
  - destruct (handlePagesUpload_data files w) as (_ & _ & _ & Hc & _ & _ & Hp).
    rewrite Hc. split; [assumption|].
    destruct Hp as [->|(-> & Himg & Hbig)]; [assumption|].
    apply Forall_app. split; [assumption|]. now apply selected_pages_acceptable.
  - unfold Upload.previewsLoaded. destruct (nth_error _ k); split; assumption.
  - unfold Upload.handleDragEnd.
    destruct (Upload.dragItem w) as [from|]; [|split; assumption].
    destruct (Upload.dragOverItem w) as [to|]; [|split; assumption].
    wizard_fields. split; [assumption|].
    apply Forall_forall. intros cell Hin.
    apply JSArrayFacts2.In_move in Hin as [->|Hin]; [apply acceptable_undefined|].
    rewrite Forall_forall in Hpages. now apply Hpages.
  - unfold Upload.handleRemovePage. wizard_fields. split; [assumption|].
    apply Forall_forall. intros cell Hin. apply JSArrayFacts2.In_splice_remove in Hin.
    rewrite Forall_forall in Hpages. now apply Hpages.
  - destruct (goToNextStep_cases w) as [[_ ->]|[_ [msg ->]]]; split; assumption.
  - destruct (handleSubmit_data env w []) as (_ & _ & _ & Hc & Hp & _).
    rewrite Hc, Hp. split; assumption.
  - unfold Upload.coverLoaded. destruct (nth_error _ k); split; assumption.
  - unfold Upload.handleRemoveCover. wizard_fields. split; [|assumption].
    intros file H. discriminate.
Qed.

(** X7. In every state the wizard can reach, the cover it holds is an
    image of at most 2 MB and every page file it holds is an image of at
    most 5 MB: a file that fails a check never gets into the state, and
    removing the cover and removing and reordering pages bring in no file. *)
Theorem wizard_holds_only_checked_files :
  forall (u : option Upload.UUID) (cid : Upload.UUID) (w : Upload.Wizard),
    Upload.reachable u cid w ->
    (forall file, Upload.coverImage w = Some file ->
                  Upload.is_image file = true /\ (Upload.size file <= 2 * 1024 * 1024)%N)
    /\ (forall file, In (Some file) (Upload.comicPages w) ->
                     Upload.is_image file = true
                     /\ (Upload.size file <= 5 * 1024 * 1024)%N).
Proof.
  intros u cid w Hreach.
  assert (Hinv : files_acceptable w).
  { induction Hreach as [|w e Hreach IH Hen].
    - split; [intros file H; discriminate | constructor].
    - now apply files_kept. }
  destruct Hinv as [Hcover Hpages]. split; [exact Hcover|].
  intros file Hin. rewrite Forall_forall in Hpages. now apply (Hpages (Some file) Hin).
Qed.

(** ** Drops and removals at the edge of the arrays *)

(** X8. A drop whose source index lies past the end of an array takes
    nothing out of it and puts an undefined cell in at the target: in the
    wizard [comicPages] grows by one; on the folder page the list grows by one
    folder that has no id. *)
Theorem stray_drop_adds_a_cell :
  forall (w : Upload.Wizard) (env : nat -> Bookmarks.outcome) (p : Bookmarks.Page)
         (from to : nat),
    (Upload.dragItem w = Some from -> Upload.dragOverItem w = Some to ->
     length (Upload.comicPages w) <= from ->
     Upload.comicPages (Upload.handleDragEnd w)
     = JSArray.splice_insert to None (Upload.comicPages w)
     /\ length (Upload.comicPages (Upload.handleDragEnd w)) = S (length (Upload.comicPages w)))
    /\
    (Bookmarks.dragItem p = Some from -> Bookmarks.dragOverItem p = Some to ->
     length (Bookmarks.folders p) <= from ->
     let fs' := Bookmarks.folders (fst (Bookmarks.handleDragEnd env p)) in
     length fs' = S (length (Bookmarks.folders p))
     /\ exists f, In f fs' /\ Bookmarks.id f = None).
Proof.
  intros w env p from to. split.
  - intros Hfrom Hto Hout.
    destruct (handleDragEnd_pages w from to Hfrom Hto) as [-> _].
    rewrite JSArrayFacts2.move_past_the_end by assumption.
    split; [reflexivity | apply JSArrayFacts.splice_insert_length].
  - intros Hfrom Hto Hout fs'. subst fs'.
    rewrite (handleDragEnd_folders env p from to Hfrom Hto).
    unfold Bookmarks.reorder_folders, JSArray.mapi.
    rewrite JSArrayFacts2.move_past_the_end by assumption. split.
    + rewrite JSArrayFacts.mapi_from_length. apply JSArrayFacts.splice_insert_length.
    + destruct (JSArrayFacts2.mapi_from_In Bookmarks.with_display_order
                  (JSArray.splice_insert to Bookmarks.undefined_folder (Bookmarks.folders p))
                  Bookmarks.undefined_folder
                  (JSArrayFacts2.splice_insert_has _ _ _) 0) as [n Hn].
      exists (Bookmarks.with_display_order Bookmarks.undefined_folder n).
      split; [exact Hn | reflexivity].
Qed.

(** X9. Removing the tile at an index: the cells before it stay where they
    are and every later cell moves down by one, in the page files and in the
    previews alike; an index past the end of an array leaves that array as it
    is. *)
Theorem handleRemovePage_shifts :
  forall (index : nat) (w : Upload.Wizard) (n : nat),
    let w' := Upload.handleRemovePage index w in
    nth_error (Upload.comicPages w') n
    = (if n <? index then nth_error (Upload.comicPages w) n
       else nth_error (Upload.comicPages w) (S n))
    /\ nth_error (Upload.pagePreviewUrls w') n
       = (if n <? index then nth_error (Upload.pagePreviewUrls w) n
          else nth_error (Upload.pagePreviewUrls w) (S n))
    /\ (length (Upload.comicPages w) <= index -> Upload.comicPages w' = Upload.comicPages w)
    /\ (length (Upload.pagePreviewUrls w) <= index ->
        Upload.pagePreviewUrls w' = Upload.pagePreviewUrls w).
Proof.
  intros index w n w'. subst w'. unfold Upload.handleRemovePage. wizard_fields.
  repeat split.
  - apply JSArrayFacts2.splice_remove_nth_error.
  - apply JSArrayFacts2.splice_remove_nth_error.
  - apply JSArrayFacts.splice_remove_out_of_range.
  - apply JSArrayFacts.splice_remove_out_of_range.
Qed.

(** ** Creating and deleting folders *)

Lemma delete_proceeds (folderId : Bookmarks.UUID) (p : Bookmarks.Page) (uid : Bookmarks.UUID) :
  Bookmarks.user p = Some uid ->
  (forall f, find (Bookmarks.id_is folderId) (Bookmarks.folders p) = Some f ->
             Bookmarks.is_default f = false) ->
  forall result,
    Bookmarks.handleDeleteFolder result folderId p
    = match result with
      | Bookmarks.Fulfilled =>
          let remainingFolders :=
            filter (fun f => negb (Bookmarks.id_is folderId f)) (Bookmarks.folders p) in
          let stats := Bookmarks.bookmarkStats p in
          let p1 :=
            Bookmarks.setSuccess "Folder deleted successfully."
              (Bookmarks.setBookmarkStats
                 (Bookmarks.mkStats (Bookmarks.total_folders stats - 1)
                    (Bookmarks.total_bookmarks stats)
                    (Bookmarks.folders_remaining stats + 1))
                 (Bookmarks.setFolders remainingFolders p)) in
          if Bookmarks.same_id (Bookmarks.activeFolder p) folderId
             && (0 <? length (Bookmarks.folders p))
          then
            match remainingFolders with
            | first :: _ =>
                (Bookmarks.setActiveFolder (Bookmarks.id first) p1,
                 [Bookmarks.deleteBookmarkFolder folderId;
                  Bookmarks.fetchBookmarksForFolder (Bookmarks.id first);
                  Bookmarks.routerPush (Bookmarks.id first)])
            | [] => (p1, [Bookmarks.deleteBookmarkFolder folderId])
            end
          else (p1, [Bookmarks.deleteBookmarkFolder folderId])
      | _ =>
          (Bookmarks.setError "Failed to delete folder. Please try again." p,
           [Bookmarks.deleteBookmarkFolder folderId])
      end.
Proof.
  intros Huser Hnot result. unfold Bookmarks.handleDeleteFolder. rewrite Huser.
  destruct (find (Bookmarks.id_is folderId) (Bookmarks.folders p)) as [f|] eqn:Hfind.
  - rewrite (Hnot f eq_refl). destruct result; reflexivity.
  - destruct result; reflexivity.
Qed.

Lemma same_id_spec (a : option Bookmarks.UUID) (folderId : Bookmarks.UUID) :
  Bookmarks.same_id a folderId = true <-> a = Some folderId.
Proof.
  unfold Bookmarks.same_id. destruct a as [i|]; [|split; discriminate].
  rewrite N.eqb_eq. split; [now intros -> | now intros [= ->]].
Qed.

Lemma id_is_spec (folderId : Bookmarks.UUID) (f : Bookmarks.Folder) :
  Bookmarks.id_is folderId f = true <-> Bookmarks.id f = Some folderId.
Proof. apply same_id_spec. Qed.

(** X10. A delete that goes through, for a signed-in user and a folder
    that is not a default folder: no folder with that id is left, every other
    folder is still listed, and when folders are left the active folder is not
    the deleted one (it moves to the first folder left when it was).  A
    delete that fails leaves everything but the error message as it was. *)
Theorem handleDeleteFolder_removes_the_folder :
  forall (folderId uid : Bookmarks.UUID) (p : Bookmarks.Page),
    Bookmarks.user p = Some uid ->
    (forall f, find (Bookmarks.id_is folderId) (Bookmarks.folders p) = Some f ->
               Bookmarks.is_default f = false) ->
    let p' := fst (Bookmarks.handleDeleteFolder Bookmarks.Fulfilled folderId p) in
    (forall f, In f (Bookmarks.folders p') <->
               In f (Bookmarks.folders p) /\ Bookmarks.id f <> Some folderId)
    /\ (Bookmarks.folders p' <> [] -> Bookmarks.activeFolder p' <> Some folderId)
    /\ (Bookmarks.activeFolder p <> Some folderId ->
        Bookmarks.activeFolder p' = Bookmarks.activeFolder p)
    /\ (forall result, result <> Bookmarks.Fulfilled ->
                       fst (Bookmarks.handleDeleteFolder result folderId p)
                       = Bookmarks.setError "Failed to delete folder. Please try again." p).
Proof.
  intros folderId uid p Huser Hnot p'. subst p'.
  rewrite (delete_proceeds folderId p uid Huser Hnot). cbn zeta.
  set (remaining := filter (fun f => negb (Bookmarks.id_is folderId f)) (Bookmarks.folders p)).
  assert (Hin : forall f, In f remaining <->
                          In f (Bookmarks.folders p) /\ Bookmarks.id f <> Some folderId).
  { intros f. unfold remaining. rewrite filter_In, negb_true_iff.
    rewrite <- id_is_spec. destruct (Bookmarks.id_is folderId f); intuition congruence. }
  assert (Hfolders : forall q, Bookmarks.folders
                       (fst (if Bookmarks.same_id (Bookmarks.activeFolder p) folderId
                                && (0 <? length (Bookmarks.folders p))
                             then match remaining with
                                  | first :: _ =>
                                      (Bookmarks.setActiveFolder (Bookmarks.id first) q,
                                       [Bookmarks.deleteBookmarkFolder folderId;
                                        Bookmarks.fetchBookmarksForFolder (Bookmarks.id first);
                                        Bookmarks.routerPush (Bookmarks.id first)])
                                  | [] => (q, [Bookmarks.deleteBookmarkFolder folderId])
                                  end
                             else (q, [Bookmarks.deleteBookmarkFolder folderId])))
                     = Bookmarks.folders q).
  { intros q. destruct (_ && _); [|reflexivity]. destruct remaining; reflexivity. }
  split; [|split; [|split]].
  - intros f. rewrite Hfolders. cbn. apply Hin.
  - rewrite Hfolders.
    cbn [Bookmarks.folders Bookmarks.setSuccess Bookmarks.setBookmarkStats
         Bookmarks.setFolders].
    intros Hleft.
    destruct remaining as [|first rest] eqn:Hrem; [contradiction|].
    assert (Hfirst : Bookmarks.id first <> Some folderId).
    { apply (Hin first). now left. }
    assert (Hlen : (0 <? length (Bookmarks.folders p)) = true).
    { assert (Hold : In first (Bookmarks.folders p)) by (apply (Hin first); now left).
      destruct (Bookmarks.folders p); [contradiction | reflexivity]. }
    rewrite Hlen, andb_true_r.
    destruct (Bookmarks.same_id (Bookmarks.activeFolder p) folderId) eqn:Hact.
    + exact Hfirst.
    + cbn. intros Heq. apply same_id_spec in Heq. congruence.
  - intros Hother.
    destruct (Bookmarks.same_id (Bookmarks.activeFolder p) folderId) eqn:Hact.
    + apply same_id_spec in Hact. contradiction.
    + reflexivity.
  - intros result Hres. rewrite (delete_proceeds folderId p uid Huser Hnot).
    destruct result; [contradiction | reflexivity | reflexivity].
Qed.

(** X11. Creating and deleting folders keep the sum of the folder count
    and the number of folders left, and the bookmark count, as they are,
    however the calls end. *)
Theorem folder_statistics_are_conserved :
  forall (result : Bookmarks.outcome) (folderId fresh : Bookmarks.UUID)
         (folder_name : string) (p : Bookmarks.Page) (db : Schema.folder_db),
    let budget := fun q : Bookmarks.Page =>
      (Bookmarks.total_folders (Bookmarks.bookmarkStats q)
       + Bookmarks.folders_remaining (Bookmarks.bookmarkStats q))%Z in
    let deleted := fst (Bookmarks.handleDeleteFolder result folderId p) in
    let created := fst (fst (Bookmarks.handleCreateFolder fresh folder_name p db)) in
    budget deleted = budget p
    /\ budget created = budget p
    /\ Bookmarks.total_bookmarks (Bookmarks.bookmarkStats deleted)
       = Bookmarks.total_bookmarks (Bookmarks.bookmarkStats p)
    /\ Bookmarks.total_bookmarks (Bookmarks.bookmarkStats created)
       = Bookmarks.total_bookmarks (Bookmarks.bookmarkStats p).
Proof.
  intros result folderId fresh folder_name p db budget deleted created.
  subst budget deleted created.
  assert (Hdel : forall q calls,
             (q, calls) = Bookmarks.handleDeleteFolder result folderId p ->
             Bookmarks.bookmarkStats q = Bookmarks.bookmarkStats p
             \/ Bookmarks.bookmarkStats q
                = Bookmarks.mkStats
                    (Bookmarks.total_folders (Bookmarks.bookmarkStats p) - 1)
                    (Bookmarks.total_bookmarks (Bookmarks.bookmarkStats p))
                    (Bookmarks.folders_remaining (Bookmarks.bookmarkStats p) + 1)).
  { intros q calls. unfold Bookmarks.handleDeleteFolder.
    destruct (Bookmarks.user p); [|intros [= -> _]; now left].
    destruct (match find _ _ with Some f => Bookmarks.is_default f | None => false end);
      [intros [= -> _]; now left|].
    destruct result; try (intros [= -> _]; now left).
    destruct (_ && _); [|intros [= -> _]; now right].
    destruct (filter _ _); intros [= -> _]; now right. }
  assert (Hcre : forall q calls db',
             (q, calls, db') = Bookmarks.handleCreateFolder fresh folder_name p db ->
             Bookmarks.bookmarkStats q = Bookmarks.bookmarkStats p
             \/ Bookmarks.bookmarkStats q
                = Bookmarks.mkStats
                    (Bookmarks.total_folders (Bookmarks.bookmarkStats p) + 1)
                    (Bookmarks.total_bookmarks (Bookmarks.bookmarkStats p))
                    (Bookmarks.folders_remaining (Bookmarks.bookmarkStats p) - 1)).
  { intros q calls db'. unfold Bookmarks.handleCreateFolder.
    destruct (Bookmarks.user p); [|intros [= -> _ _]; now left].
    destruct (_ <=? 0)%Z; [intros [= -> _ _]; now left|].
    destruct (Schema.insert_bookmark_folder _ _); intros [= -> _ _]; [now right | now left]. }
  destruct (Bookmarks.handleDeleteFolder result folderId p) as [q1 c1] eqn:H1.
  destruct (Bookmarks.handleCreateFolder fresh folder_name p db) as [[q2 c2] d2] eqn:H2.
  cbn [fst].
  destruct (Hdel q1 c1 eq_refl) as [-> | ->], (Hcre q2 c2 d2 eq_refl) as [-> | ->];
    cbn; repeat split; lia.
Qed.

Lemma create_proceeds (fresh uid : Bookmarks.UUID) (folder_name : string)
    (p : Bookmarks.Page) (db db' : Schema.folder_db) :
  Bookmarks.user p = Some uid ->
  (0 < Bookmarks.folders_remaining (Bookmarks.bookmarkStats p))%Z ->
  Schema.insert_bookmark_folder db
    (Bookmarks.new_folder_row fresh uid folder_name
       (Z.of_nat (length (Bookmarks.folders p)))) = Schema.Done db' ->
  let order := Z.of_nat (length (Bookmarks.folders p)) in
  let stats := Bookmarks.bookmarkStats p in
  fst (fst (Bookmarks.handleCreateFolder fresh folder_name p db))
  = Bookmarks.setActiveFolder (Some fresh)
      (Bookmarks.setSuccess (Bookmarks.created_message folder_name)
         (Bookmarks.setBookmarkStats
            (Bookmarks.mkStats (Bookmarks.total_folders stats + 1)
               (Bookmarks.total_bookmarks stats)
               (Bookmarks.folders_remaining stats - 1))
            (Bookmarks.setFolders
               (Bookmarks.folders p
                ++ [Bookmarks.mkFolder (Some fresh) folder_name false order]) p))).
Proof.
  intros Huser Hleft Hins. unfold Bookmarks.handleCreateFolder. rewrite Huser.
  destruct (Z.leb_spec (Bookmarks.folders_remaining (Bookmarks.bookmarkStats p)) 0); [lia|].
  rewrite Hins. reflexivity.
Qed.

Lemma filter_keeps_others (folderId : Bookmarks.UUID) (fs : list Bookmarks.Folder) :
  (forall f, In f fs -> Bookmarks.id f <> Some folderId) ->
  filter (fun f => negb (Bookmarks.id_is folderId f)) fs = fs.
Proof.
  intros Hnone. apply forallb_filter_id. apply forallb_forall. intros f Hin.
  apply negb_true_iff. destruct (Bookmarks.id_is folderId f) eqn:Hf; [|reflexivity].
  apply id_is_spec in Hf. now destruct (Hnone f Hin).
Qed.

(** X12. Creating a folder and deleting it again, both going through,
    gives back the folder list and the statistics.  The active folder does not
    come back: it is the first folder of the list, and when the list is empty
    it still names the folder that is gone. *)
Theorem create_then_delete_restores_the_list :
  forall (fresh uid : Bookmarks.UUID) (folder_name : string)
         (p : Bookmarks.Page) (db db' : Schema.folder_db),
    Bookmarks.user p = Some uid ->
    (0 < Bookmarks.folders_remaining (Bookmarks.bookmarkStats p))%Z ->
    Schema.insert_bookmark_folder db
      (Bookmarks.new_folder_row fresh uid folder_name
         (Z.of_nat (length (Bookmarks.folders p)))) = Schema.Done db' ->
    (forall f, In f (Bookmarks.folders p) -> Bookmarks.id f <> Some fresh) ->
    let created := fst (fst (Bookmarks.handleCreateFolder fresh folder_name p db)) in
    let deleted := fst (Bookmarks.handleDeleteFolder Bookmarks.Fulfilled fresh created) in
    Bookmarks.folders deleted = Bookmarks.folders p
    /\ Bookmarks.bookmarkStats deleted = Bookmarks.bookmarkStats p
    /\ Bookmarks.activeFolder deleted
       = match Bookmarks.folders p with
         | first :: _ => Bookmarks.id first
         | [] => Some fresh
         end.
Proof.
  intros fresh uid folder_name p db db' Huser Hleft Hins Hfresh created deleted.
  subst deleted created.
  rewrite (create_proceeds fresh uid folder_name p db db' Huser Hleft Hins). cbn zeta.
  set (new := Bookmarks.mkFolder (Some fresh) folder_name false
                (Z.of_nat (length (Bookmarks.folders p)))).
  assert (Hfind : forall f,
             find (Bookmarks.id_is fresh) (Bookmarks.folders p ++ [new]) = Some f ->
             Bookmarks.is_default f = false).
  { intros f Hf. apply find_some in Hf as [Hin Hid]. apply id_is_spec in Hid.
    apply in_app_or in Hin as [Hin|[<-|[]]]; [|reflexivity].
    now destruct (Hfresh f Hin). }
  assert (Hfilter : filter (fun f => negb (Bookmarks.id_is fresh f))
                      (Bookmarks.folders p ++ [new]) = Bookmarks.folders p).
  { rewrite filter_app, (filter_keeps_others fresh _ Hfresh). cbn [filter].
    assert (Hnew : Bookmarks.id_is fresh new = true) by (apply id_is_spec; reflexivity).
    rewrite Hnew. cbn [negb]. apply app_nil_r. }
  assert (Hstats : Bookmarks.mkStats
                     (Bookmarks.total_folders (Bookmarks.bookmarkStats p) + 1 - 1)
                     (Bookmarks.total_bookmarks (Bookmarks.bookmarkStats p))
                     (Bookmarks.folders_remaining (Bookmarks.bookmarkStats p) - 1 + 1)
                   = Bookmarks.bookmarkStats p).
  { destruct (Bookmarks.bookmarkStats p) as [a b c]. cbn. f_equal; lia. }
  rewrite (delete_proceeds fresh _ uid); [|exact Huser|exact Hfind].
  cbn [Bookmarks.activeFolder Bookmarks.folders Bookmarks.bookmarkStats
       Bookmarks.setActiveFolder Bookmarks.setSuccess Bookmarks.setBookmarkStats
       Bookmarks.setFolders Bookmarks.total_folders Bookmarks.total_bookmarks
       Bookmarks.folders_remaining Bookmarks.same_id].
  rewrite N.eqb_refl, Hfilter, Hstats, length_app. cbn [length andb].
  replace (0 <? length (Bookmarks.folders p) + 1) with true
    by (symmetry; apply Nat.ltb_lt; lia).
  destruct (Bookmarks.folders p) as [|first rest]; repeat split.
Qed.

Lemma nth_error_positions (fs : list Bookmarks.Folder) (n : nat) (f : Bookmarks.Folder) :
  positions_in_order fs -> nth_error fs n = Some f ->
  Bookmarks.display_order f = Z.of_nat n.
Proof.
  unfold positions_in_order. intros Hpos Hn.
  assert (Hm : nth_error (map Bookmarks.display_order fs) n
               = Some (Bookmarks.display_order f)) by (now apply map_nth_error).
  rewrite Hpos in Hm. rewrite nth_error_map, nth_error_seq in Hm.
  assert (Hlt : n < length fs) by (apply nth_error_Some; congruence).
  destruct (Nat.ltb_spec n (length fs)); [|lia]. cbn in Hm. congruence.
Qed.

(** X13. Folders carrying the positions 0..N-1, ids all different: when a
    folder other than the last is deleted and a folder is created afterwards,
    both going through, the new folder gets position N-1, the position the
    last of the old folders still has; the positions are no longer all
    different. *)
Theorem delete_then_create_repeats_a_position :
  forall (folderId fresh uid : Bookmarks.UUID) (folder_name : string)
         (p : Bookmarks.Page) (db db' : Schema.folder_db)
         (k : nat) (f last_folder : Bookmarks.Folder),
    Bookmarks.user p = Some uid ->
    positions_in_order (Bookmarks.folders p) ->
    NoDup (map Bookmarks.id (Bookmarks.folders p)) ->
    nth_error (Bookmarks.folders p) k = Some f ->
    Bookmarks.id f = Some folderId ->
    Bookmarks.is_default f = false ->
    S k < length (Bookmarks.folders p) ->
    nth_error (Bookmarks.folders p) (length (Bookmarks.folders p) - 1) = Some last_folder ->
    let deleted := fst (Bookmarks.handleDeleteFolder Bookmarks.Fulfilled folderId p) in
    (0 < Bookmarks.folders_remaining (Bookmarks.bookmarkStats deleted))%Z ->
    Schema.insert_bookmark_folder db
      (Bookmarks.new_folder_row fresh uid folder_name
         (Z.of_nat (length (Bookmarks.folders deleted)))) = Schema.Done db' ->
    let created := fst (fst (Bookmarks.handleCreateFolder fresh folder_name deleted db)) in
    Bookmarks.folders created
    = JSArray.splice_remove k (Bookmarks.folders p)
      ++ [Bookmarks.mkFolder (Some fresh) folder_name false
            (Z.of_nat (length (Bookmarks.folders p) - 1))]
    /\ In last_folder (JSArray.splice_remove k (Bookmarks.folders p))
    /\ Bookmarks.display_order last_folder = Z.of_nat (length (Bookmarks.folders p) - 1)
    /\ ~ NoDup (map Bookmarks.display_order (Bookmarks.folders created)).
Proof.
  intros folderId fresh uid folder_name p db db' k f last_folder
         Huser Hpos Hnd Hk Hid Hdef Hlen Hlast deleted.
  assert (Hfind : forall g, find (Bookmarks.id_is folderId) (Bookmarks.folders p) = Some g ->
                            Bookmarks.is_default g = false).
  { intros g Hg.
    rewrite (find_by_unique_id folderId (Bookmarks.folders p) f Hnd
               (nth_error_In _ _ Hk) Hid) in Hg. now injection Hg as <-. }
  assert (Hrem : filter (fun g => negb (Bookmarks.id_is folderId g)) (Bookmarks.folders p)
                 = JSArray.splice_remove k (Bookmarks.folders p)).
  { apply (JSArrayFacts2.filter_out_one _ _ k f Hk).
    - apply negb_false_iff. now apply id_is_spec.
    - intros n g Hn Hneq. apply negb_true_iff.
      destruct (Bookmarks.id_is folderId g) eqn:Hg; [|reflexivity].
      apply id_is_spec in Hg. exfalso. apply Hneq.
      apply (proj1 (NoDup_nth_error (map Bookmarks.id (Bookmarks.folders p))) Hnd).
      + rewrite length_map. apply nth_error_Some. congruence.
      + rewrite !nth_error_map, Hn, Hk. cbn. congruence. }
  assert (Hdeleted : Bookmarks.folders deleted = JSArray.splice_remove k (Bookmarks.folders p)
                     /\ Bookmarks.user deleted = Some uid).
  { subst deleted. rewrite (delete_proceeds folderId p uid Huser Hfind). cbn zeta.
    rewrite Hrem.
    destruct (_ && _); [|split; [reflexivity | exact Huser]].
    destruct (JSArray.splice_remove k (Bookmarks.folders p)); split;
      try reflexivity; exact Huser. }
  destruct Hdeleted as [Hfs Hu]. intros Hleft Hins created. subst created.
  rewrite (create_proceeds fresh uid folder_name deleted db db' Hu Hleft Hins). cbn zeta.
  cbn [Bookmarks.folders Bookmarks.setActiveFolder Bookmarks.setSuccess
       Bookmarks.setBookmarkStats Bookmarks.setFolders].
  rewrite Hfs.
  assert (Hn1 : length (JSArray.splice_remove k (Bookmarks.folders p))
                = length (Bookmarks.folders p) - 1).
  { apply JSArrayFacts.splice_remove_length. lia. }
  rewrite Hn1.
  assert (Hin : In last_folder (JSArray.splice_remove k (Bookmarks.folders p))).
  { apply (nth_error_In _ (length (Bookmarks.folders p) - 2)).
    rewrite JSArrayFacts2.splice_remove_nth_error.
    destruct (Nat.ltb_spec (length (Bookmarks.folders p) - 2) k); [lia|].
    rewrite <- Hlast. f_equal. lia. }
  assert (Hord : Bookmarks.display_order last_folder
                 = Z.of_nat (length (Bookmarks.folders p) - 1)).
  { now apply (nth_error_positions (Bookmarks.folders p)). }
  split; [reflexivity|]. split; [exact Hin|]. split; [exact Hord|].
  rewrite map_app. cbn [map Bookmarks.display_order]. intros Hnodup.
  apply NoDup_remove_2 in Hnodup. apply Hnodup. rewrite app_nil_r.
  rewrite <- Hord. now apply in_map.
Qed.

(** ** Storage paths *)

Section Strings.
Open Scope string_scope.

Lemma append_cancel (s a b : string) : s ++ a = s ++ b -> a = b.
Proof.
  induction s as [|c s IH]; cbn; [trivial|]. intros [= H]. now apply IH.
Qed.

Lemma append_associative (a b c : string) : (a ++ b) ++ c = a ++ (b ++ c).
Proof. induction a as [|x a IH]; cbn; [reflexivity | now rewrite IH]. Qed.

Lemma all_digits_app (a b : string) :
  all_digits (a ++ b) = all_digits a && all_digits b.
Proof.
  induction a as [|c a IH]; cbn; [reflexivity|]. rewrite IH. apply andb_assoc.
Qed.

Lemma all_digits_zeros (n : nat) : all_digits (Storage.zeros n) = true.
Proof. induction n as [|n IH]; cbn; [reflexivity | exact IH]. Qed.

Lemma all_digits_uint (d : Decimal.uint) : all_digits (NilEmpty.string_of_uint d) = true.
Proof. induction d; cbn; try reflexivity; exact IHd. Qed.

Lemma all_digits_padded (n : nat) : all_digits (Storage.padStart3 (Upload.decimal n)) = true.
Proof.
  unfold Storage.padStart3, Upload.decimal.
  now rewrite all_digits_app, all_digits_zeros, all_digits_uint.
Qed.

Lemma digit_is_no_dot (c : Ascii.ascii) : is_digit c = true -> c <> Storage.dot.
Proof. intros Hd ->. discriminate. Qed.

(** Two texts of digits, each followed by a dot: the digits and the rests
    are the same. *)
Lemma digits_before_dot (a : string) :
  forall b x y,
    all_digits a = true -> all_digits b = true ->
    a ++ String Storage.dot x = b ++ String Storage.dot y -> a = b /\ x = y.
Proof.
  induction a as [|c a IH]; intros [|d b] x y Ha Hb Heq; cbn in *.
  - injection Heq as <-. now split.
  - injection Heq as Hc _. apply andb_true_iff in Hb as [Hd _].
    now destruct (digit_is_no_dot d Hd).
  - injection Heq as Hc _. apply andb_true_iff in Ha as [Hd _].
    now destruct (digit_is_no_dot c Hd).
  - injection Heq as -> Heq.
    apply andb_true_iff in Ha as [_ Ha]. apply andb_true_iff in Hb as [_ Hb].
    destruct (IH b x y Ha Hb Heq) as [-> ->]. now split.
Qed.

Lemma read_zeros (n : nat) (s : string) :
  read_number (Storage.zeros n ++ s) = read_number s.
Proof.
  induction n as [|n IH]; [reflexivity|].
  unfold read_number in *. cbn [Storage.zeros append NilEmpty.uint_of_string].
  destruct (NilEmpty.uint_of_string (Storage.zeros n ++ s)) as [d|];
    destruct (NilEmpty.uint_of_string s) as [d'|]; cbn in *; try discriminate;
    try reflexivity; try exact IH.
Qed.

Lemma read_padded (n : nat) : read_number (Storage.padStart3 (Upload.decimal n)) = Some n.
Proof.
  unfold Storage.padStart3. rewrite read_zeros.
  unfold read_number, Upload.decimal. rewrite NilEmpty.usu. cbn.
  f_equal. apply DecimalNat.Unsigned.of_to.
Qed.
End Strings.

(** X14. Two pages of one comic are stored under the same path only when
    they have the same page number (and the same file extension): the upload
    of one page never replaces the object of another page. *)
Theorem page_paths_differ :
  forall (text : Storage.UUID -> string) (userId comicId : Storage.UUID)
         (n m : nat) (file other : Upload.File),
    Storage.page_path text userId comicId n file
    = Storage.page_path text userId comicId m other ->
    n = m /\ Storage.fileExt file = Storage.fileExt other.
Proof.
  intros text userId comicId n m file other Heq. unfold Storage.page_path in Heq.
  do 5 apply append_cancel in Heq.
  change ("." ++ Storage.fileExt file)%string
    with (String Storage.dot (Storage.fileExt file)) in Heq.
  change ("." ++ Storage.fileExt other)%string
    with (String Storage.dot (Storage.fileExt other)) in Heq.
  apply digits_before_dot in Heq as [Hnum Hext]; try apply all_digits_padded.
  split; [|exact Hext].
  assert (H : read_number (Storage.padStart3 (Upload.decimal n))
              = read_number (Storage.padStart3 (Upload.decimal m))) by now rewrite Hnum.
  rewrite !read_padded in H. now injection H.
Qed.

Lemma page_paths_differ_witness :
  Storage.page_path (fun _ => "id"%string) 1%N 2%N 7 Samples.cover
  = Storage.page_path (fun _ => "id"%string) 1%N 2%N 7 Samples.cover
  /\ Storage.page_path (fun _ => "id"%string) 1%N 2%N 7 Samples.cover
     = "user-comics/id/pages/id/007.png"%string
  /\ 7 = 7.
Proof.
  split; [reflexivity|]. split; [reflexivity|].
  exact (proj1 (page_paths_differ (fun _ => "id"%string) 1%N 2%N 7 7
                  Samples.cover Samples.cover eq_refl)).
Defined.

Lemma remove_keeps (paths : list string) (b : Storage.bucket) (o : string * Upload.File) :
  In o (Storage.remove paths b) <-> In o b /\ ~ In (fst o) paths.
Proof.
  unfold Storage.remove. rewrite filter_In, negb_true_iff. split.
  - intros [Hin Hno]. split; [assumption|]. intros Hp.
    assert (existsb (String.eqb (fst o)) paths = true).
    { apply existsb_exists. exists (fst o). split; [assumption | apply String.eqb_refl]. }
    congruence.
  - intros [Hin Hno]. split; [assumption|].
    destruct (existsb (String.eqb (fst o)) paths) eqn:Hex; [|reflexivity].
    apply existsb_exists in Hex as (x & Hx & Heq). apply String.eqb_eq in Heq.
    subst x. contradiction.
Qed.

(** X15. [deleteUserComic] takes the cover that [uploadComicCover] stored
    out of the bucket exactly when the uploaded file had the extension jpg: a
    cover stored from a file with any other extension is still there
    afterwards, whatever the listing of the pages folder gives. *)
Theorem deleteUserComic_removes_jpg_covers_only :
  forall (text : Storage.UUID -> string) (userId comicId : Storage.UUID)
         (file : Upload.File) (listing : option (list string)) (b : Storage.bucket)
         (comics : list Schema.user_comic) (pages : list Schema.comic_page),
    In (Storage.cover_path text userId comicId file, file) b ->
    let b' := fst (fst (Storage.deleteUserComic text userId comicId listing b comics pages)) in
    In (Storage.cover_path text userId comicId file, file) b'
    <-> Storage.fileExt file <> "jpg"%string.
Proof.
  intros text userId comicId file listing b comics pages Hin b'. subst b'.
  unfold Storage.deleteUserComic. cbn [fst].
  assert (Hcover : Storage.cover_path text userId comicId file
                   = Storage.deleted_cover_path text userId comicId
                   <-> Storage.fileExt file = "jpg"%string).
  { unfold Storage.cover_path, Storage.deleted_cover_path. split.
    - intros Heq. do 4 apply append_cancel in Heq. cbn in Heq. now injection Heq.
    - intros ->. reflexivity. }
  assert (Hpages : forall names,
             ~ In (Storage.cover_path text userId comicId file)
                  (map (fun n => (Storage.pages_folder text userId comicId ++ "/" ++ n)%string)
                       names)).
  { intros names Hp. apply in_map_iff in Hp as (n & Heq & _).
    unfold Storage.cover_path, Storage.pages_folder in Heq.
    rewrite !append_associative in Heq.
    do 2 apply append_cancel in Heq. cbn in Heq. discriminate. }
  assert (Hfirst : In (Storage.cover_path text userId comicId file, file)
                     (Storage.remove [Storage.deleted_cover_path text userId comicId] b)
                   <-> Storage.fileExt file <> "jpg"%string).
  { rewrite remove_keeps. cbn [fst In]. rewrite <- Hcover. split.
    - intros [_ Hno] Heq. apply Hno. left. now symmetry.
    - intros Hne. split; [assumption|]. intros [Heq|[]]. apply Hne. now symmetry. }
  destruct listing as [[|name names]|]; try exact Hfirst.
  rewrite remove_keeps. cbn [fst]. rewrite Hfirst. split.
  - now intros [H _].
  - intros H. split; [assumption | apply Hpages].
Qed.

(** ** The folder limit as the trigger enforces it *)

Lemma count_folders_insert (db : Schema.folder_db) (row : Schema.bookmark_folder)
    (u : Schema.UUID) :
  Schema.count_folders
    (Schema.mkFolderDb (Schema.profiles db) (Schema.bookmark_folders db ++ [row])) u
  = (Schema.count_folders db u + (if N.eqb (Schema.user_id row) u then 1 else 0))%Z.
Proof.
  unfold Schema.count_folders. cbn [Schema.bookmark_folders].
  rewrite filter_app, length_app. cbn [filter].
  destruct (N.eqb (Schema.user_id row) u); cbn [length]; lia.
Qed.

(** X16. An insert that is stored adds one folder to the inserting user,
    whose count before was at most the maximum, and leaves the counts of all
    other users and every maximum as they were.  So a user whose count is at
    most the maximum plus one stays at most there: the bound the trigger
    keeps is [max_bookmark_folders + 1]. *)
Theorem folder_count_stays_within_max_plus_one :
  forall (db db' : Schema.folder_db) (row : Schema.bookmark_folder)
         (u : Schema.UUID) (max : Z),
    Schema.select_max_bookmark_folders db u = Some max ->
    (Schema.count_folders db u <= max + 1)%Z ->
    Schema.insert_bookmark_folder db row = Schema.Done db' ->
    (Schema.count_folders db' u <= max + 1)%Z
    /\ Schema.select_max_bookmark_folders db' u = Some max
    /\ (Schema.user_id row = u ->
        (Schema.count_folders db u <= max)%Z
        /\ Schema.count_folders db' u = (Schema.count_folders db u + 1)%Z)
    /\ (Schema.user_id row <> u -> Schema.count_folders db' u = Schema.count_folders db u).
Proof.
  intros db db' row u max Hmax Hcount Hins.
  unfold Schema.insert_bookmark_folder, Schema.check_folder_limit in Hins.
  assert (Hdb' : db' = Schema.mkFolderDb (Schema.profiles db)
                         (Schema.bookmark_folders db ++ [row])
                 /\ (Schema.user_id row = u -> (Schema.count_folders db u <= max)%Z)).
  { destruct (Schema.select_max_bookmark_folders db (Schema.user_id row)) as [m|] eqn:Hm.
    - destruct (Z.gtb_spec (Schema.count_folders db (Schema.user_id row)) m); [discriminate|].
      destruct (existsb _ _); [discriminate|]. injection Hins as <-.
      split; [reflexivity|]. intros Hu. rewrite Hu in *. rewrite Hmax in Hm.
      injection Hm as <-. assumption.
    - destruct (existsb _ _); [discriminate|]. injection Hins as <-.
      split; [reflexivity|]. intros Hu. rewrite Hu in Hm. congruence. }
  destruct Hdb' as [-> Hroom].
  rewrite count_folders_insert.
  destruct (N.eqb_spec (Schema.user_id row) u) as [Heq|Hne].
  - specialize (Hroom Heq). repeat split; try assumption; try lia; contradiction.
  - repeat split; try assumption; try lia; contradiction.
Qed.

Lemma folder_count_stays_within_max_plus_one_witness :
  (Schema.select_max_bookmark_folders Samples.at_the_cap Samples.reader = Some 100%Z
   /\ (Schema.count_folders Samples.at_the_cap Samples.reader <= 100 + 1)%Z)
  /\ exists db',
       Schema.insert_bookmark_folder Samples.at_the_cap Samples.one_more = Schema.Done db'
       /\ (Schema.count_folders db' Samples.reader <= 100 + 1)%Z.
Proof.
  split; [split; [reflexivity | vm_compute; discriminate]|].
  destruct (Schema.insert_bookmark_folder Samples.at_the_cap Samples.one_more) as [db'|e]
    eqn:Hins; [|vm_compute in Hins; discriminate].
  exists db'. split; [reflexivity|].
  apply (folder_count_stays_within_max_plus_one Samples.at_the_cap db' Samples.one_more
           Samples.reader 100%Z); [reflexivity | vm_compute; discriminate | exact Hins].
Defined.

(** ** The page reorder procedure *)

Lemma apply_page_update_frame (u : Schema.page_update) (r : Schema.comic_page) :
  Schema.page_id (Schema.apply_page_update u r) = Schema.page_id r
  /\ Schema.page_comic_id (Schema.apply_page_update u r) = Schema.page_comic_id r
  /\ Schema.image_url (Schema.apply_page_update u r) = Schema.image_url r
  /\ (Schema.page_matches u r = false -> Schema.apply_page_update u r = r).
Proof.
  unfold Schema.apply_page_update. destruct (Schema.page_matches u r); repeat split.
  discriminate.
Qed.

Lemma page_matches_spec (u : Schema.page_update) (r : Schema.comic_page) :
  Schema.page_matches u r = true
  <-> Schema.page_id r = Schema.upd_page u /\ Schema.page_comic_id r = Schema.upd_comic u.
Proof.
  unfold Schema.page_matches. now rewrite andb_true_iff, !N.eqb_eq.
Qed.

Lemma updates_frame (stmts : list Schema.page_update) :
  forall (t : list Schema.comic_page) (n : nat) (r : Schema.comic_page),
    nth_error t n = Some r ->
    exists r',
      nth_error (fold_left (fun tbl u => map (Schema.apply_page_update u) tbl) stmts t) n
      = Some r'
      /\ Schema.page_id r' = Schema.page_id r
      /\ Schema.page_comic_id r' = Schema.page_comic_id r
      /\ Schema.image_url r' = Schema.image_url r
      /\ ((forall u, In u stmts -> Schema.page_matches u r = false) -> r' = r).
Proof.
  induction stmts as [|u stmts IH]; intros t n r Hn; cbn [fold_left].
  - exists r. repeat split; assumption.
  - destruct (apply_page_update_frame u r) as (Hid & Hc & Hurl & Hsame).
    destruct (IH (map (Schema.apply_page_update u) t) n (Schema.apply_page_update u r))
      as (r' & Hn' & Hid' & Hc' & Hurl' & Hsame').
    { now rewrite nth_error_map, Hn. }
    exists r'. split; [exact Hn'|]. repeat split; try congruence.
    intros Hnone.
    assert (Hr : Schema.apply_page_update u r = r) by (apply Hsame, Hnone; now left).
    rewrite Hr in Hsame'. apply Hsame'. intros u' Hu'. apply Hnone. now right.
Qed.

Lemma page_statements_target (comic_uuid : Schema.UUID) (page_order : list Schema.UUID) :
  forall (k : nat) (u : Schema.page_update),
    In u (JSArray.mapi_from (page_statement comic_uuid) k page_order) ->
    Schema.upd_comic u = comic_uuid /\ In (Schema.upd_page u) page_order.
Proof.
  induction page_order as [|q rest IH]; intros k u Hu; [contradiction|].
  cbn [JSArray.mapi_from] in Hu. destruct Hu as [<-|Hu].
  - split; [reflexivity | now left].
  - destruct (IH (S k) u Hu) as [Hc Hin]. split; [assumption | now right].
Qed.

(** X17. A run of [reorder_comic_pages] that completes keeps every row in
    its place with its id, its comic and its image; the rows of other comics
    and the rows whose id is not in the supplied order are what they were. *)
Theorem reorder_comic_pages_touches_page_numbers_only :
  forall (comic_uuid : Schema.UUID) (page_order : list Schema.UUID)
         (t t' : list Schema.comic_page),
    snd (Schema.reorder_comic_pages comic_uuid page_order t) = Schema.Done t' ->
    length t' = length t
    /\ forall (n : nat) (r : Schema.comic_page),
         nth_error t n = Some r ->
         exists r',
           nth_error t' n = Some r'
           /\ Schema.page_id r' = Schema.page_id r
           /\ Schema.page_comic_id r' = Schema.page_comic_id r
           /\ Schema.image_url r' = Schema.image_url r
           /\ (Schema.page_comic_id r <> comic_uuid \/ ~ In (Schema.page_id r) page_order ->
               r' = r).
Proof.
  intros comic_uuid page_order t t' Hdone.
  destruct (reorder_loop_complete comic_uuid page_order 0 t t' Hdone) as [_ Ht'].
  assert (Hstmts := page_statements_target comic_uuid page_order 0).
  split.
  - rewrite Ht'. clear. generalize (JSArray.mapi_from (page_statement comic_uuid) 0 page_order).
    intros stmts. revert t. induction stmts as [|u stmts IH]; intros t; cbn [fold_left];
      [reflexivity|]. now rewrite IH, length_map.
  - intros n r Hn.
    destruct (updates_frame (JSArray.mapi_from (page_statement comic_uuid) 0 page_order)
                t n r Hn) as (r' & Hn' & Hid & Hc & Hurl & Hsame).
    exists r'. rewrite Ht'. split; [exact Hn'|]. repeat split; try assumption.
    intros Hout. apply Hsame. intros u Hu.
    destruct (Hstmts u Hu) as [Huc Hup].
    destruct (Schema.page_matches u r) eqn:Hm; [|reflexivity].
    apply page_matches_spec in Hm as [Hmid Hmc].
    destruct Hout as [Hother|Hnotin]; [congruence|].
    exfalso. apply Hnotin. now rewrite Hmid.
Qed.

Lemma reorder_comic_pages_touches_page_numbers_only_witness :
  snd (Schema.reorder_comic_pages 5%N [11; 12]%N Samples.two_pages)
  = Schema.Done Samples.two_pages
  /\ length Samples.two_pages = 2.
Proof.
  split; [reflexivity|].
  exact (proj1 (reorder_comic_pages_touches_page_numbers_only 5%N [11; 12]%N
                  Samples.two_pages Samples.two_pages eq_refl)).
Defined.

Lemma page_numbers_unique_spec (t : list Schema.comic_page) :
  Schema.page_numbers_unique t = true ->
  forall a b ra rb,
    a < b -> nth_error t a = Some ra -> nth_error t b = Some rb ->
    Schema.page_comic_id ra = Schema.page_comic_id rb ->
    Schema.page_number ra = Schema.page_number rb -> False.
Proof.
  induction t as [|r rest IH]; intros Hu a b ra rb Hab Ha Hb Hc Hn.
  - destruct a; discriminate.
  - cbn [Schema.page_numbers_unique] in Hu. apply andb_true_iff in Hu as [Hhead Hrest].
    destruct b as [|b]; [lia|]. cbn [nth_error] in Hb.
    destruct a as [|a].
    + cbn in Ha. injection Ha as <-. apply negb_true_iff in Hhead.
      assert (Hex : existsb (fun r' => N.eqb (Schema.page_comic_id r') (Schema.page_comic_id r)
                                       && Z.eqb (Schema.page_number r') (Schema.page_number r))
                      rest = true).
      { apply existsb_exists. exists rb. split; [now apply nth_error_In in Hb|].
        rewrite Hc, Hn, N.eqb_refl, Z.eqb_refl. reflexivity. }
      congruence.
    + cbn [nth_error] in Ha. apply (IH Hrest a b ra rb); try assumption. lia.
Qed.

Lemma update_changes_or_not (u : Schema.page_update) (t : list Schema.comic_page) :
  map (Schema.apply_page_update u) t = t
  \/ exists a x, nth_error t a = Some x
                 /\ Schema.page_matches u x = true
                 /\ Schema.page_number x <> Schema.upd_number u.
Proof.
  induction t as [|r rest IH]; [now left|]. cbn [map].
  destruct (Schema.page_matches u r) eqn:Hm.
  - destruct (Z.eq_dec (Schema.page_number r) (Schema.upd_number u)) as [Heq|Hne].
    + assert (Hr : Schema.apply_page_update u r = r).
      { unfold Schema.apply_page_update. rewrite Hm, <- Heq. now destruct r. }
      rewrite Hr. destruct IH as [->|(a & x & Ha & Hx & Hnum)]; [now left|].
      right. exists (S a), x. repeat split; assumption.
    + right. exists 0, r. repeat split; assumption.
  - destruct (apply_page_update_frame u r) as (_ & _ & _ & Hsame). rewrite (Hsame Hm).
    destruct IH as [->|(a & x & Ha & Hx & Hnum)]; [now left|].
    right. exists (S a), x. repeat split; assumption.
Qed.

Lemma reorder_loop_confirms (comic_uuid : Schema.UUID) (page_order : list Schema.UUID) :
  forall (i : nat) (t t' : list Schema.comic_page),
    (forall k, k < length page_order ->
               exists r, In r t /\ Schema.page_comic_id r = comic_uuid
                         /\ Schema.page_number r = (Z.of_nat (i + k) + 1)%Z) ->
    snd (Schema.reorder_loop comic_uuid i page_order t) = Schema.Done t' ->
    t' = t.
Proof.
  induction page_order as [|q rest IH]; intros i t t' Hused Hdone;
    cbn [Schema.reorder_loop] in Hdone.
  - cbn in Hdone. now injection Hdone.
  - set (u := Schema.mkPageUpdate q comic_uuid (Z.of_nat i + 1)) in *.
    unfold Schema.update_page_number in Hdone.
    destruct (update_changes_or_not u t) as [Hsame|(a & x & Ha & Hx & Hnum)].
    + rewrite Hsame in Hdone.
      destruct (Schema.page_numbers_unique t); [|cbn in Hdone; discriminate].
      destruct (Schema.reorder_loop comic_uuid (S i) rest t) as [ran r] eqn:Hloop.
      cbn [snd] in Hdone. apply (IH (S i) t t').
      * intros k Hk. destruct (Hused (S k)) as (r0 & Hin & Hc & Hn); [cbn; lia|].
        exists r0. repeat split; try assumption. rewrite Hn. f_equal. lia.
      * now rewrite Hloop.
    + exfalso.
      destruct (Hused 0) as (r & Hin & Hc & Hn); [cbn; lia|].
      rewrite Nat.add_0_r in Hn.
      apply In_nth_error in Hin as [b Hb].
      assert (Hxm := Hx).
      apply page_matches_spec in Hx as [_ Hxc]. cbn [Schema.upd_comic u] in Hxc.
      assert (Hab : a <> b).
      { intros ->. rewrite Ha in Hb. injection Hb as ->. apply Hnum. exact Hn. }
      assert (Hna : nth_error (map (Schema.apply_page_update u) t) a
                    = Some (Schema.apply_page_update u x)) by (now rewrite nth_error_map, Ha).
      assert (Hnb : nth_error (map (Schema.apply_page_update u) t) b
                    = Some (Schema.apply_page_update u r)) by (now rewrite nth_error_map, Hb).
      assert (Hkey : forall y, Schema.page_comic_id y = comic_uuid ->
                               (Schema.page_matches u y = true
                                \/ Schema.page_number y = (Z.of_nat i + 1)%Z) ->
                               Schema.page_comic_id (Schema.apply_page_update u y) = comic_uuid
                               /\ Schema.page_number (Schema.apply_page_update u y)
                                  = (Z.of_nat i + 1)%Z).
      { intros y Hyc Hy. unfold Schema.apply_page_update.
        destruct (Schema.page_matches u y) eqn:Hm; cbn; [now split|].
        destruct Hy as [Hy|Hy]; [discriminate | now split]. }
      destruct (Hkey x Hxc (or_introl Hxm)) as [Hxc' Hxn'].
      destruct (Hkey r Hc (or_intror Hn)) as [Hrc' Hrn'].
      destruct (Schema.page_numbers_unique (map (Schema.apply_page_update u) t)) eqn:Huniq;
        [|cbn in Hdone; discriminate].
      destruct (Nat.lt_gt_cases a b) as [Hcases _]. specialize (Hcases Hab).
      destruct Hcases as [Hlt|Hgt].
      * apply (page_numbers_unique_spec _ Huniq a b _ _ Hlt Hna Hnb); congruence.
      * apply (page_numbers_unique_spec _ Huniq b a _ _ Hgt Hnb Hna); congruence.
Qed.

(** X18. Once every page number from 1 to the length of the supplied order
    is in use in the comic, a run of [reorder_comic_pages] that completes
    has changed nothing: the procedure can confirm the numbering the table
    already has, and any order that would move a page raises on the index
    [UNIQUE (comic_id, page_number)] instead of being stored. *)
Theorem reorder_comic_pages_only_confirms :
  forall (comic_uuid : Schema.UUID) (page_order : list Schema.UUID)
         (t t' : list Schema.comic_page),
    (forall k, k < length page_order ->
               exists r, In r t /\ Schema.page_comic_id r = comic_uuid
                         /\ Schema.page_number r = (Z.of_nat k + 1)%Z) ->
    snd (Schema.reorder_comic_pages comic_uuid page_order t) = Schema.Done t' ->
    t' = t.
Proof.
  intros comic_uuid page_order t t' Hused Hdone.
  apply (reorder_loop_confirms comic_uuid page_order 0 t t'); [|exact Hdone].
  intros k Hk. exact (Hused k Hk).
Qed.

Lemma reorder_comic_pages_only_confirms_witness :
  (forall k, k < length [11; 12]%N ->
             exists r, In r Samples.two_pages /\ Schema.page_comic_id r = 5%N
                       /\ Schema.page_number r = (Z.of_nat k + 1)%Z)
  /\ snd (Schema.reorder_comic_pages 5%N [11; 12]%N Samples.two_pages)
     = Schema.Done Samples.two_pages
  /\ forall t', snd (Schema.reorder_comic_pages 5%N [11; 12]%N Samples.two_pages)
                = Schema.Done t' -> t' = Samples.two_pages.
Proof.
  assert (Hused : forall k, k < length [11; 12]%N ->
             exists r, In r Samples.two_pages /\ Schema.page_comic_id r = 5%N
                       /\ Schema.page_number r = (Z.of_nat k + 1)%Z).
  { intros k Hk. destruct k as [|[|k]]; [| |cbn in Hk; lia].
    - exists (nth 0 Samples.two_pages (Schema.mkComicPage 0%N 0%N 0%Z EmptyString)).
      repeat split. now left.
    - exists (nth 1 Samples.two_pages (Schema.mkComicPage 0%N 0%N 0%Z EmptyString)).
      repeat split. right. now left. }
  split; [exact Hused|]. split; [reflexivity|].
  intros t' Hdone.
  exact (reorder_comic_pages_only_confirms 5%N [11; 12]%N Samples.two_pages t' Hused Hdone).
Defined.

(** ** Slugs and deletion *)

Lemma delete_absent (t : list Schema.user_comic) (i : Schema.UUID) :
  existsb (fun r => N.eqb (Schema.comic_id r) i) t = false ->
  Schema.delete_user_comic t i = t.
Proof.
  unfold Schema.delete_user_comic. induction t as [|r rest IH]; intros Hno; [reflexivity|].
  cbn [existsb] in Hno. apply orb_false_iff in Hno as [Hr Hrest].
  cbn [filter]. rewrite Hr. cbn [negb]. now rewrite (IH Hrest).
Qed.

Lemma no_conflict_no_id (NEW : Schema.user_comic) (t : list Schema.user_comic) :
  existsb (Schema.user_comic_conflict NEW) t = false ->
  existsb (fun r => N.eqb (Schema.comic_id r) (Schema.comic_id NEW)) t = false
  /\ existsb (fun r => String.eqb (Schema.slug r) (Schema.slug NEW)) t = false.
Proof.
  induction t as [|r rest IH]; intros Hno; [now split|].
  cbn [existsb] in *. apply orb_false_iff in Hno as [Hr Hrest].
  unfold Schema.user_comic_conflict in Hr. apply orb_false_iff in Hr as [Hid Hslug].
  destruct (IH Hrest) as [-> ->]. now rewrite Hid, Hslug.
Qed.

(** X19. Deleting a comic that was just inserted gives back the table as it
    was before the insert, and with it the slug: a later insert under the
    same slug, with a fresh id and values the CHECK constraints admit, is
    stored. *)
Theorem deleting_a_comic_frees_its_slug :
  forall (t t1 : list Schema.user_comic) (NEW again : Schema.user_comic),
    Schema.insert_user_comic t NEW = Schema.Done t1 ->
    Schema.delete_user_comic t1 (Schema.comic_id NEW) = t
    /\ (Schema.slug again = Schema.slug NEW ->
        Schema.user_comic_checks again = true ->
        existsb (fun r => N.eqb (Schema.comic_id r) (Schema.comic_id again)) t = false ->
        Schema.insert_user_comic (Schema.delete_user_comic t1 (Schema.comic_id NEW)) again
        = Schema.Done (t ++ [again])).
Proof.
  intros t t1 NEW again Hins. unfold Schema.insert_user_comic in Hins.
  destruct (negb (Schema.user_comic_checks NEW)); [discriminate|].
  destruct (existsb (Schema.user_comic_conflict NEW) t) eqn:Hconf; [discriminate|].
  injection Hins as <-.
  destruct (no_conflict_no_id NEW t Hconf) as [Hid Hslug].
  assert (Hdel : Schema.delete_user_comic (t ++ [NEW]) (Schema.comic_id NEW) = t).
  { unfold Schema.delete_user_comic. rewrite filter_app. cbn [filter].
    rewrite N.eqb_refl. cbn [negb]. rewrite app_nil_r. apply delete_absent, Hid. }
  split; [exact Hdel|].
  intros Hsame Hchecks Hfresh. rewrite Hdel. unfold Schema.insert_user_comic.
  rewrite Hchecks. cbn [negb].
  assert (Hno : existsb (Schema.user_comic_conflict again) t = false).
  { clear Hdel Hconf Hid. induction t as [|r rest IH]; [reflexivity|].
    cbn [existsb] in *. apply orb_false_iff in Hfresh as [Hr Hrest].
    apply orb_false_iff in Hslug as [Hs Hslugs].
    unfold Schema.user_comic_conflict at 1. rewrite Hr, Hsame, Hs. cbn [orb].
    apply IH; assumption. }
  now rewrite Hno.
Qed.

Lemma deleting_a_comic_frees_its_slug_witness :
  Schema.insert_user_comic [] Samples.first_comic = Schema.Done [Samples.first_comic]
  /\ Schema.delete_user_comic [Samples.first_comic] (Schema.comic_id Samples.first_comic) = [].
Proof.
  split; [reflexivity|].
  exact (proj1 (deleting_a_comic_frees_its_slug [] [Samples.first_comic] Samples.first_comic
                  Samples.same_slug eq_refl)).
Defined.

(** ** Comic statistics *)

Lemma sum_app (xs ys : list Z) : Stats.sum (xs ++ ys) = (Stats.sum xs + Stats.sum ys)%Z.
Proof.
  unfold Stats.sum. induction xs as [|x xs IH]; cbn [app fold_right]; [reflexivity|].
  rewrite IH. lia.
Qed.

Lemma sum_constant (A : Type) (c : Z) (l : list A) :
  Stats.sum (map (fun _ => c) l) = (c * Z.of_nat (length l))%Z.
Proof.
  unfold Stats.sum. induction l as [|x l IH]; cbn [map fold_right length]; [lia|].
  rewrite IH. lia.
Qed.

Lemma sum_flat_map (A B : Type) (f : A -> list B) (g : B -> Z) (l : list A) :
  Stats.sum (map g (flat_map f l)) = Stats.sum (map (fun a => Stats.sum (map g (f a))) l).
Proof.
  induction l as [|a l IH]; [reflexivity|].
  change (flat_map f (a :: l)) with (f a ++ flat_map f l).
  rewrite map_app, sum_app, IH. reflexivity.
Qed.

Lemma joined_sum (column : Schema.user_comic -> Z) (comics : list Schema.user_comic)
    (bookmarks : list Stats.bookmark) (user_uuid : Schema.UUID) :
  Stats.sum (map (fun row => column (fst row)) (Stats.joined comics bookmarks user_uuid))
  = Stats.sum (map (fun uc => (column uc * Z.max 1 (bookmarks_on bookmarks uc))%Z)
                 (comics_of comics user_uuid)).
Proof.
  unfold Stats.joined, comics_of. rewrite sum_flat_map. f_equal.
  apply map_ext. intros uc. unfold bookmarks_on.
  destruct (filter (fun b => N.eqb (Stats.bookmark_comic_id b) (Schema.comic_id uc)) bookmarks)
    as [|b bs].
  - cbn [map fst length Stats.sum fold_right]. change (Z.of_nat 0) with 0%Z.
    rewrite Z.max_l by lia. lia.
  - rewrite map_map.
    change (map (fun x : Stats.bookmark => column (fst (uc, Some x))) (b :: bs))
      with (map (fun _ : Stats.bookmark => column uc) (b :: bs)).
    rewrite (sum_constant Stats.bookmark (column uc) (b :: bs)).
    cbn [length]. f_equal. lia.
Qed.

Lemma nodup_length_same_elements (l1 l2 : list N) :
  (forall x, In x l1 <-> In x l2) ->
  length (nodup N.eq_dec l1) = length (nodup N.eq_dec l2).
Proof.
  intros Hsame. apply Nat.le_antisymm; apply NoDup_incl_length; try apply NoDup_nodup;
    intros x Hx; apply nodup_In; apply nodup_In in Hx; now apply Hsame.
Qed.

Lemma joined_comics (comics : list Schema.user_comic) (bookmarks : list Stats.bookmark)
    (user_uuid : Schema.UUID) (i : Schema.UUID) :
  In i (map (fun row => Schema.comic_id (fst row)) (Stats.joined comics bookmarks user_uuid))
  <-> In i (map Schema.comic_id (comics_of comics user_uuid)).
Proof.
  unfold Stats.joined, comics_of. rewrite !in_map_iff. split.
  - intros (row & Hid & Hrow). apply in_flat_map in Hrow as (uc & Huc & Hrow).
    exists uc. split; [|exact Huc]. rewrite <- Hid.
    destruct (filter _ bookmarks) as [|b bs].
    + destruct Hrow as [<-|[]]. reflexivity.
    + apply in_map_iff in Hrow as (x & <- & _). reflexivity.
  - intros (uc & Hid & Huc).
    destruct (filter (fun b => N.eqb (Stats.bookmark_comic_id b) (Schema.comic_id uc))
                bookmarks) as [|b bs] eqn:Hb.
    + exists (uc, None). split; [exact Hid|]. apply in_flat_map. exists uc.
      split; [exact Huc|]. rewrite Hb. now left.
    + exists (uc, Some b). split; [exact Hid|]. apply in_flat_map. exists uc.
      split; [exact Huc|]. rewrite Hb. now left.
Qed.

Lemma joined_bookmarks (comics : list Schema.user_comic) (bookmarks : list Stats.bookmark)
    (user_uuid : Schema.UUID) (i : Schema.UUID) :
  In i (flat_map (fun row : Schema.user_comic * option Stats.bookmark =>
                    match snd row with
                    | Some b => [Stats.bookmark_id b]
                    | None => []
                    end)
          (Stats.joined comics bookmarks user_uuid))
  <-> In i (map Stats.bookmark_id (bookmarks_of comics bookmarks user_uuid)).
Proof.
  unfold Stats.joined, bookmarks_of. fold (comics_of comics user_uuid).
  rewrite in_flat_map, in_map_iff. split.
  - intros (row & Hrow & Hi). apply in_flat_map in Hrow as (uc & Huc & Hrow).
    destruct (filter (fun b => N.eqb (Stats.bookmark_comic_id b) (Schema.comic_id uc))
                bookmarks) as [|b0 bs] eqn:Hb.
    + destruct Hrow as [<-|[]]. contradiction.
    + apply in_map_iff in Hrow as (b & <- & Hin). cbn [snd] in Hi.
      destruct Hi as [<-|[]]. exists b. split; [reflexivity|].
      rewrite <- Hb in Hin. apply filter_In in Hin as [Hin Heq].
      apply filter_In. split; [exact Hin|]. apply existsb_exists. now exists uc.
  - intros (b & <- & Hb). apply filter_In in Hb as [Hin Hex].
    apply existsb_exists in Hex as (uc & Huc & Heq).
    assert (Hmatch : In b (filter (fun b' => N.eqb (Stats.bookmark_comic_id b')
                                                 (Schema.comic_id uc)) bookmarks))
      by (apply filter_In; now split).
    exists (uc, Some b). split; [|now left].
    apply in_flat_map. exists uc. split; [exact Huc|].
    destruct (filter (fun b' => N.eqb (Stats.bookmark_comic_id b') (Schema.comic_id uc))
                bookmarks) as [|b0 bs]; [contradiction|].
    apply in_map_iff. now exists b.
Qed.

(** X20. What [get_user_comic_stats] returns.  The join gives a comic one
    row for each of its bookmarks, so the page and view totals count a comic
    once when it has no bookmark and otherwise once for each bookmark, while
    the comics and the bookmarks are counted over distinct ids.  The call
    returns these four values when each of them fits an INTEGER, and raises
    "integer out of range" otherwise. *)
Theorem comic_statistics_count_a_comic_once_for_each_bookmark :
  forall (view_count : Schema.user_comic -> Z) (comics : list Schema.user_comic)
         (bookmarks : list Stats.bookmark) (user_uuid : Schema.UUID),
    let n_comics := Stats.count_distinct (map Schema.comic_id (comics_of comics user_uuid)) in
    let n_pages :=
      Stats.sum (map (fun uc => (Schema.page_count uc * Z.max 1 (bookmarks_on bookmarks uc))%Z)
                   (comics_of comics user_uuid)) in
    let n_views :=
      Stats.sum (map (fun uc => (view_count uc * Z.max 1 (bookmarks_on bookmarks uc))%Z)
                   (comics_of comics user_uuid)) in
    let n_bookmarks :=
      Stats.count_distinct (map Stats.bookmark_id (bookmarks_of comics bookmarks user_uuid)) in
    Stats.get_user_comic_stats view_count comics bookmarks user_uuid
    = if Stats.in_integer_range n_comics && Stats.in_integer_range n_pages
         && Stats.in_integer_range n_views && Stats.in_integer_range n_bookmarks
      then Stats.Returned (Stats.mkComicStats n_comics n_pages n_views n_bookmarks)
      else Stats.integer_out_of_range.
Proof.
  intros view_count comics bookmarks user_uuid n_comics n_pages n_views n_bookmarks.
  subst n_comics n_pages n_views n_bookmarks.
  unfold Stats.get_user_comic_stats.
  rewrite (joined_sum Schema.page_count), (joined_sum view_count).
  assert (Hc : Stats.count_distinct
                 (map (fun row : Schema.user_comic * option Stats.bookmark =>
                         Schema.comic_id (fst row))
                    (Stats.joined comics bookmarks user_uuid))
               = Stats.count_distinct (map Schema.comic_id (comics_of comics user_uuid))).
  { unfold Stats.count_distinct. f_equal. apply nodup_length_same_elements.
    intros i. apply joined_comics. }
  assert (Hb : Stats.count_distinct
                 (flat_map (fun row : Schema.user_comic * option Stats.bookmark =>
                              match snd row with
                              | Some b => [Stats.bookmark_id b]
                              | None => []
                              end)
                    (Stats.joined comics bookmarks user_uuid))
               = Stats.count_distinct
                   (map Stats.bookmark_id (bookmarks_of comics bookmarks user_uuid))).
  { unfold Stats.count_distinct. f_equal. apply nodup_length_same_elements.
    intros i. apply joined_bookmarks. }
  rewrite Hc, Hb. reflexivity.
Qed.

(** A comic of 1000 pages that is bookmarked three times, beside one of
    12 pages without bookmark, is reported with 3012 pages; with a page count
    of 1,000,000,000 in its place the sum no longer fits and the call
    raises. *)
Lemma comic_statistics_at_sample_rows :
  Stats.get_user_comic_stats (fun _ => 1%Z)
    [Schema.mkUserComic 5%N 7%N "A" "a" "Ana" "c.jpg" "published" "English" 1000;
     Schema.mkUserComic 6%N 7%N "B" "b" "Ana" "d.jpg" "published" "English" 12]
    [Stats.mkBookmark 1%N 5%N; Stats.mkBookmark 2%N 5%N; Stats.mkBookmark 3%N 5%N] 7%N
  = Stats.Returned (Stats.mkComicStats 2 3012 4 3)
  /\ Stats.get_user_comic_stats (fun _ => 1%Z)
       [Schema.mkUserComic 5%N 7%N "A" "a" "Ana" "c.jpg" "published" "English" 1000000000]
       [Stats.mkBookmark 1%N 5%N; Stats.mkBookmark 2%N 5%N; Stats.mkBookmark 3%N 5%N] 7%N
     = Stats.integer_out_of_range.
Proof. split; reflexivity. Qed.

(** ** What a reorder writes *)

Lemma updates_length (stmts : list Schema.page_update) :
  forall t : list Schema.comic_page,
    length (fold_left (fun tbl u => map (Schema.apply_page_update u) tbl) stmts t) = length t.
Proof.
  induction stmts as [|u stmts IH]; intros t; cbn [fold_left]; [reflexivity|].
  now rewrite IH, length_map.
Qed.

(** After the UPDATEs of an order without repeats, the row that entry [k]
    names carries the number of that entry. *)
Lemma updates_numbers (comic_uuid : Schema.UUID) (page_order : list Schema.UUID) :
  forall (i : nat) (t : list Schema.comic_page),
    NoDup page_order ->
    forall (k n : nat) (page_id : Schema.UUID) (r' : Schema.comic_page),
      nth_error page_order k = Some page_id ->
      nth_error
        (fold_left (fun tbl u => map (Schema.apply_page_update u) tbl)
           (JSArray.mapi_from (page_statement comic_uuid) i page_order) t) n = Some r' ->
      Schema.page_id r' = page_id ->
      Schema.page_comic_id r' = comic_uuid ->
      Schema.page_number r' = (Z.of_nat (i + k) + 1)%Z.
Proof.
  induction page_order as [|q rest IH]; intros i t Hnodup k n page_id r' Hk Hn Hid Hc.
  - destruct k; discriminate.
  - apply NoDup_cons_iff in Hnodup as [Hq Hrest].
    cbn [JSArray.mapi_from fold_left] in Hn.
    set (u := page_statement comic_uuid q i) in *.
    destruct k as [|k].
    + cbn in Hk. injection Hk as <-.
      assert (Hlen : n < length (map (Schema.apply_page_update u) t)).
      { assert (Hsome : nth_error
                          (fold_left (fun tbl u => map (Schema.apply_page_update u) tbl)
                             (JSArray.mapi_from (page_statement comic_uuid) (S i) rest)
                             (map (Schema.apply_page_update u) t)) n <> None)
          by (rewrite Hn; discriminate).
        apply nth_error_Some in Hsome. now rewrite updates_length in Hsome. }
      destruct (nth_error (map (Schema.apply_page_update u) t) n) as [r1|] eqn:Hr1;
        [|apply nth_error_None in Hr1; lia].
      destruct (updates_frame (JSArray.mapi_from (page_statement comic_uuid) (S i) rest)
                  (map (Schema.apply_page_update u) t) n r1 Hr1)
        as (r2 & Hn2 & Hid2 & Hc2 & _ & Hsame).
      rewrite Hn in Hn2. injection Hn2 as <-.
      assert (Hr' : r' = r1).
      { apply Hsame. intros u' Hu'.
        destruct (page_statements_target comic_uuid rest (S i) u' Hu') as [_ Hin].
        destruct (Schema.page_matches u' r1) eqn:Hm; [|reflexivity].
        apply page_matches_spec in Hm as [Hm _]. exfalso. apply Hq.
        rewrite <- Hid, Hid2, Hm. exact Hin. }
      subst r1. rewrite nth_error_map in Hr1.
      destruct (nth_error t n) as [r0|]; [|discriminate]. cbn in Hr1. injection Hr1 as Hr1.
      destruct (apply_page_update_frame u r0) as (Hid0 & Hc0 & _ & _).
      assert (Hm : Schema.page_matches u r0 = true).
      { apply page_matches_spec. subst u. cbn. rewrite <- Hid0, <- Hc0, Hr1. now split. }
      rewrite <- Hr1. unfold Schema.apply_page_update. rewrite Hm. subst u. cbn.
      now rewrite Nat.add_0_r.
    + cbn [nth_error] in Hk.
      rewrite (IH (S i) (map (Schema.apply_page_update u) t) Hrest k n page_id r' Hk Hn Hid Hc).
      f_equal. lia.
Qed.

Lemma position_calls (fs : list Bookmarks.Folder) :
  map update_call (JSArray.mapi Bookmarks.with_display_order fs)
  = JSArray.mapi
      (fun folder index => Bookmarks.updateBookmarkFolder (Bookmarks.id folder) (Z.of_nat index))
      fs.
Proof. unfold JSArray.mapi. now rewrite JSArrayFacts.mapi_from_map. Qed.

(** C6, as the code has it.  A folder reorder works through the list as
    the drop left it and issues for the folder in place [k] the call
    [updateBookmarkFolder(id, { display_order: k })], changed position or not
    and whatever the calls resolve to: all [N] calls when no call rejects; when
    the call of place [k] is the first to reject, the calls up to that one and
    then a refetch.  A run of [reorder_comic_pages] that completes has
    executed one UPDATE per entry of the supplied order, and when the order has
    no repeats the row an entry names, if the comic has one, is afterwards that
    row with [page_number] the place of the entry plus one. *)
Theorem reorder_persists_every_position :
  forall (env : nat -> Bookmarks.outcome) (p : Bookmarks.Page)
         (i j : nat) (comic_uuid : Schema.UUID) (page_order : list Schema.UUID)
         (t t' : list Schema.comic_page),
    (Bookmarks.dragItem p = Some i -> Bookmarks.dragOverItem p = Some j ->
     i < length (Bookmarks.folders p) -> j < length (Bookmarks.folders p) ->
     let calls := snd (Bookmarks.handleDragEnd env p) in
     let every_position :=
       JSArray.mapi
         (fun folder index =>
            Bookmarks.updateBookmarkFolder (Bookmarks.id folder) (Z.of_nat index))
         (JSArray.move Bookmarks.undefined_folder i j (Bookmarks.folders p)) in
     length every_position = length (Bookmarks.folders p)
     /\ ((forall k, env k <> Bookmarks.Rejected) -> calls = every_position)
     /\ (forall k, k < length (Bookmarks.folders p) ->
                   (forall n, n < k -> env n <> Bookmarks.Rejected) ->
                   env k = Bookmarks.Rejected ->
                   calls = firstn (S k) every_position ++ [Bookmarks.fetchBookmarkData]))
    /\
    (snd (Schema.reorder_comic_pages comic_uuid page_order t) = Schema.Done t' ->
     let ran := fst (Schema.reorder_comic_pages comic_uuid page_order t) in
     ran = JSArray.mapi (page_statement comic_uuid) page_order
     /\ length ran = length page_order
     /\ (NoDup page_order ->
         forall (k n : nat) (page_id : Schema.UUID) (r : Schema.comic_page),
           nth_error page_order k = Some page_id ->
           nth_error t n = Some r ->
           Schema.page_id r = page_id ->
           Schema.page_comic_id r = comic_uuid ->
           nth_error t' n
           = Some (Schema.mkComicPage page_id comic_uuid (Z.of_nat k + 1)
                     (Schema.image_url r)))).
Proof.
  intros env p i j comic_uuid page_order t t'. split.
  - intros Hfrom Hto Hi Hj calls every_position. subst calls every_position.
    assert (Hlen : length (JSArray.move Bookmarks.undefined_folder i j (Bookmarks.folders p))
                   = length (Bookmarks.folders p))
      by (now apply JSArrayFacts.move_length).
    unfold Bookmarks.handleDragEnd. rewrite Hfrom, Hto.
    rewrite <- position_calls. fold (Bookmarks.reorder_folders i j (Bookmarks.folders p)).
    split; [|split].
    + rewrite length_map. unfold Bookmarks.reorder_folders, JSArray.mapi.
      now rewrite JSArrayFacts.mapi_from_length.
    + intros Hok. now rewrite (persist_loop_runs_through env _ 0 Hok).
    + intros k Hk Hbefore Hrej.
      rewrite (persist_loop_rejected env (Bookmarks.reorder_folders i j (Bookmarks.folders p))
                 0 k).
      * cbn [fst snd]. now rewrite firstn_map.
      * unfold Bookmarks.reorder_folders, JSArray.mapi.
        rewrite JSArrayFacts.mapi_from_length. lia.
      * intros n Hn. cbn. now apply Hbefore.
      * exact Hrej.
  - intros Hdone ran. subst ran. unfold Schema.reorder_comic_pages in *.
    destruct (reorder_loop_complete comic_uuid page_order 0 t t' Hdone) as [Hran Ht'].
    rewrite Hran. split; [reflexivity|]. split.
    + unfold JSArray.mapi. apply JSArrayFacts.mapi_from_length.
    + intros Hnodup k n page_id r Hk Hn Hid Hc.
      destruct (updates_frame (JSArray.mapi_from (page_statement comic_uuid) 0 page_order)
                  t n r Hn) as (r' & Hn' & Hid' & Hc' & Hurl' & _).
      rewrite <- Ht' in Hn'. rewrite Hn'. f_equal.
      assert (Hnum : Schema.page_number r' = (Z.of_nat (0 + k) + 1)%Z).
      { apply (updates_numbers comic_uuid page_order 0 t Hnodup k n page_id r' Hk).
        - now rewrite <- Ht'.
        - congruence.
        - congruence. }
      destruct r' as [id' c' num' url']. cbn in *. subst. reflexivity.
Qed.

Lemma reorder_persists_every_position_witness :
  ((forall k, Samples.all_fulfilled k <> Bookmarks.Rejected)
   /\ Samples.second_rejects 1 = Bookmarks.Rejected
   /\ snd (Schema.reorder_comic_pages 5%N [13; 12]%N MoreSamples.gapped_pages)
      = Schema.Done MoreSamples.renumbered_pages
   /\ NoDup [13; 12]%N)
  /\ snd (Bookmarks.handleDragEnd Samples.all_fulfilled (Samples.dragging 2 0))
     = [Bookmarks.updateBookmarkFolder (Some 3%N) 0;
        Bookmarks.updateBookmarkFolder (Some 1%N) 1;
        Bookmarks.updateBookmarkFolder (Some 2%N) 2]
  /\ snd (Bookmarks.handleDragEnd Samples.second_rejects (Samples.dragging 2 0))
     = [Bookmarks.updateBookmarkFolder (Some 3%N) 0;
        Bookmarks.updateBookmarkFolder (Some 1%N) 1;
        Bookmarks.fetchBookmarkData]
  /\ nth_error MoreSamples.renumbered_pages 1
     = Some (Schema.mkComicPage 13%N 5%N 1 "c.jpg").
Proof.
  assert (Hok : forall k, Samples.all_fulfilled k <> Bookmarks.Rejected)
    by (intros k; discriminate).
  assert (Hnodup : NoDup [13; 12]%N).
  { constructor; [cbn; intros [H|[]]; discriminate|].
    constructor; [cbn; tauto | constructor]. }
  assert (Hdone : snd (Schema.reorder_comic_pages 5%N [13; 12]%N MoreSamples.gapped_pages)
                  = Schema.Done MoreSamples.renumbered_pages) by reflexivity.
  split; [repeat split; assumption|].
  destruct (reorder_persists_every_position Samples.all_fulfilled (Samples.dragging 2 0)
              2 0 5%N [13; 12]%N MoreSamples.gapped_pages MoreSamples.renumbered_pages)
    as [HF HP].
  destruct (reorder_persists_every_position Samples.second_rejects (Samples.dragging 2 0)
              2 0 5%N [13; 12]%N MoreSamples.gapped_pages MoreSamples.renumbered_pages)
    as [HR _].
  split; [|split].
  - exact (proj1 (proj2 (HF eq_refl eq_refl ltac:(simpl; lia) ltac:(simpl; lia))) Hok).
  - refine (proj2 (proj2 (HR eq_refl eq_refl ltac:(simpl; lia) ltac:(simpl; lia)))
              1 ltac:(simpl; lia) _ eq_refl).
    intros n Hn. assert (n = 0) as -> by lia. discriminate.
  - exact (proj2 (proj2 (HP Hdone)) Hnodup 0 1 13%N
             (Schema.mkComicPage 13%N 5%N 3 "c.jpg") eq_refl eq_refl eq_refl eq_refl).
Defined.

(** A rejected update call ends the loop, and a statement that violates
    UNIQUE (comic_id, page_number) ends the procedure: neither reorder goes
    through every entry in every case.  With the second update call rejecting,
    two of the three folders get a call; asked for the two pages of
    [Samples.two_pages] in swapped order, the procedure runs one UPDATE. *)
Lemma reorder_is_cut_short_by_a_failure :
  ~ (forall (env : nat -> Bookmarks.outcome) (p : Bookmarks.Page) (i j : nat),
        Bookmarks.dragItem p = Some i -> Bookmarks.dragOverItem p = Some j ->
        i < length (Bookmarks.folders p) -> j < length (Bookmarks.folders p) ->
        snd (Bookmarks.handleDragEnd env p)
        = map update_call (Bookmarks.folders (fst (Bookmarks.handleDragEnd env p))))
  /\ ~ (forall (comic_uuid : Schema.UUID) (page_order : list Schema.UUID)
               (t : list Schema.comic_page),
           fst (Schema.reorder_comic_pages comic_uuid page_order t)
           = JSArray.mapi (page_statement comic_uuid) page_order).
Proof.
  split.
  - intros H.
    specialize (H Samples.second_rejects (Samples.dragging 2 0) 2 0 eq_refl eq_refl
                  ltac:(simpl; lia) ltac:(simpl; lia)).
    vm_compute in H. discriminate.
  - intros H. specialize (H 5%N [12; 11]%N Samples.two_pages).
    vm_compute in H. discriminate.
Qed.

(* ===================================================================== *)
(** ** The properties above at sample data *)
(* ===================================================================== *)

Lemma fetch_orders_folders_witness :
  Bookmarks.user (BookmarksView.page MoreSamples.editing) <> None
  /\ Sorted Z.le
       (map Bookmarks.display_order
          (Bookmarks.folders
             (BookmarksView.page
                (BookmarksView.fetchBookmarkData
                   (BookmarksView.Resolved (Some MoreSamples.shuffled) false)
                   BookmarksView.Thrown MoreSamples.editing))))
  /\ Bookmarks.folders
       (BookmarksView.page
          (BookmarksView.fetchBookmarkData
             (BookmarksView.Resolved (Some MoreSamples.shuffled) false)
             BookmarksView.Thrown MoreSamples.editing))
     = [Samples.favorites; Samples.read_later; Samples.finished].
Proof.
  assert (Hu : Bookmarks.user (BookmarksView.page MoreSamples.editing) <> None)
    by (cbn; discriminate).
  split; [exact Hu|]. split; [|reflexivity].
  exact (proj1 (fetch_orders_folders MoreSamples.shuffled false BookmarksView.Thrown
                  MoreSamples.editing Hu)).
Defined.

Lemma selectFolder_settles_witness :
  (Bookmarks.folders (Samples.dragging 2 0) <> []
   /\ Forall (fun f => Bookmarks.id f <> None) (Bookmarks.folders (Samples.dragging 2 0)))
  /\ exists f, In f (Bookmarks.folders (Samples.dragging 2 0))
               /\ Bookmarks.activeFolder
                    (fst (BookmarksView.selectFolder (Some 9%N) (Samples.dragging 2 0)))
                  = Bookmarks.id f.
Proof.
  assert (Hne : Bookmarks.folders (Samples.dragging 2 0) <> []) by (cbn; discriminate).
  assert (Hids : Forall (fun f => Bookmarks.id f <> None)
                   (Bookmarks.folders (Samples.dragging 2 0)))
    by (cbn; repeat constructor; discriminate).
  assert (Hwanted : Some 9%N <> None \/ Bookmarks.activeFolder (Samples.dragging 2 0) = None)
    by (left; discriminate).
  split; [split; assumption|].
  exact (proj1 (selectFolder_settles (Some 9%N) (Samples.dragging 2 0) Hne Hids Hwanted)).
Defined.

Lemma handleUpdateFolder_closes_dialogue_witness :
  (Bookmarks.user (BookmarksView.page MoreSamples.editing) <> None
   /\ BookmarksView.editingFolder MoreSamples.editing <> None)
  /\ BookmarksView.showEditFolderModal
       (BookmarksView.handleUpdateFolder BookmarksView.Thrown "Later" MoreSamples.editing)
     = false.
Proof.
  assert (Hu : Bookmarks.user (BookmarksView.page MoreSamples.editing) <> None)
    by (cbn; discriminate).
  assert (He : BookmarksView.editingFolder MoreSamples.editing <> None)
    by (cbn; discriminate).
  split; [split; assumption|].
  exact (proj1 (proj1 (handleUpdateFolder_closes_dialogue BookmarksView.Thrown "Later"
                         MoreSamples.editing) Hu He)).
Defined.

Lemma folder_dialogue_refuses_blank_names_witness :
  snd (fst (FolderModal.handleSubmit MoreSamples.blank_form)) = None
  /\ snd (FolderModal.handleSubmit MoreSamples.blank_form) = false.
Proof.
  split; [reflexivity|].
  exact (proj1 (proj2 (proj2 (folder_dialogue_refuses_blank_names MoreSamples.blank_form))
                  eq_refl)).
Defined.

Lemma handleTagToggle_flips_witness :
  NoDup ["action"; "drama"]%string
  /\ NoDup (Tags.handleTagToggle "action" ["action"; "drama"]%string).
Proof.
  assert (Hnodup : NoDup ["action"; "drama"]%string).
  { constructor; [cbn; intros [H|[]]; discriminate|].
    constructor; [cbn; tauto | constructor]. }
  split; [exact Hnodup|].
  exact (proj2 (proj2 (proj2 (handleTagToggle_flips "action" ["action"; "drama"]%string)))
           Hnodup).
Defined.

Lemma wizard_steps_have_their_prerequisites_witness :
  (exists w, Upload.run MoreSamples.to_review Samples.fresh = Some w
             /\ Upload.currentStep w = 4%Z
             /\ step_prerequisites w)
  /\ (exists w, Upload.run MoreSamples.cover_removed Samples.fresh = Some w
                /\ Upload.currentStep w = 1%Z
                /\ Upload.coverImage w = None
                /\ Upload.comicPages w = [Some (Samples.page_file 0)]
                /\ step_prerequisites w).
Proof.
  split.
  - destruct (Upload.run MoreSamples.to_review Samples.fresh) as [w|] eqn:Hrun;
      [|vm_compute in Hrun; discriminate].
    exists w. split; [reflexivity|].
    split; [vm_compute in Hrun; injection Hrun as <-; reflexivity|].
    assert (Hreach : Upload.reachable (Some Samples.reader) 5%N w).
    { apply (run_reachable (Some Samples.reader) 5%N MoreSamples.to_review Samples.fresh);
        [constructor | exact Hrun]. }
    exact (proj1 (proj2 (proj2 (wizard_steps_have_their_prerequisites
                                  (Some Samples.reader) 5%N w Hreach)))).
  - destruct (Upload.run MoreSamples.cover_removed Samples.fresh) as [w|] eqn:Hrun;
      [|vm_compute in Hrun; discriminate].
    exists w. split; [reflexivity|].
    assert (Hreach : Upload.reachable (Some Samples.reader) 5%N w).
    { apply (run_reachable (Some Samples.reader) 5%N MoreSamples.cover_removed Samples.fresh);
        [constructor | exact Hrun]. }
    split; [vm_compute in Hrun; injection Hrun as <-; reflexivity|].
    split; [vm_compute in Hrun; injection Hrun as <-; reflexivity|].
    split; [vm_compute in Hrun; injection Hrun as <-; reflexivity|].
    exact (proj1 (proj2 (proj2 (wizard_steps_have_their_prerequisites
                                  (Some Samples.reader) 5%N w Hreach)))).
Defined.

Lemma wizard_holds_only_checked_files_witness :
  exists w, Upload.run MoreSamples.to_review Samples.fresh = Some w
            /\ Upload.coverImage w = Some Samples.cover
            /\ forall file, Upload.coverImage w = Some file ->
                            Upload.is_image file = true
                            /\ (Upload.size file <= 2 * 1024 * 1024)%N.
Proof.
  destruct (Upload.run MoreSamples.to_review Samples.fresh) as [w|] eqn:Hrun;
    [|vm_compute in Hrun; discriminate].
  exists w. split; [reflexivity|].
  split; [vm_compute in Hrun; injection Hrun as <-; reflexivity|].
  assert (Hreach : Upload.reachable (Some Samples.reader) 5%N w).
  { apply (run_reachable (Some Samples.reader) 5%N MoreSamples.to_review Samples.fresh);
      [constructor | exact Hrun]. }
  exact (proj1 (wizard_holds_only_checked_files (Some Samples.reader) 5%N w Hreach)).
Defined.

Lemma stray_drop_adds_a_cell_witness :
  (Upload.dragItem (Samples.arranging 5 0) = Some 5
   /\ Upload.dragOverItem (Samples.arranging 5 0) = Some 0
   /\ length (Upload.comicPages (Samples.arranging 5 0)) <= 5)
  /\ length (Upload.comicPages (Upload.handleDragEnd (Samples.arranging 5 0)))
     = S (length (Upload.comicPages (Samples.arranging 5 0))).
Proof.
  assert (Hlen : length (Upload.comicPages (Samples.arranging 5 0)) <= 5) by (cbn; lia).
  split; [split; [reflexivity | split; [reflexivity | exact Hlen]]|].
  exact (proj2 (proj1 (stray_drop_adds_a_cell (Samples.arranging 5 0) Samples.all_fulfilled
                         (Samples.dragging 2 0) 5 0) eq_refl eq_refl Hlen)).
Defined.

Lemma handleRemovePage_shifts_witness :
  length (Upload.comicPages (Samples.arranging 0 2)) <= 7
  /\ Upload.comicPages (Upload.handleRemovePage 7 (Samples.arranging 0 2))
     = Upload.comicPages (Samples.arranging 0 2).
Proof.
  assert (Hlen : length (Upload.comicPages (Samples.arranging 0 2)) <= 7) by (cbn; lia).
  split; [exact Hlen|].
  exact (proj1 (proj2 (proj2 (handleRemovePage_shifts 7 (Samples.arranging 0 2) 0))) Hlen).
Defined.

Lemma handleDeleteFolder_removes_the_folder_witness :
  (Bookmarks.user (Samples.dragging 2 0) = Some Samples.reader
   /\ forall f, find (Bookmarks.id_is 2%N) (Bookmarks.folders (Samples.dragging 2 0)) = Some f ->
                Bookmarks.is_default f = false)
  /\ forall f,
       In f (Bookmarks.folders
               (fst (Bookmarks.handleDeleteFolder Bookmarks.Fulfilled 2%N
                       (Samples.dragging 2 0))))
       <-> In f (Bookmarks.folders (Samples.dragging 2 0)) /\ Bookmarks.id f <> Some 2%N.
Proof.
  assert (Hnd : forall f, find (Bookmarks.id_is 2%N) (Bookmarks.folders (Samples.dragging 2 0))
                          = Some f -> Bookmarks.is_default f = false).
  { intros f Hf. cbn in Hf. injection Hf as <-. reflexivity. }
  split; [split; [reflexivity | exact Hnd]|].
  exact (proj1 (handleDeleteFolder_removes_the_folder 2%N Samples.reader
                  (Samples.dragging 2 0) eq_refl Hnd)).
Defined.

Lemma create_then_delete_restores_the_list_witness :
  (exists db', Schema.insert_bookmark_folder Samples.folder_rows
                 (Bookmarks.new_folder_row 4%N Samples.reader "New"
                    (Z.of_nat (length (Bookmarks.folders (Samples.dragging 2 0)))))
               = Schema.Done db')
  /\ Bookmarks.folders
       (fst (Bookmarks.handleDeleteFolder Bookmarks.Fulfilled 4%N
               (fst (fst (Bookmarks.handleCreateFolder 4%N "New" (Samples.dragging 2 0)
                            Samples.folder_rows)))))
     = Bookmarks.folders (Samples.dragging 2 0).
Proof.
  destruct (Schema.insert_bookmark_folder Samples.folder_rows
              (Bookmarks.new_folder_row 4%N Samples.reader "New"
                 (Z.of_nat (length (Bookmarks.folders (Samples.dragging 2 0))))))
    as [db'|e] eqn:Hins; [|vm_compute in Hins; discriminate].
  split; [exists db'; reflexivity|].
  assert (Hroom : (0 < Bookmarks.folders_remaining
                         (Bookmarks.bookmarkStats (Samples.dragging 2 0)))%Z)
    by (cbn; lia).
  assert (Hfresh : forall f, In f (Bookmarks.folders (Samples.dragging 2 0)) ->
                             Bookmarks.id f <> Some 4%N).
  { intros f [<-|[<-|[<-|[]]]]; discriminate. }
  exact (proj1 (create_then_delete_restores_the_list 4%N Samples.reader "New"
                  (Samples.dragging 2 0) Samples.folder_rows db' eq_refl Hroom Hins Hfresh)).
Defined.

Lemma delete_then_create_repeats_a_position_witness :
  positions_in_order (Bookmarks.folders (Samples.dragging 2 0))
  /\ NoDup (map Bookmarks.id (Bookmarks.folders (Samples.dragging 2 0)))
  /\ ~ NoDup
       (map Bookmarks.display_order
          (Bookmarks.folders
             (fst (fst (Bookmarks.handleCreateFolder 4%N "New"
                          (fst (Bookmarks.handleDeleteFolder Bookmarks.Fulfilled 2%N
                                  (Samples.dragging 2 0)))
                          MoreSamples.rows_after_delete))))).
Proof.
  assert (Hpos : positions_in_order (Bookmarks.folders (Samples.dragging 2 0)))
    by reflexivity.
  assert (Hids : NoDup (map Bookmarks.id (Bookmarks.folders (Samples.dragging 2 0)))).
  { cbn. constructor; [cbn; intros [H|[H|[]]]; discriminate|].
    constructor; [cbn; intros [H|[]]; discriminate|].
    constructor; [cbn; tauto | constructor]. }
  split; [exact Hpos|]. split; [exact Hids|].
  destruct (Schema.insert_bookmark_folder MoreSamples.rows_after_delete
              (Bookmarks.new_folder_row 4%N Samples.reader "New"
                 (Z.of_nat (length (Bookmarks.folders
                                      (fst (Bookmarks.handleDeleteFolder Bookmarks.Fulfilled 2%N
                                              (Samples.dragging 2 0))))))))
    as [db'|e] eqn:Hins; [|vm_compute in Hins; discriminate].
  assert (Hk : S 1 < length (Bookmarks.folders (Samples.dragging 2 0))) by (cbn; lia).
  assert (Hroom : (0 < Bookmarks.folders_remaining
                         (Bookmarks.bookmarkStats
                            (fst (Bookmarks.handleDeleteFolder Bookmarks.Fulfilled 2%N
                                    (Samples.dragging 2 0)))))%Z)
    by (cbn; lia).
  exact (proj2 (proj2 (proj2
           (delete_then_create_repeats_a_position 2%N 4%N Samples.reader "New"
              (Samples.dragging 2 0) MoreSamples.rows_after_delete db' 1
              Samples.read_later Samples.finished
              eq_refl Hpos Hids eq_refl eq_refl eq_refl Hk eq_refl Hroom Hins)))).
Defined.

Lemma deleteUserComic_removes_jpg_covers_only_witness :
  In (Storage.cover_path MoreSamples.text Samples.reader 5%N Samples.cover, Samples.cover)
     MoreSamples.one_cover
  /\ In (Storage.cover_path MoreSamples.text Samples.reader 5%N Samples.cover, Samples.cover)
        (fst (fst (Storage.deleteUserComic MoreSamples.text Samples.reader 5%N None
                     MoreSamples.one_cover [Samples.first_comic] Samples.two_pages))).
Proof.
  assert (Hin : In (Storage.cover_path MoreSamples.text Samples.reader 5%N Samples.cover,
                    Samples.cover) MoreSamples.one_cover) by (left; reflexivity).
  split; [exact Hin|].
  apply (proj2 (deleteUserComic_removes_jpg_covers_only MoreSamples.text Samples.reader 5%N
                  Samples.cover None MoreSamples.one_cover [Samples.first_comic]
                  Samples.two_pages Hin)).
  vm_compute. discriminate.
Defined.
